(** * Dataset profiling engine: a shallow embedding and its properties

    The engine of the dashboard builder profiles a tabular dataset
    ([analyzeDataset]), infers column types ([detectColumnTypes]) and matches
    a free-text query against the pre-computed aggregations
    ([findRelevantAggregation]).  This file embeds those functions, line by
    line, and proves the properties the specification states about them.
    It also embeds what surrounds the engine: the store of uploaded
    datasets with its coercion step, the choice of a parser for an uploaded
    file, the text written from a profile, the keyword orchestration of
    dashboard components with the component registry, and the theme
    preference; and it proves further properties of all of these.

    Modelling conventions.
    - A JavaScript [number] is an IEEE binary64 number, with its
      infinities, signed zeros and [NaN]: the primitive [float] of the
      standard library.  [+], [-], [*], [/] and [Math.sqrt] round to
      nearest, ties to even; the comparisons are false on [NaN].
      [Math.round x] is the integer nearest to [x], a tie going up.  The
      operator [**] is left to the host, which may approximate it.
    - A string is a sequence of 8-bit characters read as ASCII text.
    - A record (a row) is an association list from column names to cell
      values; a missing key reads as [undefined] ([None]).
    - [Map] and [Set] keep insertion order, so they are association lists
      and duplicate-free lists.
    - [Array.prototype.sort] is a stable sort; it is modelled by a stable
      insertion sort driven by the predicate "comparefn(a, b) > 0".
    - What the host runtime decides (number-to-string conversion, numeric
      and date parsing, locale collation, exponentiation) is a parameter:
      class [Runtime].
    - A React state with its setters is a record and functions from state
      to state; a sequence of calls is a fold over a list of actions, and
      an asynchronous call is two actions, its start and its end, between
      which others may fall.  The clock, the storage and the operating
      system's colour scheme are arguments. *)

From Stdlib Require Import String Ascii DecimalString DecimalNat List Bool Arith ZArith Lia.
From Stdlib Require Import Floats Permutation Sorted.
From Stdlib Require Uint63.
Import ListNotations.

Set Warnings "-inexact-float".

Local Open Scope string_scope.
Local Open Scope list_scope.
Local Open Scope float_scope.

(** ** Cell values and records *)

Inductive value : Type :=
| VNull
| VNum (x : float)
| VStr (s : string).

(** [Record<string, any>]: keys in insertion order. *)
Definition Record : Type := list (string * value).

(** [row[col]]; [None] is [undefined]. *)
Fixpoint get (row : Record) (col : string) : option value :=
  match row with
  | [] => None
  | (k, v) :: rest => if String.eqb k col then Some v else get rest col
  end.

(** The object literal [{ [k1]: v1, [k2]: v2 }]: a repeated key keeps its
    first position and takes the last value. *)
Definition object2 (k1 : string) (v1 : value) (k2 : string) (v2 : value) : Record :=
  if String.eqb k1 k2 then [(k1, v2)] else [(k1, v1); (k2, v2)].

(** [typeof v === "number" && !isNaN(v)], returning the number. *)
Definition asNumber (v : option value) : option float :=
  match v with
  | Some (VNum x) => if is_nan x then None else Some x
  | _ => None
  end.

(** [v == null]: [null] or [undefined]. *)
Definition isNullish (v : option value) : bool :=
  match v with
  | None | Some VNull => true
  | _ => false
  end.

(** [v == null || v === ""]. *)
Definition isNullOrEmpty (v : option value) : bool :=
  match v with
  | None | Some VNull => true
  | Some (VStr s) => String.eqb s ""
  | _ => false
  end.

(** ** The host runtime *)

Class Runtime : Type := {
  (** [String(x)] for a number [x] other than [NaN] and zero. *)
  num_to_string : float -> string;
  (** [Number(s)] for a string [s]. *)
  parseNumber : string -> float;
  (** [!isNaN(new Date(v).getTime())]. *)
  date_valid : value -> bool;
  (** [a.localeCompare(b)], by its sign. *)
  localeCompare : string -> string -> comparison;
  (** [x ** y]. *)
  pow : float -> float -> float
}.

(** ** Strings *)

Definition is_upper (c : ascii) : bool :=
  (65 <=? nat_of_ascii c)%nat && (nat_of_ascii c <=? 90)%nat.

Definition lower_char (c : ascii) : ascii :=
  if is_upper c then ascii_of_nat (nat_of_ascii c + 32) else c.

(** [s.toLowerCase()]. *)
Fixpoint toLowerCase (s : string) : string :=
  match s with
  | EmptyString => EmptyString
  | String c t => String (lower_char c) (toLowerCase t)
  end.

(** [s.includes(sub)]. *)
Fixpoint includes (s sub : string) : bool :=
  String.prefix sub s ||
  match s with
  | EmptyString => false
  | String _ t => includes t sub
  end.

(** The class [\s] on ASCII: tab, line feed, vertical tab, form feed,
    carriage return, space. *)
Definition is_space (c : ascii) : bool :=
  let n := nat_of_ascii c in
  ((9 <=? n)%nat && (n <=? 13)%nat) || (n =? 32)%nat.

Definition starts_with_space (s : string) : bool :=
  match s with
  | EmptyString => false
  | String c _ => is_space c
  end.

(** [s.split(/\s+/)]: the pieces between maximal runs of white space; a
    leading or trailing run leaves an empty piece. *)
Fixpoint split_ws (s : string) : list string :=
  match s with
  | EmptyString => [EmptyString]
  | String c t =>
      if is_space c then
        if starts_with_space t then split_ws t else EmptyString :: split_ws t
      else
        match split_ws t with
        | w :: ws => String c w :: ws
        | [] => [String c EmptyString]
        end
  end.

(** [s.trim()] on ASCII white space. *)
Fixpoint trimStart (s : string) : string :=
  match s with
  | EmptyString => EmptyString
  | String c t => if is_space c then trimStart t else s
  end.

Fixpoint trimEnd (s : string) : string :=
  match s with
  | EmptyString => EmptyString
  | String c t =>
      match trimEnd t with
      | EmptyString => if is_space c then EmptyString else String c EmptyString
      | t' => String c t'
      end
  end.

Definition trim (s : string) : string := trimEnd (trimStart s).

(** [String(x)] for a number: ["NaN"], ["0"] for both zeros, else what
    the host prints. *)
Definition numberString `{Runtime} (x : float) : string :=
  if is_nan x then "NaN" else if x =? 0 then "0" else num_to_string x.

(** [String(v)] for a cell value that is not [undefined]. *)
Definition stringOfValue `{Runtime} (v : value) : string :=
  match v with
  | VNull => "null"
  | VNum x => numberString x
  | VStr s => s
  end.

(** [String(v)]. *)
Definition toStr `{Runtime} (v : option value) : string :=
  match v with
  | None => "undefined"
  | Some v => stringOfValue v
  end.

(** [String(v ?? dflt)]. *)
Definition toStrOr `{Runtime} (dflt : string) (v : option value) : string :=
  if isNullish v then dflt else toStr v.

(** ** Sorting *)

Section Sort.
Context {A : Type}.
(** [gt a b] holds when [comparefn(a, b) > 0]: [a] goes after [b]. *)
Variable gt : A -> A -> bool.

Fixpoint insert_by (x : A) (l : list A) : list A :=
  match l with
  | [] => [x]
  | h :: t => if gt x h then h :: insert_by x t else x :: h :: t
  end.

(** [l.sort(comparefn)]. *)
Definition sort_by (l : list A) : list A := fold_right insert_by [] l.

End Sort.

(** ** Numbers *)

(** The number of an integer from 0 to 2^63 - 1, rounded to nearest. *)
Definition ofZ (z : Z) : float := PrimFloat.of_uint63 (Uint63.of_Z z).

(** The number of a length or a count. *)
Definition ofNat (n : nat) : float := ofZ (Z.of_nat n).

(** [Math.round(x)]: [NaN], the infinities, the zeros and the integers are
    left as they are; a number [m * 2^e] with [e < 0] goes to the integer
    [floor (m * 2^e + 1/2)], which is [q] or [q + 1] for the quotient [q]
    of [m] by [2^-e], with the sign of [x], also when it is zero. *)
Definition Math_round (x : float) : float :=
  match Prim2SF x with
  | S754_finite s m e =>
      if (0 <=? e)%Z then x else
      let scale := Z.pow 2 (- e) in
      let q := Z.div (Zpos m) scale in
      let r := Z.modulo (Zpos m) scale in
      let up := if s then (scale <? 2 * r)%Z else (scale <=? 2 * r)%Z in
      let n := ofZ (if up then q + 1 else q)%Z in
      if s then - n else n
  | _ => x
  end.

(** [Math.round(x * 100) / 100]. *)
Definition round2 (x : float) : float := Math_round (x * 100) / 100.

(** [Math.round(x * 1000) / 1000]. *)
Definition round3 (x : float) : float := Math_round (x * 1000) / 1000.

(** [values.reduce((s, v) => s + v, 0)]. *)
Definition sum_list (values : list float) : float := fold_left PrimFloat.add values 0.

(** ** Column statistics *)

(** [.filter((v) => typeof v === "number" && !isNaN(v))]. *)
Fixpoint keepNumbers (vs : list (option value)) : list float :=
  match vs with
  | [] => []
  | v :: rest =>
      match asNumber v with
      | Some r => r :: keepNumbers rest
      | None => keepNumbers rest
      end
  end.

(** [data.map((row) => row[column])]. *)
Definition columnValues (data : list Record) (column : string) : list (option value) :=
  map (fun row => get row column) data.

(** The numeric fields of [ColumnStats]. *)
Record NumericStats : Type := {
  ns_min : float;
  ns_max : float;
  ns_mean : float;
  ns_median : float;
  ns_sum : float;
  ns_stdDev : float
}.

(** The median of [computeNumericStats], before rounding. *)
Definition medianOf (values sorted : list float) : float :=
  if Nat.eqb (length values mod 2) 0
  then (nth (length values / 2 - 1) sorted 0 + nth (length values / 2) sorted 0) / 2
  else nth (length values / 2) sorted 0.

(** The variance of [computeNumericStats]. *)
Definition varianceOf `{Runtime} (values : list float) (mean : float) : float :=
  fold_left (fun s v => s + pow (v - mean) 2) values 0 / ofNat (length values).

(** [computeNumericStats(data, column)]; [None] is the empty object [{}].
    The comparator of the sort is [(a, b) => a - b]. *)
Definition computeNumericStats `{Runtime} (data : list Record) (column : string)
  : option NumericStats :=
  let values := keepNumbers (columnValues data column) in
  if Nat.eqb (length values) 0 then None else
  let sorted := sort_by (fun a b => 0 <? a - b) values in
  let sum := sum_list values in
  let mean := sum / ofNat (length values) in
  let median := medianOf values sorted in
  let variance := varianceOf values mean in
  let stdDev := sqrt variance in
  Some {| ns_min := nth 0 sorted 0;
          ns_max := nth (length sorted - 1) sorted 0;
          ns_mean := round2 mean;
          ns_median := round2 median;
          ns_sum := round2 sum;
          ns_stdDev := round2 stdDev |}.

(** [counts.set(val, (counts.get(val) ?? 0) + 1)] on an insertion-ordered
    [Map<string, number>]. *)
Fixpoint bump (val : string) (counts : list (string * nat)) : list (string * nat) :=
  match counts with
  | [] => [(val, 1%nat)]
  | (k, c) :: rest =>
      if String.eqb k val then (k, (c + 1)%nat) :: rest else (k, c) :: bump val rest
  end.

(** The [counts] map of [computeCategoricalStats] after its loop. *)
Definition countValues `{Runtime} (data : list Record) (column : string) : list (string * nat) :=
  fold_left (fun counts row => bump (toStrOr "null" (get row column)) counts) data [].

(** [computeCategoricalStats(data, column)]; the comparator is
    [(a, b) => b[1] - a[1]], positive when [a] has the smaller count. *)
Definition computeCategoricalStats `{Runtime} (data : list Record) (column : string)
  : list (string * nat) :=
  firstn 10 (sort_by (fun a b => (snd a <? snd b)%nat) (countValues data column)).

(** ** Group-by aggregation *)

Inductive Operation : Type := OpSum | OpMean | OpCount.

Definition Operation_eqb (a b : Operation) : bool :=
  match a, b with
  | OpSum, OpSum | OpMean, OpMean | OpCount, OpCount => true
  | _, _ => false
  end.

(** [groups.has(key)]. *)
Fixpoint hasKey {V : Type} (key : string) (groups : list (string * V)) : bool :=
  match groups with
  | [] => false
  | (k, _) :: rest => String.eqb k key || hasKey key rest
  end.

(** [groups.get(key)!.push(val)]. *)
Fixpoint pushTo (key : string) (val : float) (groups : list (string * list float))
  : list (string * list float) :=
  match groups with
  | [] => []
  | (k, vs) :: rest =>
      if String.eqb k key then (k, vs ++ [val]) :: rest else (k, vs) :: pushTo key val rest
  end.

(** One turn of the loop of [aggregateByGroup]. *)
Definition addRow `{Runtime} (groupCol valueCol : string)
  (groups : list (string * list float)) (row : Record) : list (string * list float) :=
  let key := toStrOr "Unknown" (get row groupCol) in
  let groups := if hasKey key groups then groups else groups ++ [(key, [])] in
  match asNumber (get row valueCol) with
  | Some val => pushTo key val groups
  | None => groups
  end.

(** The [groups] map of [aggregateByGroup] after its loop. *)
Definition groupRows `{Runtime} (data : list Record) (groupCol valueCol : string)
  : list (string * list float) :=
  fold_left (addRow groupCol valueCol) data [].

(** The reduction of one group, before rounding. *)
Definition reduceGroup (operation : Operation) (values : list float) : float :=
  match operation with
  | OpSum => sum_list values
  | OpMean =>
      if (0 <? length values)%nat then sum_list values / ofNat (length values) else 0
  | OpCount => ofNat (length values)
  end.

(** [row[col] as number], for a row that holds a number there, which may
    be [NaN]; the rows of the aggregator all do. *)
Definition numField (row : Record) (col : string) : float :=
  match get row col with
  | Some (VNum x) => x
  | _ => nan
  end.

(** The output row [{ [groupCol]: name, [valueCol]: Math.round(result * 100) / 100 }]. *)
Definition groupRow (groupCol valueCol : string) (operation : Operation)
  (g : string * list float) : Record :=
  object2 groupCol (VStr (fst g)) valueCol (VNum (round2 (reduceGroup operation (snd g)))).

(** [aggregateByGroup(data, groupCol, valueCol, operation)]; the comparator
    of the sort is [(a, b) => b[valueCol] - a[valueCol]]. *)
Definition aggregateByGroup `{Runtime} (data : list Record) (groupCol valueCol : string)
  (operation : Operation) : list Record :=
  sort_by (fun a b => 0 <? numField b valueCol - numField a valueCol)
    (map (groupRow groupCol valueCol operation) (groupRows data groupCol valueCol)).

(** ** Pearson correlation *)

(** One turn of the loop of [pearsonCorrelation]; the state is
    [(numerator, denomX, denomY)].  An index out of range reads
    [undefined], which is [NaN] in the arithmetic; the callers pass arrays
    of one length, so [y[i]] is always read in range. *)
Definition pearsonStep (x y : list float) (meanX meanY : float)
  (st : float * float * float) (i : nat) : float * float * float :=
  let '(numerator, denomX, denomY) := st in
  let dx := nth i x nan - meanX in
  let dy := nth i y nan - meanY in
  (numerator + dx * dy, denomX + dx * dx, denomY + dy * dy).

(** [pearsonCorrelation(x, y)]. *)
Definition pearsonCorrelation (x y : list float) : float :=
  let n := length x in
  if (n <? 3)%nat then 0 else
  let meanX := sum_list x / ofNat n in
  let meanY := sum_list y / ofNat n in
  let '(numerator, denomX, denomY) :=
    fold_left (pearsonStep x y meanX meanY) (seq 0 n) (0, 0, 0) in
  let denom := sqrt (denomX * denomY) in
  if denom =? 0 then 0 else round3 (numerator / denom).

(** ** The profile *)

Inductive ColumnType : Type := TString | TNumber | TDate.

Definition ColumnType_eqb (a b : ColumnType) : bool :=
  match a, b with
  | TString, TString | TNumber, TNumber | TDate, TDate => true
  | _, _ => false
  end.

(** [Record<string, "string" | "number" | "date">]. *)
Definition ColumnTypes : Type := list (string * ColumnType).

(** [columnTypes[c]]. *)
Fixpoint typeOf (columnTypes : ColumnTypes) (c : string) : option ColumnType :=
  match columnTypes with
  | [] => None
  | (k, t) :: rest => if String.eqb k c then Some t else typeOf rest c
  end.

(** [columnTypes[c] === t]. *)
Definition hasType (columnTypes : ColumnTypes) (t : ColumnType) (c : string) : bool :=
  match typeOf columnTypes c with
  | Some t' => ColumnType_eqb t' t
  | None => false
  end.

Record ColumnStats : Type := {
  cs_column : string;
  cs_type : ColumnType;
  cs_uniqueCount : nat;
  cs_nullCount : nat;
  cs_numeric : option NumericStats;
  cs_topValues : option (list (string * nat));
  cs_dateRange : option (string * string)
}.

Record AggregationResult : Type := {
  description : string;
  groupBy : string;
  metric : string;
  operation : Operation;
  data : list Record
}.

Record CorrelationResult : Type := {
  xColumn : string;
  yColumn : string;
  correlation : float;
  scatterData : list (float * float)
}.

Record DataSummary : Type := {
  rowCount : nat;
  columnCount : nat;
  columns : list string;
  columnTypes : ColumnTypes;
  columnStats : list ColumnStats;
  categoricalColumns : list string;
  numericColumns : list string;
  dateColumns : list string;
  precomputedAggregations : list AggregationResult;
  correlations : list CorrelationResult
}.

(** The equality of the members of a [Set] (SameValueZero): [NaN] is equal
    to itself and the two zeros are equal. *)
Definition sameValueZero (a b : option value) : bool :=
  match a, b with
  | None, None => true
  | Some VNull, Some VNull => true
  | Some (VNum x), Some (VNum y) => (x =? y) || (is_nan x && is_nan y)
  | Some (VStr s), Some (VStr t) => String.eqb s t
  | _, _ => false
  end.

(** The members of [new Set(vs)]: one of each class of equal values. *)
Fixpoint setOf (vs : list (option value)) : list (option value) :=
  match vs with
  | [] => []
  | v :: rest => if existsb (sameValueZero v) rest then setOf rest else v :: setOf rest
  end.

(** [new Set(vs).size]. *)
Definition distinctCount (vs : list (option value)) : nat :=
  length (setOf vs).

(** [.filter((v) => v != null)]. *)
Definition keepNonNull (vs : list (option value)) : list (option value) :=
  filter (fun v => negb (isNullish v)) vs.

(** The [dateRange] of a date column: the first and last of the non-null
    values under the default [sort()], which compares string forms by code
    unit. *)
Definition dateRangeOf `{Runtime} (data : list Record) (col : string)
  : option (string * string) :=
  let dates :=
    sort_by (fun a b => String.ltb (toStr b) (toStr a))
      (keepNonNull (columnValues data col)) in
  if (0 <? length dates)%nat
  then Some (toStr (nth 0 dates None), toStr (nth (length dates - 1) dates None))
  else None.

(** The statistics of one column. *)
Definition columnStatsOf `{Runtime} (data : list Record) (columnTypes : ColumnTypes)
  (col : string) : ColumnStats :=
  let type := match typeOf columnTypes col with Some t => t | None => TString end in
  let uniqueCount := distinctCount (columnValues data col) in
  let nullCount := length (filter isNullOrEmpty (columnValues data col)) in
  match type with
  | TNumber =>
      {| cs_column := col; cs_type := type;
         cs_uniqueCount := uniqueCount; cs_nullCount := nullCount;
         cs_numeric := computeNumericStats data col;
         cs_topValues := None; cs_dateRange := None |}
  | TString =>
      {| cs_column := col; cs_type := type;
         cs_uniqueCount := uniqueCount; cs_nullCount := nullCount;
         cs_numeric := None;
         cs_topValues := Some (computeCategoricalStats data col);
         cs_dateRange := None |}
  | TDate =>
      {| cs_column := col; cs_type := type;
         cs_uniqueCount := uniqueCount; cs_nullCount := nullCount;
         cs_numeric := None; cs_topValues := None;
         cs_dateRange := dateRangeOf data col |}
  end.

(** The two aggregations pushed for a categorical and a numeric column. *)
Definition sumAndMean `{Runtime} (data : list Record) (catCol numCol : string)
  : list AggregationResult :=
  [ {| description := ("Total " ++ numCol ++ " by " ++ catCol)%string;
       groupBy := catCol; metric := numCol; operation := OpSum;
       data := aggregateByGroup data catCol numCol OpSum |};
    {| description := ("Average " ++ numCol ++ " by " ++ catCol)%string;
       groupBy := catCol; metric := numCol; operation := OpMean;
       data := aggregateByGroup data catCol numCol OpMean |} ].

(** The loop over categorical columns: the first 4 of them, those of more
    than 20 distinct values skipped, against the first 6 numeric columns. *)
Definition categoricalAggregations `{Runtime} (data : list Record)
  (categoricalColumns numericColumns : list string) : list AggregationResult :=
  flat_map
    (fun catCol =>
       if (20 <? distinctCount (columnValues data catCol))%nat then []
       else flat_map (sumAndMean data catCol) (firstn 6 numericColumns))
    (firstn 4 categoricalColumns).

(** The comparator of the time-series sort:
    [String(a[dateCol]).localeCompare(String(b[dateCol]))] is positive. *)
Definition dateAfter `{Runtime} (dateCol : string) (a b : Record) : bool :=
  match localeCompare (toStr (get a dateCol)) (toStr (get b dateCol)) with
  | Gt => true
  | _ => false
  end.

(** The aggregation pushed for a date and a numeric column. *)
Definition timeSeries `{Runtime} (data : list Record) (dateCol numCol : string)
  : AggregationResult :=
  {| description := (numCol ++ " over time (by " ++ dateCol ++ ")")%string;
     groupBy := dateCol; metric := numCol; operation := OpSum;
     data := sort_by (dateAfter dateCol) (aggregateByGroup data dateCol numCol OpSum) |}.

(** The loop over date columns. *)
Definition dateAggregations `{Runtime} (data : list Record)
  (dateColumns numericColumns : list string) : list AggregationResult :=
  flat_map
    (fun dateCol => map (timeSeries data dateCol) (firstn 4 numericColumns))
    (firstn 2 dateColumns).

(** The pairs [(l[i], l[j])], [i < j], in the order of the two nested
    loops. *)
Fixpoint pairsOf (l : list string) : list (string * string) :=
  match l with
  | [] => []
  | x :: rest => map (pair x) rest ++ pairsOf rest
  end.

(** The rows where both columns hold a valid number, as [{x, y}]. *)
Fixpoint pairedSamples (data : list Record) (xCol yCol : string) : list (float * float) :=
  match data with
  | [] => []
  | row :: rest =>
      match asNumber (get row xCol), asNumber (get row yCol) with
      | Some x, Some y => (x, y) :: pairedSamples rest xCol yCol
      | _, _ => pairedSamples rest xCol yCol
      end
  end.

(** The body of the correlation loops for one pair of columns. *)
Definition correlate (data : list Record) (p : string * string) : list CorrelationResult :=
  let paired := pairedSamples data (fst p) (snd p) in
  if (3 <=? length paired)%nat then
    [ {| xColumn := fst p; yColumn := snd p;
         correlation := pearsonCorrelation (map fst paired) (map snd paired);
         scatterData := firstn 100 paired |} ]
  else [].

(** The correlation loops: [i < j], both below 5 and below the number of
    numeric columns. *)
Definition correlationsOf (data : list Record) (numericColumns : list string)
  : list CorrelationResult :=
  flat_map (correlate data) (pairsOf (firstn 5 numericColumns)).

(** [analyzeDataset(data, columns, columnTypes)]. *)
Definition analyzeDataset `{Runtime} (data : list Record) (columns : list string)
  (columnTypes : ColumnTypes) : DataSummary :=
  let numericColumns := filter (hasType columnTypes TNumber) columns in
  let categoricalColumns := filter (hasType columnTypes TString) columns in
  let dateColumns := filter (hasType columnTypes TDate) columns in
  {| rowCount := length data;
     columnCount := length columns;
     columns := columns;
     columnTypes := columnTypes;
     columnStats := map (columnStatsOf data columnTypes) columns;
     categoricalColumns := categoricalColumns;
     numericColumns := numericColumns;
     dateColumns := dateColumns;
     precomputedAggregations :=
       categoricalAggregations data categoricalColumns numericColumns
       ++ dateAggregations data dateColumns numericColumns;
     correlations := correlationsOf data numericColumns |}.

(** ** Type inference *)

(** [.filter((v) => v != null && v !== "")], the survivors unwrapped. *)
Fixpoint keepPresent (vs : list (option value)) : list value :=
  match vs with
  | [] => []
  | v :: rest =>
      match v with
      | Some x => if isNullOrEmpty v then keepPresent rest else x :: keepPresent rest
      | None => keepPresent rest
      end
  end.

(** The samples of a column: the first 10 rows' values, null and empty
    ones dropped. *)
Definition samplesOf (data : list Record) (col : string) : list value :=
  keepPresent (columnValues (firstn 10 data) col).

(** The test of [allNumbers] on one sample: a number, or a string [v] with
    [!isNaN(Number(v)) && String(Number(v)) === String(v).trim()]. *)
Definition looksNumeric `{Runtime} (v : value) : bool :=
  match v with
  | VNum _ => true
  | VStr s =>
      negb (is_nan (parseNumber s)) && String.eqb (numberString (parseNumber s)) (trim s)
  | VNull => false
  end.

(** The type given to one column by [detectColumnTypes]. *)
Definition inferType `{Runtime} (data : list Record) (col : string) : ColumnType :=
  let samples := samplesOf data col in
  if Nat.eqb (length samples) 0 then TString
  else if forallb looksNumeric samples then TNumber
  else if forallb date_valid samples then TDate
  else TString.

(** [detectColumnTypes(data)]; the columns are [Object.keys(data[0])]. *)
Definition detectColumnTypes `{Runtime} (data : list Record) : ColumnTypes :=
  match data with
  | [] => []
  | first :: _ => map (fun col => (col, inferType data col)) (map fst first)
  end.

(** The columns the ingester passes with a dataset ([addDataset]):
    [rawData.length > 0 ? Object.keys(rawData[0]) : []]. *)
Definition columnsOf (rows : list Record) : list string :=
  match rows with
  | [] => []
  | first :: _ => map fst first
  end.

(** ** Relevance matching *)

(** The body of the loop over the query words. *)
Definition scoreWord (desc groupLower metricLower : string) (score : nat) (word : string)
  : nat :=
  if (String.length word <? 3)%nat then score else
  let score := if includes desc word then (score + 1)%nat else score in
  let score := if includes groupLower word then (score + 2)%nat else score in
  let score := if includes metricLower word then (score + 2)%nat else score in
  score.

(** The score of one aggregation against the lower-cased query [q]. *)
Definition scoreOf (q : string) (agg : AggregationResult) : nat :=
  let score := 0%nat in
  let desc := toLowerCase (description agg) in
  let groupLower := toLowerCase (groupBy agg) in
  let metricLower := toLowerCase (metric agg) in
  let score := if includes q groupLower then (score + 3)%nat else score in
  let score := if includes q metricLower then (score + 3)%nat else score in
  let words := split_ws q in
  let score := fold_left (scoreWord desc groupLower metricLower) words score in
  let score :=
    if (includes q "total" || includes q "sum") && Operation_eqb (operation agg) OpSum
    then (score + 2)%nat else score in
  let score :=
    if (includes q "average" || includes q "avg" || includes q "mean")
       && Operation_eqb (operation agg) OpMean
    then (score + 2)%nat else score in
  score.

(** One turn of the loop of [findRelevantAggregation]; the state is
    [(bestScore, bestAgg)]. *)
Definition keepBest (q : string) (best : nat * option AggregationResult)
  (agg : AggregationResult) : nat * option AggregationResult :=
  let score := scoreOf q agg in
  if (fst best <? score)%nat then (score, Some agg) else best.

(** [findRelevantAggregation(summary, query)]. *)
Definition findRelevantAggregation (summary : DataSummary) (query : string)
  : option AggregationResult :=
  let q := toLowerCase query in
  let best := fold_left (keepBest q) (precomputedAggregations summary) (0%nat, None) in
  if (3 <=? fst best)%nat then snd best else None.

(** ** The dataset store

    The store of uploaded datasets ([DataContext.tsx]): a module-level
    counter [nextId], the list of datasets and the id of the active one.
    The clock read by [new Date()] is an argument of [addDataset]. *)

(** [Number(value)] for a string [value]. *)
Definition toNumber `{Runtime} (s : string) : value := VNum (parseNumber s).

(** One entry of a row under [coerceData]:
    [types[key] === "number" && typeof value === "string"] turns the value
    into [Number(value)]. *)
Definition coerceEntry `{Runtime} (types : ColumnTypes) (entry : string * value)
  : string * value :=
  let '(key, v) := entry in
  match v with
  | VStr s => if hasType types TNumber key then (key, toNumber s) else (key, v)
  | _ => (key, v)
  end.

(** [coerceData(data, types)]. *)
Definition coerceData `{Runtime} (data : list Record) (types : ColumnTypes) : list Record :=
  map (fun row => map (coerceEntry types) row) data.

Record Dataset : Type := {
  ds_id : string;
  ds_name : string;
  ds_data : list Record;
  ds_columns : list string;
  ds_columnTypes : ColumnTypes;
  ds_rowCount : nat;
  ds_uploadedAt : nat
}.

Record Store : Type := {
  nextId : nat;
  datasets : list Dataset;
  activeDatasetId : option string
}.

(** The state of a freshly loaded module and a freshly mounted provider:
    [let nextId = 1], [useState([])], [useState(null)]. *)
Definition initialStore : Store :=
  {| nextId := 1; datasets := []; activeDatasetId := None |}.

(** The decimal form of a counter. *)
Definition decimal (n : nat) : string := NilEmpty.string_of_uint (Nat.to_uint n).

(** [addDataset(name, rawData)]: the new id and the next store. *)
Definition addDataset `{Runtime} (name : string) (rawData : list Record) (now : nat)
  (store : Store) : string * Store :=
  let id := ("dataset-" ++ decimal (nextId store))%string in
  let columns := columnsOf rawData in
  let columnTypes := detectColumnTypes rawData in
  let data := coerceData rawData columnTypes in
  let dataset :=
    {| ds_id := id;
       ds_name := name;
       ds_data := data;
       ds_columns := columns;
       ds_columnTypes := columnTypes;
       ds_rowCount := length data;
       ds_uploadedAt := now |} in
  (id, {| nextId := S (nextId store);
          datasets := datasets store ++ [dataset];
          activeDatasetId := Some id |}).

(** [removeDataset(id)]. *)
Definition removeDataset (id : string) (store : Store) : Store :=
  {| nextId := nextId store;
     datasets := filter (fun d => negb (String.eqb (ds_id d) id)) (datasets store);
     activeDatasetId :=
       match activeDatasetId store with
       | Some prev => if String.eqb prev id then None else Some prev
       | None => None
       end |}.

(** [setActiveDataset(id)]. *)
Definition setActiveDataset (id : option string) (store : Store) : Store :=
  {| nextId := nextId store;
     datasets := datasets store;
     activeDatasetId := id |}.

(** [clearAll()]. *)
Definition clearAll (store : Store) : Store :=
  {| nextId := nextId store; datasets := []; activeDatasetId := None |}.

(** [datasets.find((d) => d.id === activeDatasetId) ?? null]. *)
Definition activeDataset (store : Store) : option Dataset :=
  match activeDatasetId store with
  | Some id => find (fun d => String.eqb (ds_id d) id) (datasets store)
  | None => None
  end.

(** ** Upload

    The part of [processFile] ([DataUpload.tsx]) that decides on the name of
    the file alone: the name of the dataset and the parser. *)

Fixpoint noDot (s : string) : bool :=
  match s with
  | EmptyString => true
  | String c t => negb (Ascii.eqb c ".") && noDot t
  end.

(** [name.replace(/\.[^.]+$/, "")]: the first position where a dot is
    followed by one or more characters other than a dot up to the end. *)
Fixpoint stripExtension (name : string) : string :=
  match name with
  | EmptyString => EmptyString
  | String c t =>
      if Ascii.eqb c "." && negb (String.eqb t "") && noDot t then EmptyString
      else String c (stripExtension t)
  end.

(** [s.endsWith(suffix)]. *)
Definition endsWith (s suffix : string) : bool :=
  let n := String.length s in
  let m := String.length suffix in
  (m <=? n)%nat && String.eqb (substring (n - m) m s) suffix.

Inductive FileParser : Type :=
| JsonParser
| DelimitedParser
| UnsupportedFile (message : string).

(** The branch taken by [processFile]. *)
Definition parserOf (name : string) : FileParser :=
  if endsWith name ".json" then JsonParser
  else if endsWith name ".csv" || endsWith name ".tsv" then DelimitedParser
  else UnsupportedFile "Unsupported file type. Please upload a .csv or .json file.".

(** ** Theme preference

    [ThemeContext.tsx].  The operating system's setting is [None] where
    there is no [window], else whether [(prefers-color-scheme: dark)]
    matches. *)

Inductive ThemePreference : Type := light | dark | system.

Definition ThemePreference_eqb (a b : ThemePreference) : bool :=
  match a, b with
  | light, light | dark, dark | system, system => true
  | _, _ => false
  end.

(** [getSystemTheme()]. *)
Definition getSystemTheme (os : option bool) : ThemePreference :=
  match os with
  | None => light
  | Some matches => if matches then dark else light
  end.

(** [resolveTheme(pref)]. *)
Definition resolveTheme (os : option bool) (pref : ThemePreference) : ThemePreference :=
  if ThemePreference_eqb pref system then getSystemTheme os else pref.

(** The string of a preference, as stored. *)
Definition preferenceName (pref : ThemePreference) : string :=
  match pref with
  | light => "light"
  | dark => "dark"
  | system => "system"
  end.

(** The initial preference: the stored one when it is one of the three
    names, else the default.  [stored] is [None] when nothing is stored or
    the storage cannot be read. *)
Definition initialPreference (stored : option string) (defaultPreference : ThemePreference)
  : ThemePreference :=
  match stored with
  | Some s =>
      if String.eqb s "light" then light
      else if String.eqb s "dark" then dark
      else if String.eqb s "system" then system
      else defaultPreference
  | None => defaultPreference
  end.

(** The two states of the provider and the value kept in the storage. *)
Record ThemeState : Type := {
  preference : ThemePreference;
  resolvedTheme : ThemePreference;
  stored : option string
}.

(** The state after the provider mounts. *)
Definition initialTheme (os : option bool) (stored : option string)
  (defaultPreference : ThemePreference) : ThemeState :=
  let preference := initialPreference stored defaultPreference in
  {| preference := preference;
     resolvedTheme := resolveTheme os preference;
     stored := stored |}.

(** [setPreference(pref)]; [canStore] tells whether the write to the
    storage succeeds. *)
Definition setPreference (os : option bool) (canStore : bool) (pref : ThemePreference)
  (st : ThemeState) : ThemeState :=
  {| preference := pref;
     resolvedTheme := resolveTheme os pref;
     stored := if canStore then Some (preferenceName pref) else stored st |}.

(** [order.indexOf(x)]. *)
Fixpoint indexOf (order : list ThemePreference) (x : ThemePreference) : Z :=
  match order with
  | [] => (-1)%Z
  | y :: rest =>
      if ThemePreference_eqb y x then 0%Z
      else
        let i := indexOf rest x in
        if (i <? 0)%Z then (-1)%Z else (i + 1)%Z
  end.

(** [cycleTheme()]. *)
Definition cycleTheme (os : option bool) (canStore : bool) (st : ThemeState) : ThemeState :=
  let order := [light; dark; system] in
  let idx := indexOf order (preference st) in
  setPreference os canStore
    (nth (Z.to_nat (Z.rem (idx + 1) (Z.of_nat (length order)))) order light) st.

(** The handler of the media query's change event, registered while the
    preference is [system]. *)
Definition systemThemeChanged (matches : bool) (st : ThemeState) : ThemeState :=
  if ThemePreference_eqb (preference st) system then
    {| preference := preference st;
       resolvedTheme := if matches then dark else light;
       stored := stored st |}
  else st.

(** ** The text of a profile *)

(** [parts.join(sep)]. *)
Definition join (sep : string) (parts : list string) : string := String.concat sep parts.


(** The text of an optional number in a template: ["undefined"] when the
    field is absent. *)
Definition numberText `{Runtime} (x : option float) : string :=
  match x with
  | Some r => numberString r
  | None => "undefined"
  end.

(** The line of one column, if it has one. *)
Definition statLines `{Runtime} (stat : ColumnStats) : list string :=
  let field := fun (f : NumericStats -> float) => numberText (option_map f (cs_numeric stat)) in
  match cs_type stat with
  | TNumber =>
      [("- **" ++ cs_column stat ++ "** (numeric): min=" ++ field ns_min
        ++ ", max=" ++ field ns_max ++ ", mean=" ++ field ns_mean
        ++ ", median=" ++ field ns_median ++ ", sum=" ++ field ns_sum
        ++ ", stdDev=" ++ field ns_stdDev)%string]
  | TString =>
      match cs_topValues stat with
      | Some topValues =>
          let top3 :=
            join ", " (map (fun t => (fst t ++ "(" ++ decimal (snd t) ++ ")")%string)
                           (firstn 5 topValues)) in
          [("- **" ++ cs_column stat ++ "** (categorical, "
            ++ decimal (cs_uniqueCount stat) ++ " unique): top values = " ++ top3)%string]
      | None => []
      end
  | TDate =>
      match cs_dateRange stat with
      | Some (earliest, latest) =>
          [("- **" ++ cs_column stat ++ "** (date): range " ++ earliest ++ " to "
            ++ latest)%string]
      | None => []
      end
  end.

(** The strength word of a coefficient. *)
Definition strengthOf (c : float) : string :=
  if 0.7 <? abs c then "strong"
  else if 0.4 <? abs c then "moderate"
  else "weak".

(** The line of one correlation. *)
Definition correlationLine `{Runtime} (c : CorrelationResult) : string :=
  ("- " ++ xColumn c ++ " vs " ++ yColumn c ++ ": r=" ++ numberString (correlation c)
   ++ " (" ++ strengthOf (correlation c) ++ " "
   ++ (if (0 <? correlation c)%float then "positive" else "negative") ++ ")")%string.


Section SummaryText.
Context `{Runtime}.
(** [JSON.stringify(row)] for a row. *)
Variable stringify : Record -> string.





End SummaryText.

(** ** Dashboard orchestration

    The keyword orchestration of [useTamboOrchestration.ts] and the
    component registry it reads ([componentRegistry.ts]). *)

(** The datasets imported from the mock data module. *)
Inductive MockData : Type :=
| salesData
| regionSalesData
| marketShareData
| userGrowthData
| revenueVsCustomersData
| topCustomersData.

(** The values of the props written by [analyzeRequest]. *)
Inductive PropValue : Type :=
| PString (s : string)
| PBool (b : bool)
| PStrings (l : list string)
| PData (d : MockData).

Record ComponentInstruction : Type := {
  name : string;
  props : list (string * PropValue)
}.

Inductive Component : Type :=
| KPICard
| LineChart
| BarChart
| PieChart
| DataTable
| ScatterPlot
| StatCard
| TextBlock.

(** The kinds of field of the registry's schemas. *)
Inductive FieldKind : Type :=
| KString
| KStringOrNumber
| KNumber
| KBoolean
| KArrayOfAny
| KArrayOfString.

Record SchemaField : Type := {
  fieldName : string;
  fieldKind : FieldKind;
  optional : bool
}.

Definition required (n : string) (k : FieldKind) : SchemaField :=
  {| fieldName := n; fieldKind := k; optional := false |}.

Definition optionally (n : string) (k : FieldKind) : SchemaField :=
  {| fieldName := n; fieldKind := k; optional := true |}.

Definition KPICardSchema : list SchemaField :=
  [required "title" KString; required "value" KStringOrNumber; optionally "trend" KString;
   optionally "icon" KString; optionally "color" KString; optionally "isPositive" KBoolean].

Definition LineChartSchema : list SchemaField :=
  [required "title" KString; optionally "data" KArrayOfAny; optionally "xAxis" KString;
   optionally "yAxis" KString; optionally "color" KString; optionally "height" KNumber].

Definition BarChartSchema : list SchemaField :=
  [required "title" KString; optionally "data" KArrayOfAny; optionally "xAxis" KString;
   optionally "yAxis" KString; optionally "color" KString; optionally "height" KNumber].

Definition PieChartSchema : list SchemaField :=
  [required "title" KString; optionally "data" KArrayOfAny; optionally "height" KNumber].

Definition DataTableSchema : list SchemaField :=
  [required "title" KString; optionally "columns" KArrayOfString;
   optionally "data" KArrayOfAny; optionally "sortable" KBoolean].

Definition ScatterPlotSchema : list SchemaField :=
  [required "title" KString; optionally "data" KArrayOfAny; optionally "xLabel" KString;
   optionally "yLabel" KString; optionally "color" KString; optionally "height" KNumber].

Definition StatCardSchema : list SchemaField :=
  [required "label" KString; required "value" KStringOrNumber; optionally "change" KString;
   optionally "isPositive" KBoolean].

Definition TextBlockSchema : list SchemaField :=
  [required "title" KString; required "content" KString].

(** An entry of the registry.  Its description, a text for the model that
    picks the components, plays no part in the orchestration and is left
    out. *)
Record RegistryEntry : Type := {
  entryComponent : Component;
  entrySchema : list SchemaField
}.

(** [componentRegistry]: its own keys, in order. *)
Definition componentRegistry : list (string * RegistryEntry) :=
  [("KPICard", {| entryComponent := KPICard; entrySchema := KPICardSchema |});
   ("LineChart", {| entryComponent := LineChart; entrySchema := LineChartSchema |});
   ("BarChart", {| entryComponent := BarChart; entrySchema := BarChartSchema |});
   ("PieChart", {| entryComponent := PieChart; entrySchema := PieChartSchema |});
   ("DataTable", {| entryComponent := DataTable; entrySchema := DataTableSchema |});
   ("ScatterPlot", {| entryComponent := ScatterPlot; entrySchema := ScatterPlotSchema |});
   ("StatCard", {| entryComponent := StatCard; entrySchema := StatCardSchema |});
   ("TextBlock", {| entryComponent := TextBlock; entrySchema := TextBlockSchema |})].

(** [componentRegistry[name]] on the registry's own keys. *)
Fixpoint lookup (registry : list (string * RegistryEntry)) (n : string)
  : option RegistryEntry :=
  match registry with
  | [] => None
  | (k, entry) :: rest => if String.eqb k n then Some entry else lookup rest n
  end.

(** [generateInsights(request)]. *)
Definition generateInsights (request : string) : string :=
  let insights :=
    ["Revenue increased by 12.5% this month, driven primarily by strong performance in the East region (+18% growth).";
     "Active users reached 9,200, up 18.3% from last month. The conversion rate improved to 3.8%, indicating better product-market fit.";
     "Top customer (Global Solutions) contributed $156,000 in revenue. Consider expanding services for this segment.";
     "Market share grew to 28%, positioning us as the second-largest player in our category."] in
  join " " insights.

(** [generateExplanation(request, componentCount)]. *)
Definition generateExplanation (request : string) (componentCount : nat) : string :=
  ("I've generated a dashboard with " ++ decimal componentCount
   ++ " components based on your request. The dashboard includes charts, metrics, and data tables to help you visualize your data.")%string.

(** [instructions.push(instruction)]. *)
Definition push (instructions : list ComponentInstruction) (instruction : ComponentInstruction)
  : list ComponentInstruction :=
  instructions ++ [instruction].

(** [analyzeRequest(userRequest)]. *)
Definition analyzeRequest (userRequest : string) : list ComponentInstruction :=
  let request := toLowerCase userRequest in
  let instructions := [] in
  let instructions :=
    if includes request "sales" || includes request "revenue" then
      let instructions :=
        push instructions
          {| name := "KPICard";
             props := [("title", PString "Total Revenue"); ("value", PString "$487,000");
                       ("trend", PString "+12.5%"); ("color", PString "blue");
                       ("isPositive", PBool true)] |} in
      let instructions :=
        push instructions
          {| name := "LineChart";
             props := [("title", PString "Monthly Revenue Trend"); ("data", PData salesData);
                       ("xAxis", PString "month"); ("yAxis", PString "revenue");
                       ("color", PString "#3b82f6")] |} in
      let instructions :=
        if includes request "region" then
          push instructions
            {| name := "BarChart";
               props := [("title", PString "Sales by Region"); ("data", PData regionSalesData);
                         ("xAxis", PString "region"); ("yAxis", PString "sales");
                         ("color", PString "#06b6d4")] |}
        else instructions in
      let instructions :=
        if includes request "customer" then
          push instructions
            {| name := "DataTable";
               props := [("title", PString "Top Customers");
                         ("columns", PStrings ["name"; "revenue"; "status"; "growth"]);
                         ("data", PData topCustomersData)] |}
        else instructions in
      instructions
    else instructions in
  let instructions :=
    if includes request "user" || includes request "growth" then
      let instructions :=
        push instructions
          {| name := "KPICard";
             props := [("title", PString "User Growth"); ("value", PString "9,200");
                       ("trend", PString "+18.3%"); ("color", PString "green");
                       ("isPositive", PBool true)] |} in
      let instructions :=
        push instructions
          {| name := "LineChart";
             props := [("title", PString "User Growth Over Time"); ("data", PData userGrowthData);
                       ("xAxis", PString "date"); ("yAxis", PString "users");
                       ("color", PString "#10b981")] |} in
      let instructions :=
        if includes request "conversion" then
          push instructions
            {| name := "KPICard";
               props := [("title", PString "Conversion Rate"); ("value", PString "3.8%");
                         ("trend", PString "+0.5%"); ("color", PString "purple");
                         ("isPositive", PBool true)] |}
        else instructions in
      instructions
    else instructions in
  let instructions :=
    if includes request "market" || includes request "share" then
      push instructions
        {| name := "PieChart";
           props := [("title", PString "Market Share"); ("data", PData marketShareData)] |}
    else instructions in
  let instructions :=
    if includes request "correlation" || includes request "analyze" then
      push instructions
        {| name := "ScatterPlot";
           props := [("title", PString "Revenue vs Customer Count");
                     ("data", PData revenueVsCustomersData);
                     ("xLabel", PString "Customers"); ("yLabel", PString "Revenue ($)");
                     ("color", PString "#f59e0b")] |}
    else instructions in
  let instructions :=
    if (0 <? length instructions)%nat then
      push instructions
        {| name := "TextBlock";
           props := [("title", PString "Key Insights");
                     ("content", PString (generateInsights request))] |}
    else instructions in
  instructions.

Record DashboardComponent : Type := {
  dc_id : string;
  dc_instruction : ComponentInstruction;
  dc_component : Component
}.

Record OrchestrationState : Type := {
  components : list DashboardComponent;
  loading : bool;
  error : option string;
  explanation : string
}.

(** The state of [useState] at mount, and after [clearDashboard()]. *)
Definition clearDashboard : OrchestrationState :=
  {| components := []; loading := false; error := None; explanation := "" |}.

(** The renderable components of the instructions: [instructions.map(...)]
    with the index, then [.filter((c) => c !== null)]. *)
Fixpoint toComponents (index : nat) (instructions : list ComponentInstruction)
  : list DashboardComponent :=
  match instructions with
  | [] => []
  | instruction :: rest =>
      match lookup componentRegistry (name instruction) with
      | None => toComponents (S index) rest
      | Some registry =>
          {| dc_id := (name instruction ++ "-" ++ decimal index)%string;
             dc_instruction := instruction;
             dc_component := entryComponent registry |}
          :: toComponents (S index) rest
      end
  end.

(** [orchestrateDashboard(userRequest)] updates the state twice, at its
    call and after a delay of 800 ms; each update reads the state of its
    own time.  The first update: loading, error reset. *)
Definition orchestrateStart (prev : OrchestrationState) : OrchestrationState :=
  {| components := components prev;
     loading := true;
     error := None;
     explanation := explanation prev |}.

(** The second update, after the delay. *)
Definition orchestrateFinish (userRequest : string) (prev : OrchestrationState)
  : OrchestrationState :=
  let instructions := analyzeRequest userRequest in
  if Nat.eqb (length instructions) 0 then
    {| components := [];
       loading := false;
       error := Some "Could not understand your request. Try asking for sales, users, market share, or correlation analysis.";
       explanation := "" |}
  else
    let components' := toComponents 0 instructions in
    let explanation' := generateExplanation userRequest (length components') in
    {| components := components';
       loading := false;
       error := error prev;
       explanation := explanation' |}.

(** * Specification-level notions

    The definitions below are not part of the engine: they word what the
    specification says, so that the properties can compare the engine with
    them, and they fix the concrete data of the scenarios. *)

(** ** Numbers *)

(** An integer that orders the numbers as their comparison does: the
    mantissa is below 2^53 and the exponent above -1075, so that the
    exponent decides before the mantissa. *)
Definition SFord (x : spec_float) : Z :=
  match x with
  | S754_zero _ | S754_nan => 0
  | S754_infinity s => cond_Zopp s (3000 * 9007199254740992)
  | S754_finite s m e => cond_Zopp s ((e + 1075) * 9007199254740992 + Zpos m)
  end%Z.

Definition ford (x : float) : Z := SFord (Prim2SF x).

(** A zero, a finite number or an infinity of the given sign. *)
Inductive signed (s : bool) : spec_float -> Prop :=
| signed_zero : signed s (S754_zero s)
| signed_finite (m : positive) (e : Z) : signed s (S754_finite s m e)
| signed_infinity : signed s (S754_infinity s).

(** Not below zero: [NaN], a zero, or a positive number. *)
Definition SFnonneg (x : spec_float) : bool :=
  match x with
  | S754_finite true _ _ | S754_infinity true => false
  | _ => true
  end.


(** ** Aggregator *)

(** The distinct elements of a list, each at its first occurrence. *)
Fixpoint distinctKeys (l : list string) : list string :=
  match l with
  | [] => []
  | k :: rest => k :: filter (fun k' => negb (String.eqb k' k)) (distinctKeys rest)
  end.

(** The group key of a row: the string form of its group value, ["Unknown"]
    for a null or missing one. *)
Definition groupKey `{Runtime} (groupCol : string) (row : Record) : string :=
  toStrOr "Unknown" (get row groupCol).

(** The valid numbers of the value column over the rows of one group. *)
Definition groupValues `{Runtime} (data : list Record) (groupCol valueCol k : string)
  : list float :=
  keepNumbers
    (columnValues (filter (fun row => String.eqb (groupKey groupCol row) k) data) valueCol).

(** Sum, mean and count in the specification's words, the total being
    added from the left. *)
Definition reduction (operation : Operation) (values : list float) : float :=
  match operation with
  | OpSum => sum_list values
  | OpMean =>
      match values with
      | [] => 0
      | _ => sum_list values / ofNat (length values)
      end
  | OpCount => ofNat (length values)
  end.

(** The output row expected for the group of key [k]. *)
Definition expectedRow `{Runtime} (data : list Record) (groupCol valueCol : string)
  (operation : Operation) (k : string) : Record :=
  object2 groupCol (VStr k) valueCol
    (VNum (round2 (reduction operation (groupValues data groupCol valueCol k)))).

(** The rows of end-to-end scenario A. *)
Definition scenarioA : list Record :=
  [ [("region", VStr "East"); ("revenue", VNum 100)];
    [("region", VStr "East"); ("revenue", VNum 200)];
    [("region", VStr "West"); ("revenue", VNum 50)] ].



(** ** Correlation *)

(** The mean of a list. *)
Definition mean (l : list float) : float := sum_list l / ofNat (length l).

(** The sum of the products of the paired deviations from the means, added
    from the left. *)
Definition sumDevProd (x y : list float) : float :=
  fold_left (fun s p => s + (fst p - mean x) * (snd p - mean y)) (combine x y) 0.

(** The denominator [sqrt(sum(dx^2) * sum(dy^2))]. *)
Definition pearsonDenominator (x y : list float) : float :=
  sqrt (sumDevProd x x * sumDevProd y y).

(** [r = sum(dx * dy) / sqrt(sum(dx^2) * sum(dy^2))]. *)
Definition pearsonFormula (x y : list float) : float :=
  sumDevProd x y / pearsonDenominator x y.

(** The row holds a valid number in the column. *)
Definition hasNumber (col : string) (row : Record) : bool :=
  match asNumber (get row col) with
  | Some _ => true
  | None => false
  end.

(** ** Numeric and categorical statistics *)

(** All the values of the list are one value. *)
Definition allSame (values : list float) : Prop :=
  forall a b, In a values -> In b values -> a = b.

(** The key under which a row is counted: the string form of its value,
    ["null"] for a null or missing one. *)
Definition countKey `{Runtime} (col : string) (row : Record) : string :=
  toStrOr "null" (get row col).

(** The number of occurrences of a key in a list. *)
Definition countOf (k : string) (l : list string) : nat :=
  length (filter (String.eqb k) l).

(** The column of end-to-end scenario B. *)
Definition scenarioB : list Record :=
  [ [("x", VNum 1)]; [("x", VNum 2)]; [("x", VNum 3)]; [("x", VNum 4)]; [("x", VNum 5)] ].

(** Three prices whose total depends on the order of the additions. *)
Definition priceRows : list Record :=
  [ [("price", VNum 0.041)]; [("price", VNum 1.192)]; [("price", VNum 1.472)] ].

(** ** Relevance matcher *)

(** The points of a rule: [n] when its test holds. *)
Definition points (b : bool) (n : nat) : nat := if b then n else 0%nat.

(** The points one query word earns against the three texts. *)
Definition wordPoints (desc groupName metricName word : string) : nat :=
  if (String.length word <? 3)%nat then 0%nat
  else (points (includes desc word) 1 + points (includes groupName word) 2
        + points (includes metricName word) 2)%nat.

(** The operation hint: "total" or "sum" with Sum, or "average", "avg" or
    "mean" with Mean. *)
Definition operationHint (q : string) (op : Operation) : bool :=
  ((includes q "total" || includes q "sum") && Operation_eqb op OpSum)
  || ((includes q "average" || includes q "avg" || includes q "mean")
      && Operation_eqb op OpMean).

(** The rule table with every text lower-cased. *)
Definition ruleScore (q : string) (agg : AggregationResult) : nat :=
  (points (includes q (toLowerCase (groupBy agg))) 3
   + points (includes q (toLowerCase (metric agg))) 3
   + list_sum (map (wordPoints (toLowerCase (description agg))
                               (toLowerCase (groupBy agg))
                               (toLowerCase (metric agg))) (split_ws q))
   + points (operationHint q (operation agg)) 2)%nat.

(** The rule table as the specification words it: the description is taken
    as it is, not lower-cased. *)
Definition claimedScore (q : string) (agg : AggregationResult) : nat :=
  (points (includes q (toLowerCase (groupBy agg))) 3
   + points (includes q (toLowerCase (metric agg))) 3
   + list_sum (map (wordPoints (description agg)
                               (toLowerCase (groupBy agg))
                               (toLowerCase (metric agg))) (split_ws q))
   + points (operationHint q (operation agg)) 2)%nat.

(** The match as the specification words it: the first aggregation of the
    highest claimed score, when that score is at least 3. *)
Definition claimedMatch (summary : DataSummary) (query : string)
  : option AggregationResult :=
  let q := toLowerCase query in
  let best :=
    fold_left
      (fun best agg =>
         if (fst best <? claimedScore q agg)%nat then (claimedScore q agg, Some agg) else best)
      (precomputedAggregations summary) (0%nat, None) in
  if (3 <=? fst best)%nat then snd best else None.

(** A summary that holds the given bank of aggregations and nothing else. *)
Definition summaryOf (bank : list AggregationResult) : DataSummary :=
  {| rowCount := 0; columnCount := 0; columns := []; columnTypes := [];
     columnStats := []; categoricalColumns := []; numericColumns := [];
     dateColumns := []; precomputedAggregations := bank; correlations := [] |}.

(** The Sum aggregation of revenue by region of scenario D. *)
Definition revenueByRegion (desc : string) (rows : list Record) : AggregationResult :=
  {| description := desc; groupBy := "region"; metric := "revenue";
     operation := OpSum; data := rows |}.

(** ** Time series *)

(** The string by which the time-series sort compares a row. *)
Definition dateKey `{Runtime} (dateCol : string) (row : Record) : string :=
  toStr (get row dateCol).

(** Two days of sales, the later day first and larger. *)
Definition salesRows : list Record :=
  [ [("day", VStr "2024-01-02"); ("sales", VNum 9)];
    [("day", VStr "2024-01-01"); ("sales", VNum 4)] ].

(** ** A small runtime

    A runtime to run the engine on concrete data; the properties below
    hold for every runtime and use this one only in examples.  It covers
    integers only: a number prints as the decimal form of its integer part,
    a string parses when it is a decimal integer (white space around it
    ignored, the empty string read as 0), a date is a number or a string
    shaped [dddd-dd-dd], collation is the code-unit order, and [x ** 2] is
    the product [x * x]. *)

Definition is_digit (c : ascii) : bool :=
  (48 <=? nat_of_ascii c)%nat && (nat_of_ascii c <=? 57)%nat.

Definition is_dash (c : ascii) : bool := (nat_of_ascii c =? 45)%nat.

Definition isoShaped (s : string) : bool :=
  match list_ascii_of_string s with
  | [y1; y2; y3; y4; d1; m1; m2; d2; a1; a2] =>
      is_digit y1 && is_digit y2 && is_digit y3 && is_digit y4 && is_dash d1
      && is_digit m1 && is_digit m2 && is_dash d2 && is_digit a1 && is_digit a2
  | _ => false
  end.

(** The integer part of a number, 0 where it has none. *)
Definition integerPart (x : float) : Z :=
  match Prim2SF x with
  | S754_finite s m e =>
      cond_Zopp s (if (0 <=? e)%Z then Zpos m * 2 ^ e else Zpos m / 2 ^ (- e))%Z
  | _ => 0%Z
  end.

Definition integerToString (x : float) : string :=
  NilZero.string_of_int (Z.to_int (integerPart x)).

(** The number of an integer, rounded to nearest. *)
Definition ofInteger (z : Z) : float :=
  if (z <? 0)%Z then - ofZ (- z) else ofZ z.

Definition integerOfString (s : string) : float :=
  match trim s with
  | EmptyString => 0
  | t =>
      match NilZero.int_of_string t with
      | Some i => ofInteger (Z.of_int i)
      | None => nan
      end
  end.

Definition integerDateValid (v : value) : bool :=
  match v with
  | VNum x => negb (is_nan x)
  | VNull => true
  | VStr s => isoShaped s
  end.

Definition integerPow (x y : float) : float := if y =? 2 then x * x else nan.

Definition integerRuntime : Runtime :=
  {| num_to_string := integerToString;
     parseNumber := integerOfString;
     date_valid := integerDateValid;
     localeCompare := String.compare;
     pow := integerPow |}.

(** ** A runtime with an alphabetic collation

    The collation of the engines orders letters alphabetically, a lower
    case letter before its upper case; the runtime below does the same on
    ASCII, and takes a string that starts with the name of a month for a
    date. *)

Definition alphabeticCompare (a b : string) : comparison :=
  match String.compare (toLowerCase a) (toLowerCase b) with
  | Eq => String.compare b a
  | c => c
  end.

Definition monthNamed (s : string) : bool :=
  existsb (fun m => String.prefix m (toLowerCase s))
    ["jan"; "feb"; "mar"; "apr"; "may"; "jun"; "jul"; "aug"; "sep"; "oct"; "nov"; "dec"].

Definition alphabeticDateValid (v : value) : bool :=
  match v with
  | VStr s => isoShaped s || monthNamed s
  | _ => integerDateValid v
  end.

Definition alphabeticRuntime : Runtime :=
  {| num_to_string := integerToString;
     parseNumber := integerOfString;
     date_valid := alphabeticDateValid;
     localeCompare := alphabeticCompare;
     pow := integerPow |}.

(** Two days of sales written with the names of their months. *)
Definition monthRows : list Record :=
  [ [("day", VStr "Jan 5, 2024"); ("sales", VNum 9)];
    [("day", VStr "feb 1, 2024"); ("sales", VNum 4)] ].

(** ** Coercion *)

(** The cell read in a coerced row, from the cell of the raw row: a string
    in a column typed Number is replaced by its number. *)
Definition coercedCell `{Runtime} (types : ColumnTypes) (col : string) (v : option value)
  : option value :=
  match v with
  | Some (VStr s) => if hasType types TNumber col then Some (toNumber s) else v
  | _ => v
  end.

(** ** Traces of the dataset store and of the theme *)

(** The calls a client of the store can make. *)
Inductive StoreAction : Type :=
| AddDataset (name : string) (rawData : list Record) (now : nat)
| RemoveDataset (id : string)
| SetActiveDataset (id : option string)
| ClearAll.

Definition applyAction `{Runtime} (store : Store) (action : StoreAction) : Store :=
  match action with
  | AddDataset name rawData now => snd (addDataset name rawData now store)
  | RemoveDataset id => removeDataset id store
  | SetActiveDataset id => setActiveDataset id store
  | ClearAll => clearAll store
  end.

(** The store after a sequence of calls. *)
Definition runStore `{Runtime} (actions : list StoreAction) : Store :=
  fold_left applyAction actions initialStore.

(** The number of datasets added by a sequence of calls. *)
Definition additions (actions : list StoreAction) : nat :=
  length (filter (fun a => match a with AddDataset _ _ _ => true | _ => false end) actions).

(** The dataset was built from some raw rows the way [addDataset] builds
    it. *)
Definition builtFrom `{Runtime} (raw : list Record) (d : Dataset) : Prop :=
  ds_data d = coerceData raw (detectColumnTypes raw) /\
  ds_columns d = columnsOf raw /\
  ds_columnTypes d = detectColumnTypes raw /\
  ds_rowCount d = length raw.

(** What holds of the store after any sequence of calls. *)
Definition storeInvariant `{Runtime} (store : Store) : Prop :=
  (1 <= nextId store)%nat /\
  NoDup (map ds_id (datasets store)) /\
  (forall d, In d (datasets store) ->
     exists k, (1 <= k < nextId store)%nat /\ ds_id d = ("dataset-" ++ decimal k)%string) /\
  (forall d, In d (datasets store) -> exists raw, builtFrom raw d).

(** What happens to a theme provider: the two calls, and a change of the
    operating system's setting. *)
Inductive ThemeEvent : Type :=
| SetPreference (pref : ThemePreference) (canStore : bool)
| CycleTheme (canStore : bool)
| SystemChanged (matches : bool).

Definition applyThemeEvent (s : option bool * ThemeState) (event : ThemeEvent)
  : option bool * ThemeState :=
  let '(os, st) := s in
  match event with
  | SetPreference pref canStore => (os, setPreference os canStore pref st)
  | CycleTheme canStore => (os, cycleTheme os canStore st)
  | SystemChanged matches => (Some matches, systemThemeChanged matches st)
  end.

(** The operating system's setting and the state after a sequence of
    events. *)
Definition runTheme (os : option bool) (stored : option string)
  (defaultPreference : ThemePreference) (events : list ThemeEvent)
  : option bool * ThemeState :=
  fold_left applyThemeEvent events (os, initialTheme os stored defaultPreference).

(** ** Traces of the orchestration

    What happens to the orchestration hook: a call of
    [orchestrateDashboard] makes its first update; the delay of a call
    ends and the call makes its second update, for its own request; or
    [clearDashboard] is called.  The hook does not wait for a call to end
    before the next starts, so the starts and the ends of several calls
    come in any order. *)
Inductive OrchestrationEvent : Type :=
| CallStarts
| CallEnds (userRequest : string)
| DashboardCleared.

Definition applyOrchestrationEvent (st : OrchestrationState) (event : OrchestrationEvent)
  : OrchestrationState :=
  match event with
  | CallStarts => orchestrateStart st
  | CallEnds userRequest => orchestrateFinish userRequest st
  | DashboardCleared => clearDashboard
  end.

(** The state after a sequence of events, from the state at mount. *)
Definition runOrchestration (events : list OrchestrationEvent) : OrchestrationState :=
  fold_left applyOrchestrationEvent events clearDashboard.

(** ** Keywords *)

(** The request, in lower case, contains the keyword. *)
Definition mentions (userRequest keyword : string) : bool :=
  includes (toLowerCase userRequest) keyword.

(** The number of instructions of a name. *)
Definition countNamed (n : string) (instructions : list ComponentInstruction) : nat :=
  length (filter (fun i => String.eqb (name i) n) instructions).

(** ** Schemas *)

(** A value is of the kind of a field.  The mock datasets are taken to be
    arrays. *)
Definition hasKind (k : FieldKind) (v : PropValue) : bool :=
  match k, v with
  | KString, PString _ => true
  | KStringOrNumber, PString _ => true
  | KBoolean, PBool _ => true
  | KArrayOfAny, PData _ => true
  | KArrayOfAny, PStrings _ => true
  | KArrayOfString, PStrings _ => true
  | _, _ => false
  end.

Fixpoint propOf (ps : list (string * PropValue)) (n : string) : option PropValue :=
  match ps with
  | [] => None
  | (k, v) :: rest => if String.eqb k n then Some v else propOf rest n
  end.

(** The props satisfy a schema: every field that is not optional is there,
    every field that is there is of its kind, and every prop is a field. *)
Definition conforms (schema : list SchemaField) (ps : list (string * PropValue)) : bool :=
  forallb (fun f =>
             match propOf ps (fieldName f) with
             | Some v => hasKind (fieldKind f) v
             | None => optional f
             end) schema
  && forallb (fun p => existsb (fun f => String.eqb (fieldName f) (fst p)) schema) ps.

(** * Properties *)

(** ** The stable sort *)

Section SortFacts.
Context {A : Type}.
Variable gt : A -> A -> bool.

Lemma insert_by_perm (x : A) (l : list A) : Permutation (insert_by gt x l) (x :: l).
Proof.
  induction l as [|h t IH]; simpl.
  - apply Permutation_refl.
  - destruct (gt x h).
    + apply perm_trans with (h :: x :: t).
      * apply perm_skip, IH.
      * apply perm_swap.
    + apply Permutation_refl.
Qed.

Lemma sort_by_perm (l : list A) : Permutation (sort_by gt l) l.
Proof.
  induction l as [|h t IH]; simpl.
  - apply perm_nil.
  - eapply perm_trans; [apply insert_by_perm|]. apply perm_skip, IH.
Qed.

Lemma sort_by_length (l : list A) : length (sort_by gt l) = length l.
Proof. apply Permutation_length, sort_by_perm. Qed.

Lemma sort_by_In (l : list A) (x : A) : In x (sort_by gt l) <-> In x l.
Proof.
  split; apply Permutation_in; [|apply Permutation_sym]; apply sort_by_perm.
Qed.

(** Stability: elements that the comparator never puts after one another
    keep their order. *)
Lemma insert_by_filter (p : A -> bool) (x : A) (l : list A) :
  (forall a b, p a = true -> p b = true -> gt a b = false) ->
  filter p (insert_by gt x l) = filter p (x :: l).
Proof.
  intros Htie. induction l as [|h t IH]; simpl; [reflexivity|].
  destruct (gt x h) eqn:Hg; simpl; [|reflexivity].
  simpl in IH. rewrite IH.
  destruct (p x) eqn:Hx, (p h) eqn:Hh; try reflexivity.
  rewrite (Htie x h Hx Hh) in Hg. discriminate.
Qed.

Lemma sort_by_stable (p : A -> bool) (l : list A) :
  (forall a b, p a = true -> p b = true -> gt a b = false) ->
  filter p (sort_by gt l) = filter p l.
Proof.
  intros Htie. induction l as [|h t IH]; simpl; [reflexivity|].
  rewrite (insert_by_filter p h _ Htie). simpl. now rewrite IH.
Qed.

(** Order: under a comparator that is asymmetric and whose "not after" is
    transitive on the elements sorted, the result is sorted. *)
Variable ok : A -> Prop.
Hypothesis gt_asym : forall a b, ok a -> ok b -> gt a b = true -> gt b a = false.
Hypothesis le_trans :
  forall a b c, ok a -> ok b -> ok c -> gt a b = false -> gt b c = false -> gt a c = false.

Lemma insert_by_sorted_on (x : A) (l : list A) :
  ok x -> Forall ok l ->
  StronglySorted (fun a b => gt a b = false) l ->
  StronglySorted (fun a b => gt a b = false) (insert_by gt x l).
Proof.
  intros Hx. induction l as [|h t IH]; intros Hok Hs; simpl.
  - constructor; [constructor | constructor].
  - inversion Hs as [|? ? Hst Hall]; subst.
    inversion Hok as [|? ? Hh Ht]; subst.
    destruct (gt x h) eqn:Hg.
    + constructor; [apply IH; assumption|].
      apply Forall_forall. intros y Hy.
      apply (Permutation_in _ (insert_by_perm x t)) in Hy.
      destruct Hy as [<-|Hy]; [now apply gt_asym|].
      rewrite Forall_forall in Hall. now apply Hall.
    + constructor; [exact Hs|].
      constructor; [exact Hg|].
      rewrite Forall_forall in Hall, Ht |- *. intros y Hy.
      eapply (le_trans x h y); auto.
Qed.

Lemma sort_by_sorted_on (l : list A) :
  Forall ok l -> StronglySorted (fun a b => gt a b = false) (sort_by gt l).
Proof.
  induction l as [|h t IH]; intros Hok; simpl; [constructor|].
  inversion Hok as [|? ? Hh Ht]; subst.
  apply insert_by_sorted_on; [exact Hh | | now apply IH].
  apply Forall_forall. intros y Hy. apply (proj1 (sort_by_In t y)) in Hy.
  rewrite Forall_forall in Ht. now apply Ht.
Qed.

End SortFacts.

Lemma sort_by_sorted {A : Type} (gt : A -> A -> bool) :
  (forall a b, gt a b = true -> gt b a = false) ->
  (forall a b c, gt a b = false -> gt b c = false -> gt a c = false) ->
  forall l, StronglySorted (fun a b => gt a b = false) (sort_by gt l).
Proof.
  intros Hasym Htrans l. apply (sort_by_sorted_on gt (fun _ => True)).
  - intros a b _ _. apply Hasym.
  - intros a b c _ _ _. apply Htrans.
  - apply Forall_forall. intros; exact I.
Qed.

Lemma StronglySorted_nth {A : Type} (P : A -> A -> Prop) (l : list A) (d : A) :
  StronglySorted P l ->
  forall i j, (i < j)%nat -> (j < length l)%nat -> P (nth i l d) (nth j l d).
Proof.
  induction 1 as [|a l Hs IH Hall]; intros i j Hij Hj; simpl in Hj; [lia|].
  destruct j as [|j]; [lia|]. destruct i as [|i]; simpl.
  - rewrite Forall_forall in Hall. apply Hall, nth_In. lia.
  - apply IH; lia.
Qed.

(** ** Numbers and rounding *)

Section Binary64.
Local Open Scope Z_scope.

Lemma digits2_pos_bounds (m : positive) :
  2 ^ (Zpos (digits2_pos m) - 1) <= Zpos m < 2 ^ Zpos (digits2_pos m).
Proof.
  induction m as [p IH | p IH |]; cbn [digits2_pos].
  - rewrite Pos2Z.inj_succ.
    replace (Z.succ (Zpos (digits2_pos p)) - 1) with (Z.succ (Zpos (digits2_pos p) - 1)) by lia.
    rewrite !Z.pow_succ_r by lia. lia.
  - rewrite Pos2Z.inj_succ.
    replace (Z.succ (Zpos (digits2_pos p)) - 1) with (Z.succ (Zpos (digits2_pos p) - 1)) by lia.
    rewrite !Z.pow_succ_r by lia. lia.
  - cbn. lia.
Qed.

Lemma bounded_facts (m : positive) (e : Z) :
  bounded prec emax m e = true ->
  -1074 <= e <= 971 /\ Zpos m < 9007199254740992 /\
  (e <> -1074 -> 4503599627370496 <= Zpos m).
Proof.
  unfold bounded, canonical_mantissa, fexp, SpecFloat.emin, prec, emax.
  intros H. apply andb_prop in H as [H1 H2].
  apply Z.eqb_eq in H1. apply Z.leb_le in H2.
  pose proof (digits2_pos_bounds m) as [Hlo Hhi].
  set (d := Zpos (digits2_pos m)) in *.
  assert (Hd : d <= 53) by lia.
  split; [lia|]. split.
  - apply Z.lt_le_trans with (1 := Hhi).
    change 9007199254740992 with (2 ^ 53). apply Z.pow_le_mono_r; lia.
  - intros He. assert (d = 53) as Hd' by lia. rewrite Hd' in Hlo. exact Hlo.
Qed.

Lemma SFcompare_ord (x y : spec_float) :
  valid_binary x = true -> valid_binary y = true ->
  x <> S754_nan -> y <> S754_nan ->
  SFcompare x y = Some (SFord x ?= SFord y).
Proof.
  intros Hx Hy Nx Ny.
  destruct x as [sx|sx| |sx mx ex], y as [sy|sy| |sy my ey]; try congruence;
    cbn [valid_binary] in Hx, Hy;
    try (apply bounded_facts in Hx as (Hx1 & Hx2 & Hx3));
    try (apply bounded_facts in Hy as (Hy1 & Hy2 & Hy3));
    cbn [SFcompare SFord]; f_equal.
  all: try (destruct sx); try (destruct sy); cbn [cond_Zopp].
  all: try (symmetry; first
    [ apply Z.compare_eq_iff; lia
    | apply Z.compare_lt_iff; lia
    | apply Z.compare_gt_iff; lia ]).
  - destruct (Z.compare_spec ex ey) as [E|E|E].
    + subst ey. rewrite Z.compare_opp, Z.add_compare_mono_l.
      change (Pos.compare_cont Eq mx my) with (Pos.compare mx my).
      change (Z.pos my ?= Z.pos mx) with (Pos.compare my mx).
      symmetry. apply Pos.compare_antisym.
    + symmetry. apply Z.compare_gt_iff. lia.
    + symmetry. apply Z.compare_lt_iff. lia.
  - destruct (Z.compare_spec ex ey) as [E|E|E].
    + subst ey. rewrite Z.add_compare_mono_l. reflexivity.
    + symmetry. apply Z.compare_lt_iff. lia.
    + symmetry. apply Z.compare_gt_iff. lia.
Qed.

Lemma shr_m_shr_1 (mrs : shr_record) :
  0 <= shr_m mrs -> shr_m (shr_1 mrs) = shr_m mrs / 2.
Proof.
  destruct mrs as [m r s]. cbn [shr_m shr_1].
  destruct m as [|[p|p|]|p]; intros H; cbn [shr_m]; try lia.
  - reflexivity.
  - apply Z.div_unique with (r := 1); lia.
  - apply Z.div_unique with (r := 0); lia.
  - reflexivity.
Qed.

Lemma shr_m_iter (p : positive) : forall mrs : shr_record,
  0 <= shr_m mrs -> shr_m (iter_pos shr_1 p mrs) = shr_m mrs / 2 ^ Zpos p.
Proof.
  induction p as [p IH | p IH |]; intros mrs H; cbn [iter_pos].
  - assert (H1 : 0 <= shr_m (shr_1 mrs)).
    { rewrite shr_m_shr_1 by exact H. apply Z.div_pos; lia. }
    assert (H2 : 0 <= shr_m (iter_pos shr_1 p (shr_1 mrs))).
    { rewrite IH by exact H1. apply Z.div_pos; [exact H1 | apply Z.pow_pos_nonneg; lia]. }
    rewrite IH by exact H2. rewrite IH by exact H1. rewrite shr_m_shr_1 by exact H.
    rewrite !Z.div_div by (try apply Z.pow_pos_nonneg; lia).
    f_equal. replace (Zpos p~1) with (1 + Zpos p + Zpos p) by lia.
    rewrite !Z.pow_add_r by lia. rewrite Z.pow_1_r. lia.
  - assert (H2 : 0 <= shr_m (iter_pos shr_1 p mrs)).
    { rewrite IH by exact H. apply Z.div_pos; [exact H | apply Z.pow_pos_nonneg; lia]. }
    rewrite IH by exact H2. rewrite IH by exact H.
    rewrite !Z.div_div by (try apply Z.pow_pos_nonneg; lia).
    f_equal. replace (Zpos p~0) with (Zpos p + Zpos p) by lia.
    rewrite Z.pow_add_r by lia. reflexivity.
  - rewrite shr_m_shr_1 by exact H. reflexivity.
Qed.

Lemma shr_m_of_loc (m : Z) (l : location) : shr_m (shr_record_of_loc m l) = m.
Proof. destruct l as [|[]]; reflexivity. Qed.

Lemma round_nearest_even_le (m : Z) (l : location) : m <= round_nearest_even m l.
Proof.
  destruct l as [|[]]; cbn [round_nearest_even]; try lia.
  destruct (Z.even m); lia.
Qed.

Lemma shr_fexp_nonneg (m e : Z) (l : location) :
  0 <= m -> 0 <= shr_m (fst (shr_fexp prec emax m e l)).
Proof.
  intros H. unfold shr_fexp, shr.
  destruct (fexp prec emax (Zdigits2 m + e) - e) as [|k|k]; cbn [fst].
  - rewrite shr_m_of_loc. exact H.
  - rewrite shr_m_iter by (rewrite shr_m_of_loc; exact H).
    rewrite shr_m_of_loc. apply Z.div_pos; [exact H | apply Z.pow_pos_nonneg; lia].
  - rewrite shr_m_of_loc. exact H.
Qed.

Lemma shr_fexp_pos (m e : Z) (l : location) :
  0 < m -> -1074 <= e ->
  0 < shr_m (fst (shr_fexp prec emax m e l)) /\ -1074 <= snd (shr_fexp prec emax m e l).
Proof.
  intros H He. destruct m as [|p|p]; try lia.
  unfold shr_fexp, shr. cbn [Zdigits2].
  pose proof (digits2_pos_bounds p) as [Hlo Hhi].
  destruct (fexp prec emax (Zpos (digits2_pos p) + e) - e) as [|k|k] eqn:E;
    cbn [fst snd]; rewrite ?shr_m_of_loc; try (split; lia).
  unfold fexp, SpecFloat.emin, prec, emax in E.
  rewrite shr_m_iter by (rewrite shr_m_of_loc; lia). rewrite shr_m_of_loc.
  split; [|lia].
  apply Z.div_str_pos. split; [apply Z.pow_pos_nonneg; lia|].
  apply Z.le_trans with (2 := Hlo). apply Z.pow_le_mono_r; lia.
Qed.

Lemma binary_round_aux_signed (s : bool) (m e : Z) (l : location) :
  0 <= m -> signed s (binary_round_aux prec emax s m e l).
Proof.
  intros H. unfold binary_round_aux.
  pose proof (shr_fexp_nonneg m e l H) as H1.
  destruct (shr_fexp prec emax m e l) as [mrs' e']. cbn [fst] in H1.
  pose proof (round_nearest_even_le (shr_m mrs') (loc_of_shr_record mrs')) as H2.
  set (m2 := round_nearest_even (shr_m mrs') (loc_of_shr_record mrs')) in *.
  pose proof (shr_fexp_nonneg m2 e' loc_Exact ltac:(lia)) as H3.
  destruct (shr_fexp prec emax m2 e' loc_Exact) as [mrs'' e'']. cbn [fst] in H3.
  destruct (shr_m mrs'') as [|q|q]; try lia.
  - constructor.
  - destruct (e'' <=? emax - prec); constructor.
Qed.

Lemma binary_round_aux_pos (s : bool) (m e : Z) (l : location) :
  0 < m -> -1074 <= e ->
  binary_round_aux prec emax s m e l <> S754_zero s.
Proof.
  intros H He. unfold binary_round_aux.
  pose proof (shr_fexp_pos m e l H He) as [H1 H1'].
  destruct (shr_fexp prec emax m e l) as [mrs' e']. cbn [fst snd] in H1, H1'.
  pose proof (round_nearest_even_le (shr_m mrs') (loc_of_shr_record mrs')) as H2.
  set (m2 := round_nearest_even (shr_m mrs') (loc_of_shr_record mrs')) in *.
  pose proof (shr_fexp_pos m2 e' loc_Exact ltac:(lia) H1') as [H3 _].
  destruct (shr_fexp prec emax m2 e' loc_Exact) as [mrs'' e'']. cbn [fst] in H3.
  destruct (shr_m mrs'') as [|q|q]; try lia.
  destruct (e'' <=? emax - prec); discriminate.
Qed.

Lemma shl_align_exponent (m : positive) (e e' : Z) :
  -1074 <= e -> -1074 <= e' -> -1074 <= snd (shl_align m e e').
Proof.
  intros H H'. unfold shl_align. destruct (e' - e); cbn [snd]; lia.
Qed.

Lemma binary_round_signed (s : bool) (m : positive) (e : Z) :
  signed s (binary_round prec emax s m e).
Proof.
  unfold binary_round.
  destruct (shl_align m e (fexp prec emax (Zpos (digits2_pos m) + e))) as [mz ez].
  apply binary_round_aux_signed. lia.
Qed.

Lemma binary_round_pos (s : bool) (m : positive) (e : Z) :
  -1074 <= e -> binary_round prec emax s m e <> S754_zero s.
Proof.
  intros He. unfold binary_round.
  pose proof (shl_align_exponent m e (fexp prec emax (Zpos (digits2_pos m) + e)) He) as H.
  destruct (shl_align m e (fexp prec emax (Zpos (digits2_pos m) + e))) as [mz ez].
  cbn [snd] in H. apply binary_round_aux_pos; [lia|].
  apply H. unfold fexp, SpecFloat.emin, prec, emax. lia.
Qed.

Lemma binary_normalize_sign (D e : Z) :
  -1074 <= e ->
  SFltb (S754_zero false) (binary_normalize prec emax D e false) = (0 <? D).
Proof.
  intros He. destruct D as [|m|m]; cbn [binary_normalize].
  - reflexivity.
  - pose proof (binary_round_signed false m e) as Hs.
    pose proof (binary_round_pos false m e He) as Hp.
    destruct Hs; [congruence | reflexivity | reflexivity].
  - pose proof (binary_round_signed true m e) as Hs.
    destruct Hs; reflexivity.
Qed.

Lemma iter_xO (d m : positive) : Zpos (Pos.iter xO m d) = Zpos m * 2 ^ Zpos d.
Proof.
  induction d as [|d IH] using Pos.peano_ind.
  - cbn [Pos.iter]. rewrite Z.pow_1_r. lia.
  - rewrite Pos.iter_succ, Pos2Z.inj_succ, Z.pow_succ_r by lia.
    rewrite Pos2Z.inj_xO, IH. lia.
Qed.

Lemma shl_align_fst (m : positive) (e e' : Z) :
  e' <= e -> Zpos (fst (shl_align m e e')) = Zpos m * 2 ^ (e - e').
Proof.
  intros H. unfold shl_align. destruct (e' - e) as [|d|d] eqn:E; cbn [fst]; try lia.
  - replace (e - e') with 0 by lia. rewrite Z.pow_0_r. lia.
  - rewrite iter_xO. f_equal. f_equal. lia.
Qed.

Lemma SFsub_sign (x y : spec_float) :
  valid_binary x = true -> valid_binary y = true ->
  x <> S754_nan -> y <> S754_nan ->
  SFltb (S754_zero false) (SFsub prec emax x y) = (SFord y <? SFord x).
Proof.
  intros Hx Hy Nx Ny.
  destruct x as [sx|sx| |sx mx ex], y as [sy|sy| |sy my ey]; try congruence;
    cbn [valid_binary] in Hx, Hy;
    try (apply bounded_facts in Hx as (Hx1 & Hx2 & Hx3));
    try (apply bounded_facts in Hy as (Hy1 & Hy2 & Hy3)).
  all: try (destruct sx); try (destruct sy);
    cbn [SFsub SFltb SFcompare SFord cond_Zopp negb]; try reflexivity.
  all: try (symmetry; first [apply Z.ltb_lt; lia | apply Z.ltb_ge; lia]).
  all: rewrite binary_normalize_sign by lia.
  all: rewrite !shl_align_fst by lia.
  all: destruct (Z.compare_spec ex ey) as [E|E|E].
  all: try (subst ey; rewrite Z.min_id, Z.sub_diag, Z.pow_0_r;
            destruct (Z.ltb_spec (SFord (S754_zero false)) 1) as [_|_];
            match goal with
            | |- (?a <? ?b) = (?c <? ?d) =>
                destruct (Z.ltb_spec a b), (Z.ltb_spec c d); try reflexivity; exfalso; lia
            end).
  all: try (rewrite (Z.min_l ex ey) by lia; rewrite Z.sub_diag, Z.pow_0_r;
            assert (HP : 2 <= 2 ^ (ey - ex))
              by (change 2 with (2 ^ 1) at 1; apply Z.pow_le_mono_r; lia);
            assert (HY : 2 * Zpos my <= Zpos my * 2 ^ (ey - ex)) by nia;
            match goal with
            | |- (?a <? ?b) = (?c <? ?d) =>
                destruct (Z.ltb_spec a b), (Z.ltb_spec c d); try reflexivity; exfalso; lia
            end).
  all: rewrite (Z.min_r ex ey) by lia; rewrite Z.sub_diag, Z.pow_0_r;
       assert (HP : 2 <= 2 ^ (ex - ey))
         by (change 2 with (2 ^ 1) at 1; apply Z.pow_le_mono_r; lia);
       assert (HX : 2 * Zpos mx <= Zpos mx * 2 ^ (ex - ey)) by nia;
       match goal with
       | |- (?a <? ?b) = (?c <? ?d) =>
           destruct (Z.ltb_spec a b), (Z.ltb_spec c d); try reflexivity; exfalso; lia
       end.
Qed.

Lemma signed_nonneg (x : spec_float) : signed false x -> SFnonneg x = true.
Proof. intros []; reflexivity. Qed.

Lemma SFnonneg_ltb (x : spec_float) : SFltb x (S754_zero false) = negb (SFnonneg x).
Proof. destruct x as [s|s| |s m e]; try destruct s; reflexivity. Qed.

Lemma SFsqrt_nonneg (x : spec_float) : SFnonneg (SFsqrt prec emax x) = true.
Proof.
  destruct x as [s|s| |s m e]; try destruct s; try reflexivity.
  cbn [SFsqrt]. unfold SFsqrt_core_binary.
  set (m' := match _ - _ with Z0 => Zpos m | Zpos _ => _ | Zneg _ => 0 end).
  assert (H : 0 <= m').
  { subst m'. destruct (e - 2 * _); try lia. apply Z.shiftl_nonneg. lia. }
  pose proof (Z.sqrtrem_spec m' H) as Hs.
  destruct (Z.sqrtrem m') as [q r].
  apply signed_nonneg, binary_round_aux_signed. nia.
Qed.

Lemma SFmul_nonneg (x : spec_float) (m : positive) (e : Z) :
  SFnonneg x = true -> SFnonneg (SFmul prec emax x (S754_finite false m e)) = true.
Proof.
  destruct x as [s|s| |s mx ex]; try destruct s; try discriminate; try reflexivity.
  intros _. cbn [SFmul xorb]. apply signed_nonneg, binary_round_aux_signed. lia.
Qed.

Lemma SFdiv_nonneg (x : spec_float) (m : positive) (e : Z) :
  SFnonneg x = true -> SFnonneg (SFdiv prec emax x (S754_finite false m e)) = true.
Proof.
  destruct x as [s|s| |s mx ex]; try destruct s; try discriminate; try reflexivity.
  intros _. cbn [SFdiv xorb]. unfold SFdiv_core_binary.
  set (m' := match _ - _ - _ with Z0 => Zpos mx | Zpos _ => _ | Zneg _ => 0 end).
  assert (H : 0 <= m').
  { subst m'. destruct (ex - e - _); try lia. apply Z.shiftl_nonneg. lia. }
  assert (Hq : 0 <= fst (Z.div_eucl m' (Zpos m))).
  { change (0 <= m' / Zpos m). apply Z.div_pos; lia. }
  destruct (Z.div_eucl m' (Zpos m)) as [q r]. cbn [fst] in Hq.
  apply signed_nonneg, binary_round_aux_signed. exact Hq.
Qed.

Lemma SFmul_comm (x y : spec_float) : SFmul prec emax x y = SFmul prec emax y x.
Proof.
  destruct x as [sx|sx| |sx mx ex], y as [sy|sy| |sy my ey]; cbn [SFmul];
    rewrite ?(xorb_comm sx sy); try reflexivity.
  rewrite (Pos.mul_comm mx my), (Z.add_comm ex ey). reflexivity.
Qed.

(** Whole numbers below 2^53 and their products and quotients are
    exact. *)














End Binary64.

(** The same on the primitive numbers. *)

Lemma is_nan_spec (f : float) : is_nan f = true <-> Prim2SF f = S754_nan.
Proof.
  unfold is_nan. rewrite eqb_spec. unfold SFeqb. split.
  - intros H. destruct (Prim2SF f) eqn:E; try reflexivity; exfalso;
      pose proof (Prim2SF_valid f) as Hv; rewrite E in Hv;
      rewrite SFcompare_ord in H by (assumption || discriminate);
      rewrite Z.compare_refl in H; discriminate.
  - intros ->. reflexivity.
Qed.

Lemma not_nan_spec (f : float) : is_nan f = false -> Prim2SF f <> S754_nan.
Proof.
  intros H E. apply is_nan_spec in E. congruence.
Qed.

Lemma compare_ford (a b : float) :
  is_nan a = false -> is_nan b = false ->
  SFcompare (Prim2SF a) (Prim2SF b) = Some (ford a ?= ford b)%Z.
Proof.
  intros Ha Hb. apply SFcompare_ord; auto using Prim2SF_valid, not_nan_spec.
Qed.

Lemma ltb_ford (a b : float) :
  is_nan a = false -> is_nan b = false -> (a <? b) = (ford a <? ford b)%Z.
Proof.
  intros Ha Hb. rewrite ltb_spec. unfold SFltb. rewrite compare_ford by assumption.
  unfold Z.ltb. destruct (ford a ?= ford b)%Z; reflexivity.
Qed.

Lemma leb_ford (a b : float) :
  is_nan a = false -> is_nan b = false -> (a <=? b) = (ford a <=? ford b)%Z.
Proof.
  intros Ha Hb. rewrite leb_spec. unfold SFleb. rewrite compare_ford by assumption.
  unfold Z.leb. destruct (ford a ?= ford b)%Z; reflexivity.
Qed.


(** [a - b > 0] is [a > b], on numbers: the comparator of a numeric sort
    decides as the order of the numbers does. *)
Lemma sub_pos_ford (a b : float) :
  is_nan a = false -> is_nan b = false -> (0 <? a - b) = (ford b <? ford a)%Z.
Proof.
  intros Ha Hb. rewrite ltb_spec, sub_spec.
  change (Prim2SF 0) with (S754_zero false).
  apply SFsub_sign; auto using Prim2SF_valid, not_nan_spec.
Qed.


Lemma mul_comm (a b : float) : a * b = b * a.
Proof.
  apply Prim2SF_inj. rewrite !mul_spec. apply SFmul_comm.
Qed.

Lemma ltb_zero_nonneg (f : float) : (f <? 0) = negb (SFnonneg (Prim2SF f)).
Proof.
  rewrite ltb_spec. change (Prim2SF 0) with (S754_zero false). apply SFnonneg_ltb.
Qed.

Lemma sqrt_nonneg (f : float) : (sqrt f <? 0) = false.
Proof.
  rewrite ltb_zero_nonneg, sqrt_spec. unfold SF64sqrt. rewrite SFsqrt_nonneg. reflexivity.
Qed.

Lemma ofZ_nonneg (z : Z) : SFnonneg (Prim2SF (ofZ z)) = true.
Proof.
  unfold ofZ. rewrite of_uint63_spec.
  pose proof (Uint63.to_Z_bounded (Uint63.of_Z z)) as [H _].
  destruct (Uint63.to_Z (Uint63.of_Z z)) as [|p|p]; try lia.
  - reflexivity.
  - cbn [binary_normalize]. apply signed_nonneg, binary_round_signed.
Qed.

Lemma Math_round_nonneg (f : float) :
  SFnonneg (Prim2SF f) = true -> SFnonneg (Prim2SF (Math_round f)) = true.
Proof.
  intros H. unfold Math_round. destruct (Prim2SF f) as [s|s| |s m e] eqn:E;
    try (rewrite E; exact H).
  destruct (0 <=? e)%Z; [rewrite E; exact H|].
  destruct s; [discriminate|]. apply ofZ_nonneg.
Qed.

Lemma round2_nonneg (f : float) : (f <? 0) = false -> (round2 f <? 0) = false.
Proof.
  rewrite !ltb_zero_nonneg. intros H. apply negb_false_iff in H.
  apply negb_false_iff. unfold round2. rewrite div_spec.
  assert (E : Prim2SF 100 = S754_finite false 7036874417766400 (-46)) by reflexivity.
  rewrite E. apply SFdiv_nonneg, Math_round_nonneg.
  rewrite mul_spec, E. apply SFmul_nonneg. exact H.
Qed.




Lemma eqb_not_nan (a b : float) : (a =? b) = true -> is_nan a = false /\ is_nan b = false.
Proof.
  rewrite eqb_spec. unfold SFeqb. intros H.
  split; apply not_true_is_false; intros E; apply is_nan_spec in E; rewrite E in H;
    [|destruct (Prim2SF a)]; discriminate.
Qed.

Lemma SFeqb_eq_or_zero (x y : spec_float) :
  SFeqb x y = true ->
  x = y \/ (exists s t, x = S754_zero s /\ y = S754_zero t).
Proof.
  unfold SFeqb.
  destruct x as [sx|sx| |sx mx ex], y as [sy|sy| |sy my ey]; cbn [SFcompare];
    try destruct sx; try destruct sy; try discriminate; intros H;
    try (now left); try (right; eexists; eexists; split; reflexivity).
  - left. destruct (Z.compare_spec ex ey) as [E|E|E]; try discriminate. subst ey.
    destruct (Pos.compare_cont Eq mx my) eqn:Hm; try discriminate.
    apply Pos.compare_eq in Hm. now subst.
  - left. destruct (Z.compare_spec ex ey) as [E|E|E]; try discriminate. subst ey.
    destruct (Pos.compare_cont Eq mx my) eqn:Hm; try discriminate.
    apply Pos.compare_eq in Hm. now subst.
Qed.

(** Equal numbers are one number, or two zeros. *)
Lemma eqb_eq_or_zero (a b : float) :
  (a =? b) = true -> a = b \/ ((a =? 0) = true /\ (b =? 0) = true).
Proof.
  rewrite !eqb_spec. intros H. apply SFeqb_eq_or_zero in H.
  destruct H as [H|(s & t & Ha & Hb)].
  - left. now apply Prim2SF_inj.
  - right. rewrite Ha, Hb. split; reflexivity.
Qed.

Lemma StronglySorted_impl_on {A : Type} (ok : A -> Prop) (P Q : A -> A -> Prop) (l : list A) :
  (forall a b, ok a -> ok b -> P a b -> Q a b) ->
  Forall ok l -> StronglySorted P l -> StronglySorted Q l.
Proof.
  intros HPQ Hok. induction 1 as [|a l Hs IH Hall]; constructor.
  - apply IH. now inversion Hok.
  - inversion Hok as [|? ? Ha Hl]; subst.
    rewrite Forall_forall in Hall, Hl |- *. intros b Hb. apply HPQ; auto.
Qed.

Lemma StronglySorted_impl {A : Type} (P Q : A -> A -> Prop) (l : list A) :
  (forall a b, P a b -> Q a b) -> StronglySorted P l -> StronglySorted Q l.
Proof.
  intros HPQ. apply (StronglySorted_impl_on (fun _ => True)); [auto|].
  apply Forall_forall. intros; exact I.
Qed.

(** The numeric sorts of the engine: by a key, with the comparator
    [key(b) - key(a)] or [key(a) - key(b)]. *)
Section NumericSort.
Context {A : Type}.
Variable key : A -> float.


Lemma sort_ascending (l : list A) :
  Forall (fun a => is_nan (key a) = false) l ->
  StronglySorted (fun a b => (key a <=? key b) = true)
    (sort_by (fun a b => 0 <? key a - key b) l).
Proof.
  intros Hok.
  assert (Hok' : Forall (fun a => is_nan (key a) = false)
                        (sort_by (fun a b => 0 <? key a - key b) l)).
  { rewrite Forall_forall in Hok |- *. intros a Ha. apply Hok.
    exact (proj1 (sort_by_In _ l a) Ha). }
  eapply (StronglySorted_impl_on (fun a => is_nan (key a) = false));
    [|exact Hok'|apply (sort_by_sorted_on _ (fun a => is_nan (key a) = false));
                 [| |exact Hok]].
  - intros a b Ha Hb Hab. cbv beta in Hab. rewrite sub_pos_ford in Hab by assumption.
    rewrite leb_ford by assumption. apply Z.ltb_ge in Hab. now apply Z.leb_le.
  - intros a b Ha Hb. rewrite !sub_pos_ford by assumption.
    rewrite Z.ltb_lt, Z.ltb_ge. lia.
  - intros a b c Ha Hb Hc. rewrite !sub_pos_ford by assumption.
    rewrite !Z.ltb_ge. lia.
Qed.


End NumericSort.

(** ** The aggregator *)

Lemma distinctKeys_In (l : list string) (k : string) : In k (distinctKeys l) <-> In k l.
Proof.
  induction l as [|h t IH]; simpl; [tauto|].
  rewrite filter_In, IH. destruct (String.eqb_spec k h) as [->|Hne]; simpl.
  - tauto.
  - split; [tauto|]. intros [->|Hin]; [now left | right; tauto].
Qed.

Lemma distinctKeys_NoDup (l : list string) : NoDup (distinctKeys l).
Proof.
  induction l as [|h t IH]; simpl; constructor.
  - rewrite filter_In, String.eqb_refl. simpl. intros [_ H]. discriminate.
  - now apply NoDup_filter.
Qed.

Lemma distinctKeys_snoc (l : list string) (k : string) :
  distinctKeys (l ++ [k]) =
  if existsb (String.eqb k) l then distinctKeys l else distinctKeys l ++ [k].
Proof.
  induction l as [|h t IH]; simpl; [reflexivity|].
  rewrite IH. destruct (String.eqb_spec k h) as [->|Hne]; simpl.
  - destruct (existsb (String.eqb h) t); [reflexivity|].
    rewrite filter_app. simpl. rewrite String.eqb_refl. simpl. now rewrite app_nil_r.
  - destruct (existsb (String.eqb k) t); [reflexivity|].
    rewrite filter_app. simpl.
    destruct (String.eqb_spec k h) as [->|_]; [contradiction|reflexivity].
Qed.

Lemma existsb_eqb_In (l : list string) (k : string) :
  existsb (String.eqb k) l = true <-> In k l.
Proof.
  rewrite existsb_exists. split.
  - intros [x [Hin Heq]]. apply String.eqb_eq in Heq. now subst.
  - intros Hin. exists k. split; [exact Hin | apply String.eqb_refl].
Qed.

Lemma keepNumbers_app (l1 l2 : list (option value)) :
  keepNumbers (l1 ++ l2) = keepNumbers l1 ++ keepNumbers l2.
Proof.
  induction l1 as [|v t IH]; simpl; [reflexivity|].
  destruct (asNumber v); simpl; now rewrite IH.
Qed.



Section AggregatorFacts.
Context `{Runtime}.
Variables groupCol valueCol : string.

Lemma hasKey_map {V : Type} (f : string -> V) (keys : list string) (key : string) :
  hasKey key (map (fun k => (k, f k)) keys) = existsb (String.eqb key) keys.
Proof.
  induction keys as [|k t IH]; simpl; [reflexivity|].
  now rewrite IH, (String.eqb_sym k key).
Qed.

Lemma pushTo_map (f : string -> list float) (keys : list string) (key : string)
  (val : float) :
  NoDup keys ->
  pushTo key val (map (fun k => (k, f k)) keys) =
  map (fun k => (k, if String.eqb k key then f k ++ [val] else f k)) keys.
Proof.
  induction 1 as [|k t Hnotin Hnd IH]; simpl; [reflexivity|].
  destruct (String.eqb_spec k key) as [->|Hne].
  - f_equal. apply map_ext_in. intros k' Hin.
    destruct (String.eqb_spec k' key) as [->|_]; [contradiction|reflexivity].
  - now rewrite IH.
Qed.

Lemma groupValues_nil (data : list Record) (k : string) :
  ~ In k (map (groupKey groupCol) data) -> groupValues data groupCol valueCol k = [].
Proof.
  intros Hnotin. unfold groupValues.
  replace (filter _ data) with (@nil Record); [reflexivity|].
  symmetry. induction data as [|row t IH]; simpl; [reflexivity|].
  simpl in Hnotin.
  destruct (String.eqb_spec (groupKey groupCol row) k) as [Heq|_]; [tauto|].
  apply IH. tauto.
Qed.

Lemma groupValues_snoc (data : list Record) (row : Record) (k : string) :
  groupValues (data ++ [row]) groupCol valueCol k =
  groupValues data groupCol valueCol k ++
  (if String.eqb (groupKey groupCol row) k
   then match asNumber (get row valueCol) with Some v => [v] | None => [] end
   else []).
Proof.
  unfold groupValues, columnValues. rewrite filter_app, map_app, keepNumbers_app. simpl.
  destruct (String.eqb (groupKey groupCol row) k); simpl; [|reflexivity].
  destruct (asNumber (get row valueCol)); reflexivity.
Qed.

(** The groups built by the loop, in closed form: one per distinct key, in
    first-encounter order, holding the valid numbers of its rows. *)
Lemma groupRows_closed (data : list Record) :
  groupRows data groupCol valueCol =
  map (fun k => (k, groupValues data groupCol valueCol k))
      (distinctKeys (map (groupKey groupCol) data)).
Proof.
  unfold groupRows. induction data as [|row data IH] using rev_ind; [reflexivity|].
  rewrite fold_left_app. simpl. rewrite IH. clear IH.
  unfold addRow. fold (groupKey groupCol row).
  set (key := groupKey groupCol row).
  set (keys := map (groupKey groupCol) data).
  rewrite map_app. simpl. fold key keys.
  rewrite distinctKeys_snoc, hasKey_map.
  assert (Hex : existsb (String.eqb key) (distinctKeys keys) = existsb (String.eqb key) keys).
  { apply eq_true_iff_eq. rewrite !existsb_eqb_In. apply distinctKeys_In. }
  rewrite Hex.
  set (keys' := if existsb (String.eqb key) keys
                then distinctKeys keys else distinctKeys keys ++ [key]).
  assert (Hgroups :
    (if existsb (String.eqb key) keys
     then map (fun k => (k, groupValues data groupCol valueCol k)) (distinctKeys keys)
     else map (fun k => (k, groupValues data groupCol valueCol k)) (distinctKeys keys)
          ++ [(key, [])]) =
    map (fun k => (k, groupValues data groupCol valueCol k)) keys').
  { unfold keys'. destruct (existsb (String.eqb key) keys) eqn:Hin; [reflexivity|].
    rewrite map_app. simpl. rewrite groupValues_nil; [reflexivity|].
    fold keys. rewrite <- existsb_eqb_In, Hin. discriminate. }
  rewrite Hgroups.
  assert (Hnd : NoDup keys').
  { unfold keys'. destruct (existsb (String.eqb key) keys) eqn:Hin.
    - apply distinctKeys_NoDup.
    - pose proof (distinctKeys_NoDup (keys ++ [key])) as Hn.
      now rewrite distinctKeys_snoc, Hin in Hn. }
  destruct (asNumber (get row valueCol)) as [val|] eqn:Hnum.
  - rewrite pushTo_map by exact Hnd. apply map_ext. intros k.
    rewrite groupValues_snoc. fold key. rewrite Hnum, (String.eqb_sym k key).
    destruct (String.eqb key k); [reflexivity | now rewrite app_nil_r].
  - apply map_ext. intros k. rewrite groupValues_snoc. fold key. rewrite Hnum.
    destruct (String.eqb key k); now rewrite app_nil_r.
Qed.

End AggregatorFacts.


Lemma reduceGroup_reduction (operation : Operation) (values : list float) :
  reduceGroup operation values = reduction operation values.
Proof.
  destruct operation; simpl; try reflexivity.
  destruct values as [|v t]; reflexivity.
Qed.

Lemma list_sum_indicator (ks : list string) (x : string) (c : nat) :
  NoDup ks -> In x ks ->
  list_sum (map (fun k => if String.eqb x k then c else 0%nat) ks) = c.
Proof.
  induction 1 as [|k t Hnotin Hnd IH]; intros Hin; simpl in *; [contradiction|].
  destruct (String.eqb_spec x k) as [->|Hne].
  - replace (list_sum _) with 0%nat; [lia|].
    symmetry. clear IH Hin Hnd. induction t as [|k' t IH]; simpl; [reflexivity|].
    simpl in Hnotin. destruct (String.eqb_spec k k') as [->|_]; [tauto|].
    apply IH. tauto.
  - destruct Hin as [->|Hin]; [contradiction|]. now apply IH.
Qed.

Lemma list_sum_map_add {A : Type} (f g : A -> nat) (l : list A) :
  list_sum (map (fun a => (f a + g a)%nat) l) = (list_sum (map f l) + list_sum (map g l))%nat.
Proof. induction l as [|a t IH]; simpl; lia. Qed.

Section AggregatorTheorems.
Context `{Runtime}.
Variables groupCol valueCol : string.


Lemma aggregateByGroup_closed (data : list Record) (operation : Operation) :
  aggregateByGroup data groupCol valueCol operation =
  sort_by (fun a b => 0 <? numField b valueCol - numField a valueCol)
    (map (expectedRow data groupCol valueCol operation)
         (distinctKeys (map (groupKey groupCol) data))).
Proof.
  unfold aggregateByGroup. rewrite groupRows_closed, map_map. f_equal.
  apply map_ext. intros k. unfold groupRow, expectedRow. simpl.
  now rewrite reduceGroup_reduction.
Qed.

End AggregatorTheorems.



(** ** The correlation *)

Lemma fold_left_add_map {A : Type} (G : A -> float) (l : list A) (a : float) :
  fold_left (fun s i => s + G i) l a = fold_left PrimFloat.add (map G l) a.
Proof.
  revert a. induction l as [|i l IH]; intros a; simpl; [reflexivity | apply IH].
Qed.

Lemma pearson_loop (x y : list float) (mx my : float) (s len : nat)
  (st : float * float * float) :
  fold_left (pearsonStep x y mx my) (seq s len) st =
  (fold_left (fun a i => a + (nth i x nan - mx) * (nth i y nan - my)) (seq s len) (fst (fst st)),
   fold_left (fun a i => a + (nth i x nan - mx) * (nth i x nan - mx)) (seq s len) (snd (fst st)),
   fold_left (fun a i => a + (nth i y nan - my) * (nth i y nan - my)) (seq s len) (snd st)).
Proof.
  revert s st. induction len as [|len IH]; intros s [[a b] c]; simpl.
  - reflexivity.
  - rewrite IH. reflexivity.
Qed.

Lemma map_nth_combine (F : float -> float -> float) (x y : list float) :
  length x = length y ->
  map (fun i => F (nth i x nan) (nth i y nan)) (seq 0 (length x)) =
  map (fun p => F (fst p) (snd p)) (combine x y).
Proof.
  revert y. induction x as [|a x IH]; intros [|b y] Hlen; simpl in *; try discriminate.
  - reflexivity.
  - f_equal. rewrite <- seq_shift, map_map. simpl. apply IH. lia.
Qed.

Lemma combine_swap_map (F : float -> float -> float) (x y : list float) :
  map (fun p => F (fst p) (snd p)) (combine x y) =
  map (fun p => F (snd p) (fst p)) (combine y x).
Proof.
  revert y. induction x as [|a x IH]; intros [|b y]; simpl; try reflexivity.
  now rewrite IH.
Qed.

(** The sums of the loop, from the paired values. *)
Lemma pearson_sum (x y : list float) (mx my : float) :
  length x = length y ->
  fold_left (fun a i => a + (nth i x nan - mx) * (nth i y nan - my)) (seq 0 (length x)) 0 =
  fold_left (fun s p => s + (fst p - mx) * (snd p - my)) (combine x y) 0.
Proof.
  intros Hlen.
  rewrite (fold_left_add_map (fun i => (nth i x nan - mx) * (nth i y nan - my))).
  rewrite (fold_left_add_map (fun p => (fst p - mx) * (snd p - my))).
  now rewrite (map_nth_combine (fun a b => (a - mx) * (b - my)) x y Hlen).
Qed.

(** The value of [pearsonCorrelation] on lists of one length, by the
    deviation sums. *)
Lemma pearsonCorrelation_closed (x y : list float) :
  length x = length y ->
  pearsonCorrelation x y =
  if (length x <? 3)%nat then 0
  else if pearsonDenominator x y =? 0 then 0
  else round3 (pearsonFormula x y).
Proof.
  intros Hlen. unfold pearsonCorrelation.
  destruct (length x <? 3)%nat; [reflexivity|].
  rewrite pearson_loop. cbn [fst snd].
  fold (mean x). replace (sum_list y / ofNat (length x)) with (mean y)
    by (unfold mean; now rewrite Hlen).
  rewrite (pearson_sum x y (mean x) (mean y) Hlen).
  rewrite (pearson_sum x x (mean x) (mean x) eq_refl).
  rewrite Hlen. rewrite (pearson_sum y y (mean y) (mean y) eq_refl).
  reflexivity.
Qed.

Lemma sumDevProd_sym (x y : list float) : sumDevProd x y = sumDevProd y x.
Proof.
  unfold sumDevProd.
  rewrite (fold_left_add_map (fun p => (fst p - mean x) * (snd p - mean y))).
  rewrite (fold_left_add_map (fun p => (fst p - mean y) * (snd p - mean x))).
  rewrite (combine_swap_map (fun a b => (a - mean x) * (b - mean y)) x y).
  f_equal. apply map_ext. intros p. apply mul_comm.
Qed.

Lemma pearsonDenominator_sym (x y : list float) :
  pearsonDenominator x y = pearsonDenominator y x.
Proof. unfold pearsonDenominator. now rewrite mul_comm. Qed.

(** C2, as amended.  On two lists of one length [pearsonCorrelation] is
    symmetric; it is 0 below 3 samples and when the denominator
    [sqrt (sum dx^2 * sum dy^2)], as computed in binary64, is 0; otherwise
    it is [sum (dx * dy)] over that denominator, rounded to 3 decimals by
    [Math.round(r * 1000) / 1000].  The deviations are from the means of
    the lists passed, which are the paired samples, and every sum is added
    from the left.  Scenario C gives 1, and the coefficient 0.98198... of
    [1, 2, 3] and [1, 2, 4] is reported as 0.982. *)
Theorem pearsonCorrelation_spec (x y : list float) (Hlen : length x = length y) :
  pearsonCorrelation x y = pearsonCorrelation y x /\
  ((length x < 3)%nat -> pearsonCorrelation x y = 0) /\
  ((pearsonDenominator x y =? 0) = true -> pearsonCorrelation x y = 0) /\
  ((3 <= length x)%nat -> (pearsonDenominator x y =? 0) = false ->
   pearsonCorrelation x y = round3 (pearsonFormula x y)) /\
  (forall r, round3 r = Math_round (r * 1000) / 1000) /\
  pearsonCorrelation [1; 2; 3; 4] [2; 4; 6; 8] = 1 /\
  pearsonCorrelation [1; 2; 3] [1; 2; 4] = 0.982.
Proof.
  split.
  { rewrite (pearsonCorrelation_closed x y Hlen).
    rewrite (pearsonCorrelation_closed y x (eq_sym Hlen)).
    rewrite <- Hlen. unfold pearsonFormula.
    now rewrite (sumDevProd_sym y x), (pearsonDenominator_sym y x). }
  split.
  { intros Hn. rewrite (pearsonCorrelation_closed x y Hlen).
    apply Nat.ltb_lt in Hn. now rewrite Hn. }
  split.
  { intros Hd. rewrite (pearsonCorrelation_closed x y Hlen).
    destruct (length x <? 3)%nat; [reflexivity|]. now rewrite Hd. }
  split.
  { intros Hn Hd. rewrite (pearsonCorrelation_closed x y Hlen).
    apply Nat.ltb_ge in Hn. now rewrite Hn, Hd. }
  split; [reflexivity|].
  split; vm_compute; reflexivity.
Qed.

(** The theorem at the columns of scenario C. *)
Lemma pearsonCorrelation_spec_witness :
  length [1; 2; 3; 4] = length [2; 4; 6; 8] /\
  pearsonCorrelation [1; 2; 3; 4] [2; 4; 6; 8] = pearsonCorrelation [2; 4; 6; 8] [1; 2; 3; 4].
Proof.
  split; [reflexivity|].
  exact (proj1 (pearsonCorrelation_spec [1; 2; 3; 4] [2; 4; 6; 8] eq_refl)).
Defined.

(** C2, the range.  The deviation sums of three finite numbers overflow:
    the quotient is [NaN], which is not in [-1, 1].  And two constant
    columns, whose denominator is 0 in exact arithmetic, have a mean that
    is rounded, a denominator that is not 0, and the coefficient -1. *)
Lemma pearsonCorrelation_range_counterexample :
  let r := pearsonCorrelation [1e200; -1e200; 0] [1e200; -1e200; 0] in
  is_nan r = true /\ (-1 <=? r) = false /\ (r <=? 1) = false /\
  pearsonCorrelation [0.1; 0.1; 0.1] [0.7; 0.7; 0.7] = -1.
Proof. vm_compute. repeat split. Qed.

(** ** The relevance matcher *)

Lemma scoreWord_fold (desc g m : string) (words : list string) (s : nat) :
  fold_left (scoreWord desc g m) words s = (s + list_sum (map (wordPoints desc g m) words))%nat.
Proof.
  revert s. induction words as [|w t IH]; intros s; simpl; [lia|].
  rewrite IH. unfold scoreWord, wordPoints, points.
  destruct (String.length w <? 3)%nat; [lia|].
  destruct (includes desc w), (includes g w), (includes m w); lia.
Qed.

Lemma scoreOf_ruleScore (q : string) (agg : AggregationResult) :
  scoreOf q agg = ruleScore q agg.
Proof.
  unfold scoreOf, ruleScore, operationHint, points. rewrite scoreWord_fold.
  destruct (includes q (toLowerCase (groupBy agg))),
           (includes q (toLowerCase (metric agg))),
           (includes q "total" || includes q "sum"),
           (includes q "average" || includes q "avg" || includes q "mean"),
           (operation agg); simpl; lia.
Qed.

(** The loop keeps the first aggregation of the highest score above the
    starting score, if there is one. *)
Lemma keepBest_fold (q : string) (bank : list AggregationResult)
  (s0 : nat) (a0 : option AggregationResult) :
  (fold_left (keepBest q) bank (s0, a0) = (s0, a0) /\
   forall a, In a bank -> (scoreOf q a <= s0)%nat)
  \/ (exists before b after,
        bank = before ++ b :: after /\
        fold_left (keepBest q) bank (s0, a0) = (scoreOf q b, Some b) /\
        (s0 < scoreOf q b)%nat /\
        (forall a, In a before -> (scoreOf q a < scoreOf q b)%nat) /\
        (forall a, In a after -> (scoreOf q a <= scoreOf q b)%nat)).
Proof.
  revert s0 a0. induction bank as [|h t IH]; intros s0 a0; simpl.
  - left. split; [reflexivity | intros a []].
  - replace (keepBest q (s0, a0) h)
      with (if (s0 <? scoreOf q h)%nat then (scoreOf q h, Some h) else (s0, a0))
      by reflexivity.
    destruct (s0 <? scoreOf q h)%nat eqn:Hlt.
    + apply Nat.ltb_lt in Hlt.
      destruct (IH (scoreOf q h) (Some h))
        as [[Heq Hall] | (before & b & after & Hb & Heq & Hs & Hbef & Haft)].
      * right. exists [], h, t.
        split; [reflexivity|]. split; [exact Heq|]. split; [exact Hlt|].
        split; [intros a [] | exact Hall].
      * right. exists (h :: before), b, after. subst t.
        split; [reflexivity|]. split; [exact Heq|]. split; [lia|].
        split; [|exact Haft].
        intros a [<-|Hin]; [exact Hs | now apply Hbef].
    + apply Nat.ltb_ge in Hlt.
      destruct (IH s0 a0)
        as [[Heq Hall] | (before & b & after & Hb & Heq & Hs & Hbef & Haft)].
      * left. split; [exact Heq|]. intros a [<-|Hin]; [exact Hlt | now apply Hall].
      * right. exists (h :: before), b, after. subst t.
        split; [reflexivity|]. split; [exact Heq|]. split; [exact Hs|].
        split; [|exact Haft].
        intros a [<-|Hin]; [lia | now apply Hbef].
Qed.

Lemma revenueByRegion_score (desc : string) (rows : list Record) :
  (12 <= scoreOf "total revenue by region" (revenueByRegion desc rows))%nat.
Proof.
  rewrite scoreOf_ruleScore. unfold ruleScore, revenueByRegion. simpl.
  unfold wordPoints, points. simpl.
  destruct (includes (toLowerCase desc) "total"),
           (includes (toLowerCase desc) "revenue"),
           (includes (toLowerCase desc) "region"); simpl; lia.
Qed.

(** C3, as amended.  The score of an aggregation against a query is the
    rule table read with every text lower-cased (the query, the two column
    names and the description): 3 points when the query contains the
    group-by name, 3 when it contains the metric name; for each word of
    the query split at white space, of length at least 3, 1 point when the
    description contains it, 2 when the group-by name does, 2 when the
    metric name does; 2 points when the query contains "total" or "sum"
    and the operation is Sum, or "average", "avg" or "mean" and the
    operation is Mean.  The match is the first aggregation of the highest
    score when that score is at least 3, and none otherwise.  The query of
    scenario D finds the Sum aggregation of revenue by region when the bank
    holds it alone, and in any bank holding it finds an aggregation of at
    least its score. *)
Theorem findRelevantAggregation_spec (summary : DataSummary) (query : string) :
  let q := toLowerCase query in
  let bank := precomputedAggregations summary in
  (forall agg, scoreOf q agg = ruleScore q agg) /\
  match findRelevantAggregation summary query with
  | Some best =>
      exists before after,
        bank = before ++ best :: after /\
        (3 <= scoreOf q best)%nat /\
        (forall a, In a before -> (scoreOf q a < scoreOf q best)%nat) /\
        (forall a, In a after -> (scoreOf q a <= scoreOf q best)%nat)
  | None => forall a, In a bank -> (scoreOf q a < 3)%nat
  end /\
  (forall desc rows,
     findRelevantAggregation (summaryOf [revenueByRegion desc rows]) "total revenue by region"
     = Some (revenueByRegion desc rows)) /\
  (forall desc rows,
     In (revenueByRegion desc rows) bank ->
     exists best,
       findRelevantAggregation summary "total revenue by region" = Some best /\
       (scoreOf "total revenue by region" (revenueByRegion desc rows)
        <= scoreOf "total revenue by region" best)%nat).
Proof.
  intros q bank.
  assert (Hfind : forall (s : DataSummary) (qy : string),
    match findRelevantAggregation s qy with
    | Some best =>
        exists before after,
          precomputedAggregations s = before ++ best :: after /\
          (3 <= scoreOf (toLowerCase qy) best)%nat /\
          (forall a, In a before -> (scoreOf (toLowerCase qy) a < scoreOf (toLowerCase qy) best)%nat) /\
          (forall a, In a after -> (scoreOf (toLowerCase qy) a <= scoreOf (toLowerCase qy) best)%nat)
    | None => forall a, In a (precomputedAggregations s) -> (scoreOf (toLowerCase qy) a < 3)%nat
    end).
  { intros s qy. unfold findRelevantAggregation.
    destruct (keepBest_fold (toLowerCase qy) (precomputedAggregations s) 0 None)
      as [[Heq Hall] | (before & b & after & Hb & Heq & Hs & Hbef & Haft)];
      rewrite Heq; cbn [fst snd].
    - change (3 <=? 0)%nat with false. cbv iota.
      intros a Hin. specialize (Hall a Hin). lia.
    - destruct (3 <=? scoreOf (toLowerCase qy) b)%nat eqn:H3.
      + apply Nat.leb_le in H3. exists before, after. auto.
      + apply Nat.leb_gt in H3. intros a Hin. rewrite Hb in Hin.
        apply in_app_or in Hin. destruct Hin as [Hin|[<-|Hin]].
        * specialize (Hbef a Hin). lia.
        * exact H3.
        * specialize (Haft a Hin). lia. }
  split; [intros agg; apply scoreOf_ruleScore|].
  split; [apply Hfind|].
  split.
  { intros desc rows.
    pose proof (Hfind (summaryOf [revenueByRegion desc rows]) "total revenue by region") as H.
    change (toLowerCase "total revenue by region") with "total revenue by region" in H.
    pose proof (revenueByRegion_score desc rows) as Hs.
    destruct (findRelevantAggregation _ "total revenue by region") as [best|].
    - destruct H as (before & after & Hb & _). simpl in Hb.
      destruct before as [|x before]; simpl in Hb.
      + now inversion Hb.
      + destruct before; discriminate.
    - specialize (H _ (or_introl eq_refl)). lia. }
  intros desc rows Hin.
  pose proof (Hfind summary "total revenue by region") as H.
  change (toLowerCase "total revenue by region") with "total revenue by region" in H.
  pose proof (revenueByRegion_score desc rows) as Hs.
  destruct (findRelevantAggregation summary "total revenue by region") as [best|].
  - exists best. split; [reflexivity|].
    destruct H as (before & after & Hb & H3 & Hbef & Haft).
    fold bank in Hb. rewrite Hb in Hin.
    apply in_app_or in Hin. destruct Hin as [Hin|[<-|Hin]].
    + specialize (Hbef _ Hin). lia.
    + lia.
    + now apply Haft.
  - specialize (H _ Hin). lia.
Qed.

(** C3, as stated, fails: with the description taken as it is, the word
    "total" earns nothing from "Total revenue by region", the claimed score
    is 2 and the claimed answer is none; the engine lower-cases the
    description, scores 3 and returns the aggregation. *)
Lemma findRelevantAggregation_claimed_counterexample :
  findRelevantAggregation (summaryOf [revenueByRegion "Total revenue by region" []]) "total"
    = Some (revenueByRegion "Total revenue by region" []) /\
  claimedMatch (summaryOf [revenueByRegion "Total revenue by region" []]) "total" = None /\
  scoreOf (toLowerCase "total") (revenueByRegion "Total revenue by region" []) = 3%nat /\
  claimedScore (toLowerCase "total") (revenueByRegion "Total revenue by region" []) = 2%nat.
Proof. repeat split. Qed.

(** ** Type inference *)

Lemma keepPresent_length (vs : list (option value)) :
  (length (keepPresent vs) <= length vs)%nat.
Proof.
  induction vs as [|v t IH]; simpl; [lia|].
  destruct v as [x|]; [destruct (isNullOrEmpty (Some x))|]; simpl; lia.
Qed.

Lemma keepPresent_In (vs : list (option value)) (x : value) :
  In x (keepPresent vs) <-> In (Some x) vs /\ isNullOrEmpty (Some x) = false.
Proof.
  induction vs as [|v t IH]; cbn [keepPresent In]; [tauto|].
  destruct v as [y|].
  - destruct (isNullOrEmpty (Some y)) eqn:Hy; cbn [In]; rewrite IH.
    + split; [tauto|]. intros [[Heq|Hin] Hx]; [|tauto].
      inversion Heq; subst. rewrite Hy in Hx. discriminate.
    + split.
      * intros [->|[Hin Hx]]; [split; [now left | exact Hy] | tauto].
      * intros [[Heq|Hin] Hx]; [left; now inversion Heq | tauto].
  - rewrite IH. split; [tauto|]. intros [[Heq|Hin] Hx]; [discriminate | tauto].
Qed.

Lemma typeOf_map (f : string -> ColumnType) (cols : list string) (col : string) :
  In col cols -> typeOf (map (fun c => (c, f c)) cols) col = Some (f col).
Proof.
  induction cols as [|c t IH]; simpl; [tauto|]. intros Hin.
  destruct (String.eqb_spec c col) as [->|Hne]; [reflexivity|].
  destruct Hin as [Heq|Hin]; [contradiction | now apply IH].
Qed.

(** C4.  [detectColumnTypes] gives each column of the first row one type,
    computed from its samples: the values of the first 10 rows, null,
    missing and empty ones dropped.  With no sample the type is String;
    else Number when every sample is a number or a string whose parsed
    number prints back as the trimmed string; else Date when every sample is
    a valid date; else String.  A string sample that does not print back
    (as "007" does not when it parses to 7 and 7 prints as "7") or does not
    parse (as "1,000") keeps the column from being Number. *)
Theorem detectColumnTypes_spec `{Runtime} (data : list Record) (col : string) :
  let samples := samplesOf data col in
  (samples = keepPresent (map (fun row => get row col) (firstn 10 data))) /\
  (length samples <= 10)%nat /\
  (forall v, In v samples <->
     In (Some v) (map (fun row => get row col) (firstn 10 data))
     /\ v <> VNull /\ v <> VStr "") /\
  (forall data', firstn 10 data' = firstn 10 data -> inferType data' col = inferType data col) /\
  (forall first rest, data = first :: rest -> In col (map fst first) ->
     typeOf (detectColumnTypes data) col = Some (inferType data col)) /\
  (data = [] -> detectColumnTypes data = []) /\
  (samples = [] -> inferType data col = TString) /\
  (samples <> [] -> (forall v, In v samples -> looksNumeric v = true) ->
     inferType data col = TNumber) /\
  (samples <> [] -> ~ (forall v, In v samples -> looksNumeric v = true) ->
     (forall v, In v samples -> date_valid v = true) -> inferType data col = TDate) /\
  (samples <> [] -> ~ (forall v, In v samples -> looksNumeric v = true) ->
     ~ (forall v, In v samples -> date_valid v = true) -> inferType data col = TString) /\
  (forall r, looksNumeric (VNum r) = true) /\
  (forall s, looksNumeric (VStr s) = true <->
     is_nan (parseNumber s) = false /\ numberString (parseNumber s) = trim s) /\
  (forall s, In (VStr s) samples ->
     (is_nan (parseNumber s) = false -> numberString (parseNumber s) <> trim s) ->
     inferType data col <> TNumber) /\
  (parseNumber "007" = 7 -> numberString 7 = "7" ->
     In (VStr "007") samples -> inferType data col <> TNumber) /\
  (is_nan (parseNumber "1,000") = true ->
     In (VStr "1,000") samples -> inferType data col <> TNumber).
Proof.
  intros samples.
  assert (Hstr : forall s, looksNumeric (VStr s) = true <->
                   is_nan (parseNumber s) = false /\ numberString (parseNumber s) = trim s).
  { intros s. cbn [looksNumeric].
    destruct (is_nan (parseNumber s)); cbn [negb andb].
    - split; [discriminate | intros [Hn _]; discriminate].
    - rewrite String.eqb_eq. tauto. }
  assert (Hnot : forall s, In (VStr s) samples ->
                   (is_nan (parseNumber s) = false -> numberString (parseNumber s) <> trim s) ->
                   inferType data col <> TNumber).
  { intros s Hin Hbad. unfold inferType. fold samples.
    destruct (Nat.eqb (length samples) 0); [discriminate|].
    destruct (forallb looksNumeric samples) eqn:Hall.
    - rewrite forallb_forall in Hall. specialize (Hall _ Hin).
      apply Hstr in Hall. destruct Hall as [Hr Heq]. now destruct (Hbad Hr).
    - destruct (forallb date_valid samples); discriminate. }
  split; [reflexivity|].
  split.
  { unfold samples, samplesOf, columnValues.
    eapply Nat.le_trans; [apply keepPresent_length|].
    rewrite length_map. apply firstn_le_length. }
  split.
  { intros v. unfold samples, samplesOf, columnValues. rewrite keepPresent_In.
    split; intros [Hin Hv]; (split; [exact Hin|]).
    - destruct v as [|x|s]; simpl in Hv; try discriminate;
        (split; [discriminate|]); try discriminate.
      intros Heq. inversion Heq; subst. discriminate.
    - destruct Hv as [Hn He]. destruct v as [|x|s]; simpl; try reflexivity.
      + contradiction.
      + destruct (String.eqb_spec s ""); [subst; contradiction | reflexivity]. }
  split.
  { intros data' Hfirst. unfold inferType, samplesOf. now rewrite Hfirst. }
  split.
  { intros first rest -> Hin. simpl.
    apply (typeOf_map (fun c => inferType (first :: rest) c)), Hin. }
  split; [intros ->; reflexivity|].
  split.
  { intros Hnil. unfold inferType. fold samples. now rewrite Hnil. }
  assert (Hlen : samples <> [] -> Nat.eqb (length samples) 0 = false).
  { intros Hne. destruct samples; [contradiction | reflexivity]. }
  split.
  { intros Hne Hall. unfold inferType. fold samples. rewrite (Hlen Hne).
    replace (forallb looksNumeric samples) with true; [reflexivity|].
    symmetry. now apply forallb_forall. }
  split.
  { intros Hne Hnum Hall. unfold inferType. fold samples. rewrite (Hlen Hne).
    destruct (forallb looksNumeric samples) eqn:Hn.
    - rewrite forallb_forall in Hn. contradiction.
    - replace (forallb date_valid samples) with true; [reflexivity|].
      symmetry. now apply forallb_forall. }
  split.
  { intros Hne Hnum Hdate. unfold inferType. fold samples. rewrite (Hlen Hne).
    destruct (forallb looksNumeric samples) eqn:Hn.
    - rewrite forallb_forall in Hn. contradiction.
    - destruct (forallb date_valid samples) eqn:Hd; [|reflexivity].
      rewrite forallb_forall in Hd. contradiction. }
  split; [reflexivity|].
  split; [exact Hstr|].
  split; [exact Hnot|].
  split.
  - intros Hp Hs Hin. apply (Hnot "007" Hin). intros _.
    rewrite Hp, Hs. discriminate.
  - intros Hp Hin. apply (Hnot "1,000" Hin). intros Hr.
    rewrite Hp in Hr. discriminate.
Qed.

(** Type inference under the small runtime: integers (white space around
    them allowed) make a Number column, "007" and "1,000" do not, ISO days
    make a Date column, and a column of empty and null values is String. *)
Example inferType_examples :
  @inferType integerRuntime [[("n", VStr "7")]; [("n", VStr " 12 ")]; [("n", VNull)]] "n"
    = TNumber /\
  @inferType integerRuntime [[("id", VStr "007")]] "id" = TString /\
  @inferType integerRuntime [[("amount", VStr "1,000")]] "amount" = TString /\
  @inferType integerRuntime [[("day", VStr "2024-01-05")]; [("day", VStr "2024-02-11")]] "day"
    = TDate /\
  @inferType integerRuntime [[("note", VStr "")]; [("note", VNull)]; []] "note" = TString /\
  @detectColumnTypes integerRuntime [[("n", VStr "7"); ("id", VStr "007")]]
    = [("n", TNumber); ("id", TString)].
Proof. vm_compute. repeat split. Qed.

(** ** The profile builder *)

Lemma keepNumbers_filter (rows : list Record) (col : string) :
  keepNumbers (columnValues (filter (hasNumber col) rows) col)
  = keepNumbers (columnValues rows col).
Proof.
  induction rows as [|row t IH]; simpl; [reflexivity|].
  unfold hasNumber at 1. destruct (asNumber (get row col)) eqn:Hn; simpl.
  - rewrite Hn. now rewrite IH.
  - exact IH.
Qed.

Lemma flat_map_nil {A B : Type} (f : A -> list B) (l : list A) :
  (forall a, In a l -> f a = []) -> flat_map f l = [].
Proof.
  induction l as [|a t IH]; intros Hall; simpl; [reflexivity|].
  rewrite (Hall a (or_introl eq_refl)). apply IH. intros b Hb. apply Hall. now right.
Qed.

Lemma columnStatsOf_column `{Runtime} (rows : list Record) (types : ColumnTypes) (col : string) :
  cs_column (columnStatsOf rows types col) = col.
Proof. unfold columnStatsOf. destruct (typeOf types col) as [[]|]; reflexivity. Qed.

Lemma columnStatsOf_type `{Runtime} (rows : list Record) (types : ColumnTypes) (col : string) :
  cs_type (columnStatsOf rows types col)
  = match typeOf types col with Some t => t | None => TString end.
Proof. unfold columnStatsOf. destruct (typeOf types col) as [[]|]; reflexivity. Qed.

Lemma columnStatsOf_numeric `{Runtime} (rows : list Record) (types : ColumnTypes) (col : string) :
  cs_type (columnStatsOf rows types col) = TNumber ->
  cs_numeric (columnStatsOf rows types col) = computeNumericStats rows col.
Proof.
  unfold columnStatsOf. destruct (typeOf types col) as [[]|]; simpl; congruence.
Qed.

Lemma computeNumericStats_None `{Runtime} (rows : list Record) (col : string) :
  computeNumericStats rows col = None <-> keepNumbers (columnValues rows col) = [].
Proof.
  unfold computeNumericStats.
  destruct (keepNumbers (columnValues rows col)) as [|v t]; simpl.
  - tauto.
  - split; discriminate.
Qed.

(** C5.  [analyzeDataset] is a function: it returns a summary for every
    input.  Values that are not valid numbers are left out of the numeric
    statistics; a numeric column with no valid number has no numeric
    fields.  The columns of a dataset are the keys of its first row, so
    that an empty dataset has none: its summary has row count 0, no column,
    no aggregation and no correlation, whatever the types passed.  (Were
    columns passed with no row, each would keep its statistics and the
    aggregations would have no rows.) *)
Theorem analyzeDataset_total_spec `{Runtime} (rows : list Record) (cols : list string)
  (types : ColumnTypes) :
  let s := analyzeDataset rows cols types in
  rowCount s = length rows /\
  columnCount s = length cols /\
  map cs_column (columnStats s) = cols /\
  (forall col, computeNumericStats rows col
               = computeNumericStats (filter (hasNumber col) rows) col) /\
  (forall cs, In cs (columnStats s) -> cs_type cs = TNumber ->
     (cs_numeric cs = None <-> keepNumbers (columnValues rows (cs_column cs)) = [])) /\
  (forall col, In col cols -> typeOf types col = Some TNumber ->
     keepNumbers (columnValues rows col) = [] ->
     exists cs, In cs (columnStats s) /\ cs_column cs = col /\ cs_type cs = TNumber
                /\ cs_numeric cs = None) /\
  (rows = [] ->
     rowCount s = 0%nat /\ correlations s = [] /\
     (forall agg, In agg (precomputedAggregations s) -> data agg = []) /\
     (cols = [] ->
        columnCount s = 0%nat /\ columnStats s = [] /\ precomputedAggregations s = [])) /\
  (rows = [] ->
     forall types0,
       let s0 := analyzeDataset rows (columnsOf rows) types0 in
       columnCount s0 = 0%nat /\ columnStats s0 = [] /\ precomputedAggregations s0 = []
       /\ correlations s0 = []).
Proof.
  intros s.
  split; [reflexivity|]. split; [reflexivity|].
  split.
  { simpl. rewrite map_map. rewrite (map_ext _ (fun c => c)); [apply map_id|].
    intros c. apply columnStatsOf_column. }
  split.
  { intros col. unfold computeNumericStats. now rewrite keepNumbers_filter. }
  split.
  { intros cs Hin Hty. simpl in Hin. apply in_map_iff in Hin.
    destruct Hin as [col [<- _]].
    rewrite columnStatsOf_numeric by exact Hty.
    rewrite columnStatsOf_column. apply computeNumericStats_None. }
  split.
  { intros col Hin Hty Hnone. exists (columnStatsOf rows types col).
    assert (Ht : cs_type (columnStatsOf rows types col) = TNumber)
      by (rewrite columnStatsOf_type; now rewrite Hty).
    split; [simpl; now apply in_map|].
    split; [apply columnStatsOf_column|].
    split; [exact Ht|].
    rewrite columnStatsOf_numeric by exact Ht. now apply computeNumericStats_None. }
  split.
  { intros ->. split; [reflexivity|].
    split.
    { simpl. unfold correlationsOf. apply flat_map_nil. intros p _. reflexivity. }
    split.
    { intros agg Hin. simpl in Hin. apply in_app_or in Hin. destruct Hin as [Hin|Hin].
      - unfold categoricalAggregations in Hin. apply in_flat_map in Hin.
        destruct Hin as [catCol [_ Hin]].
        destruct (20 <? distinctCount (columnValues [] catCol))%nat; [contradiction|].
        apply in_flat_map in Hin. destruct Hin as [numCol [_ Hin]].
        simpl in Hin. destruct Hin as [<-|[<-|[]]]; reflexivity.
      - unfold dateAggregations in Hin. apply in_flat_map in Hin.
        destruct Hin as [dateCol [_ Hin]]. apply in_map_iff in Hin.
        destruct Hin as [numCol [<- _]]. reflexivity. }
    intros ->. repeat split. }
  intros -> types0. repeat split.
Qed.

(** ** Numeric statistics *)

Lemma keepNumbers_not_nan (vs : list (option value)) (v : float) :
  In v (keepNumbers vs) -> is_nan v = false.
Proof.
  induction vs as [|c t IH]; simpl; [tauto|].
  destruct c as [[|x|s]|]; simpl; auto.
  destruct (is_nan x) eqn:E; auto. intros [<-|Hin]; auto.
Qed.

Lemma leb_refl (a : float) : is_nan a = false -> (a <=? a) = true.
Proof. intros H. rewrite leb_ford by assumption. apply Z.leb_refl. Qed.

Lemma StronglySorted_nth_leb (l : list float) (i j : nat) :
  Forall (fun a => is_nan a = false) l ->
  StronglySorted (fun a b => (a <=? b) = true) l ->
  (i <= j)%nat -> (j < length l)%nat -> (nth i l 0 <=? nth j l 0) = true.
Proof.
  intros Hok Hs Hij Hj. destruct (Nat.eq_dec i j) as [->|Hne].
  - apply leb_refl. rewrite Forall_forall in Hok. apply Hok, nth_In, Hj.
  - apply (StronglySorted_nth _ l 0 Hs); lia.
Qed.

(** C6, as amended.  For a column with a valid number, [min] and [max] are
    the first and last of the valid values in ascending order, unrounded:
    every valid value lies between them.  The median is rounded to 2
    decimals; before rounding it is the middle value for an odd count,
    which lies between [min] and [max], and the binary64 half-sum of the
    two middle values for an even count.  [sum] is the total added from the
    left and [mean] that total over the count, each rounded to 2 decimals,
    the rounding being [Math.round(x * 100) / 100] in binary64. *)
Theorem computeNumericStats_order_spec `{Runtime} (rows : list Record) (col : string) :
  let values := keepNumbers (columnValues rows col) in
  let sorted := sort_by (fun a b => 0 <? a - b) values in
  let n := length values in
  match computeNumericStats rows col with
  | None => values = []
  | Some st =>
      values <> [] /\
      Permutation sorted values /\
      StronglySorted (fun a b => (a <=? b) = true) sorted /\
      ns_min st = nth 0 sorted 0 /\
      ns_max st = nth (n - 1) sorted 0 /\
      In (ns_min st) values /\ In (ns_max st) values /\
      (forall v, In v values -> (ns_min st <=? v) = true /\ (v <=? ns_max st) = true) /\
      (ns_min st <=? ns_max st) = true /\
      (Nat.odd n = true ->
         ns_median st = round2 (nth (n / 2) sorted 0) /\
         (ns_min st <=? nth (n / 2) sorted 0) = true /\
         (nth (n / 2) sorted 0 <=? ns_max st) = true) /\
      (Nat.even n = true ->
         ns_median st = round2 ((nth (n / 2 - 1) sorted 0 + nth (n / 2) sorted 0) / 2)) /\
      ns_sum st = round2 (sum_list values) /\
      ns_mean st = round2 (sum_list values / ofNat n) /\
      (forall x, round2 x = Math_round (x * 100) / 100)
  end.
Proof.
  intros values sorted n. unfold computeNumericStats. fold values. fold sorted.
  destruct (Nat.eqb_spec (length values) 0) as [H0|Hpos].
  { now destruct values. }
  assert (Hne : values <> []) by (intros ->; now apply Hpos).
  assert (Hnan : Forall (fun a => is_nan a = false) values).
  { apply Forall_forall. intros v Hv. now apply keepNumbers_not_nan in Hv. }
  assert (Hs : StronglySorted (fun a b => (a <=? b) = true) sorted)
    by (apply (sort_ascending (fun a => a)); exact Hnan).
  assert (Hlen : length sorted = n) by apply sort_by_length.
  assert (Hin : forall v, In v sorted <-> In v values) by (intros v; apply sort_by_In).
  assert (Hnan' : Forall (fun a => is_nan a = false) sorted).
  { rewrite Forall_forall in Hnan |- *. intros v Hv. apply Hnan, Hin, Hv. }
  assert (Hn : (0 < n)%nat) by (unfold n; lia).
  assert (Hbounds : forall v, In v values ->
            (nth 0 sorted 0 <=? v) = true /\ (v <=? nth (n - 1) sorted 0) = true).
  { intros v Hv. apply Hin in Hv. apply (In_nth _ _ 0) in Hv.
    destruct Hv as [i [Hi <-]].
    split; apply StronglySorted_nth_leb; try assumption; lia. }
  assert (Hmin : In (nth 0 sorted 0) values) by (apply Hin, nth_In; lia).
  assert (Hmax : In (nth (n - 1) sorted 0) values) by (apply Hin, nth_In; lia).
  cbn [ns_min ns_max ns_mean ns_median ns_sum ns_stdDev]. rewrite Hlen.
  split; [exact Hne|]. split; [apply sort_by_perm|]. split; [exact Hs|].
  split; [reflexivity|]. split; [reflexivity|].
  split; [exact Hmin|]. split; [exact Hmax|].
  split; [exact Hbounds|].
  split; [apply (Hbounds _ Hmin)|].
  split.
  { intros Hodd. unfold medianOf. fold n.
    assert (Hmod : (n mod 2)%nat = 1%nat).
    { rewrite <- Nat.negb_even in Hodd. apply negb_true_iff in Hodd.
      pose proof (Nat.mod_upper_bound n 2 ltac:(lia)) as Hlt.
      destruct (n mod 2)%nat as [|[|k]] eqn:Hm; [|reflexivity|lia].
      apply Nat.Div0.mod_divides in Hm. destruct Hm as [c Hc].
      rewrite Hc, Nat.even_mul in Hodd. discriminate. }
    rewrite Hmod. cbn [Nat.eqb].
    assert (Hmid : In (nth (n / 2) sorted 0) values).
    { apply Hin, nth_In. rewrite Hlen. apply Nat.div_lt; lia. }
    split; [reflexivity|]. apply (Hbounds _ Hmid). }
  split.
  { intros Heven. unfold medianOf. fold n.
    apply Nat.even_spec in Heven. destruct Heven as [c Hc].
    assert (Hmod : (n mod 2)%nat = 0%nat).
    { rewrite Hc, Nat.mul_comm. apply Nat.Div0.mod_mul. }
    rewrite Hmod. reflexivity. }
  repeat split.
Qed.

(** C6, as stated, fails.  For the single value 0.001 the reported median
    is 0, below the reported minimum 0.001; for the single value
    1000000000000000.25 the reported median is 1000000000000000.375, above
    the reported maximum.  And for the three values 1e17, 0 and 0 the
    reported sum is 1e17 and the reported mean 33333333333333328: 3 times
    that mean is 16 below the sum. *)
Lemma computeNumericStats_median_counterexample :
  (exists st,
     computeNumericStats (H := integerRuntime) [[("x", VNum 0.001)]] "x" = Some st /\
     ns_min st = 0.001 /\ ns_median st = 0 /\ (ns_median st <? ns_min st) = true) /\
  (exists st,
     computeNumericStats (H := integerRuntime) [[("x", VNum 1000000000000000.25)]] "x"
       = Some st /\
     ns_max st = 1000000000000000.25 /\ ns_median st = 1000000000000000.375 /\
     (ns_max st <? ns_median st) = true) /\
  (exists st,
     computeNumericStats (H := integerRuntime)
       [[("x", VNum 1e17)]; [("x", VNum 0)]; [("x", VNum 0)]] "x" = Some st /\
     ns_sum st = 1e17 /\ ns_mean st = 33333333333333328 /\
     ns_sum st - ns_mean st * 3 = 16).
Proof.
  repeat split; eexists; (split; [vm_compute; reflexivity|]); vm_compute; repeat split.
Qed.

Lemma ltb_false_leb (x : float) :
  (x <? 0) = false -> is_nan x = false -> (0 <=? x) = true.
Proof.
  intros Hlt Hnan. rewrite leb_ford by (reflexivity || assumption).
  rewrite ltb_ford in Hlt by (reflexivity || assumption).
  apply Z.ltb_ge in Hlt. apply Z.leb_le. exact Hlt.
Qed.

(** C7, as amended.  For a column with a valid number the reported
    deviation is the square root of the variance, rounded to 2 decimals;
    the variance is the sum, added from the left, of the squared distances
    to the mean, over the count, all in binary64.  The deviation is never
    below 0: it is [NaN] or at least 0. *)
Theorem computeNumericStats_stdDev_spec `{Runtime} (rows : list Record) (col : string) :
  let values := keepNumbers (columnValues rows col) in
  let n := ofNat (length values) in
  let m := sum_list values / n in
  let variance := fold_left (fun s v => s + pow (v - m) 2) values 0 / n in
  match computeNumericStats rows col with
  | None => values = []
  | Some st =>
      values <> [] /\
      ns_stdDev st = round2 (sqrt variance) /\
      (forall x, round2 x = Math_round (x * 100) / 100) /\
      (ns_stdDev st <? 0) = false /\
      (is_nan (ns_stdDev st) = true \/ (0 <=? ns_stdDev st) = true)
  end.
Proof.
  intros values n m variance. unfold computeNumericStats. fold values.
  destruct (Nat.eqb_spec (length values) 0) as [H0|Hpos].
  { now destruct values. }
  assert (Hne : values <> []) by (intros ->; now apply Hpos).
  cbn [ns_stdDev]. unfold varianceOf. fold n m variance.
  assert (Hnn : (round2 (sqrt variance) <? 0) = false)
    by apply round2_nonneg, sqrt_nonneg.
  split; [exact Hne|]. split; [reflexivity|]. split; [reflexivity|].
  split; [exact Hnn|].
  destruct (is_nan (round2 (sqrt variance))) eqn:Hnan; [now left|].
  right. now apply ltb_false_leb.
Qed.

(** C7, as stated, fails in both directions and in its bound.  Three
    identical values 900719925474099.25 have a mean that is rounded away
    from them, and the deviation 0.13.  The values 0 and 0.001 differ, yet
    their deviation 0.0005 is reported as 0.  And the single value
    [Infinity] has the deviation [NaN], which is not at least 0. *)
Lemma computeNumericStats_stdDev_counterexample :
  (exists st,
     computeNumericStats (H := integerRuntime)
       [[("x", VNum 900719925474099.25)]; [("x", VNum 900719925474099.25)];
        [("x", VNum 900719925474099.25)]] "x" = Some st /\
     ns_stdDev st = 0.13 /\
     allSame [900719925474099.25; 900719925474099.25; 900719925474099.25]) /\
  (exists st,
     computeNumericStats (H := integerRuntime) [[("x", VNum 0)]; [("x", VNum 0.001)]] "x"
       = Some st /\
     ns_stdDev st = 0 /\
     keepNumbers (columnValues [[("x", VNum 0)]; [("x", VNum 0.001)]] "x") = [0; 0.001] /\
     ~ allSame [0; 0.001]) /\
  (exists st,
     computeNumericStats (H := integerRuntime) [[("x", VNum infinity)]] "x" = Some st /\
     is_nan (ns_stdDev st) = true /\ (0 <=? ns_stdDev st) = false).
Proof.
  split; [|split].
  - eexists. split; [vm_compute; reflexivity|]. split; [vm_compute; reflexivity|].
    intros a b Ha Hb. simpl in Ha, Hb.
    destruct Ha as [<-|[<-|[<-|[]]]]; destruct Hb as [<-|[<-|[<-|[]]]]; reflexivity.
  - eexists. split; [vm_compute; reflexivity|]. split; [vm_compute; reflexivity|].
    split; [vm_compute; reflexivity|]. intros Hsame.
    specialize (Hsame 0 0.001 (or_introl eq_refl) (or_intror (or_introl eq_refl))).
    apply (f_equal (fun x => x =? 0.001)) in Hsame. vm_compute in Hsame. discriminate.
  - eexists. split; [vm_compute; reflexivity|]. vm_compute. split; reflexivity.
Qed.

(** Scenario B: the column 1, 2, 3, 4, 5 has min 1, max 5, mean 3, median
    3, sum 15 and standard deviation 1.41. *)
Example scenarioB_stats :
  computeNumericStats (H := integerRuntime) scenarioB "x"
  = Some {| ns_min := 1; ns_max := 5; ns_mean := 3; ns_median := 3;
            ns_sum := 15; ns_stdDev := 1.41 |}.
Proof. vm_compute. reflexivity. Qed.

(** ** Categorical statistics *)

Lemma countOf_snoc (k key : string) (l : list string) :
  countOf k (l ++ [key]) = (countOf k l + (if String.eqb k key then 1 else 0))%nat.
Proof.
  unfold countOf. rewrite filter_app, length_app. simpl.
  destruct (String.eqb k key); reflexivity.
Qed.

Lemma countOf_zero (k : string) (l : list string) : ~ In k l -> countOf k l = 0%nat.
Proof.
  unfold countOf. induction l as [|h t IH]; intros Hnotin; simpl; [reflexivity|].
  simpl in Hnotin. destruct (String.eqb_spec k h) as [->|_]; [tauto|]. apply IH. tauto.
Qed.

Lemma bump_map (f : string -> nat) (keys : list string) (key : string) :
  NoDup keys ->
  bump key (map (fun k => (k, f k)) keys) =
  if existsb (String.eqb key) keys
  then map (fun k => (k, if String.eqb k key then (f k + 1)%nat else f k)) keys
  else map (fun k => (k, f k)) keys ++ [(key, 1%nat)].
Proof.
  induction 1 as [|k t Hnotin Hnd IH]; simpl; [reflexivity|].
  rewrite (String.eqb_sym key k).
  destruct (String.eqb_spec k key) as [->|Hne]; simpl.
  - f_equal. apply map_ext_in. intros k' Hin.
    destruct (String.eqb_spec k' key) as [->|_]; [contradiction|reflexivity].
  - rewrite IH. destruct (existsb (String.eqb key) t); reflexivity.
Qed.

(** The counts built by the loop, in closed form. *)
Lemma countValues_closed `{Runtime} (rows : list Record) (col : string) :
  countValues rows col =
  map (fun k => (k, countOf k (map (countKey col) rows)))
      (distinctKeys (map (countKey col) rows)).
Proof.
  unfold countValues. induction rows as [|row rows IH] using rev_ind; [reflexivity|].
  rewrite fold_left_app. simpl. rewrite IH. clear IH.
  fold (countKey col row). set (key := countKey col row).
  set (keys := map (countKey col) rows).
  rewrite map_app. simpl. fold key keys.
  rewrite bump_map by apply distinctKeys_NoDup.
  rewrite distinctKeys_snoc.
  assert (Hex : existsb (String.eqb key) (distinctKeys keys) = existsb (String.eqb key) keys).
  { apply eq_true_iff_eq. rewrite !existsb_eqb_In. apply distinctKeys_In. }
  rewrite Hex. destruct (existsb (String.eqb key) keys) eqn:Hin.
  - apply map_ext. intros k. rewrite countOf_snoc.
    destruct (String.eqb k key); [reflexivity | now rewrite Nat.add_0_r].
  - rewrite map_app. simpl. f_equal.
    + apply map_ext_in. intros k Hk. rewrite countOf_snoc.
      destruct (String.eqb_spec k key) as [Heq|_]; [|now rewrite Nat.add_0_r].
      exfalso. rewrite Heq in Hk. apply (proj1 (distinctKeys_In _ _)) in Hk.
      apply (proj2 (existsb_eqb_In _ _)) in Hk. rewrite Hk in Hin. discriminate.
    + rewrite countOf_snoc, String.eqb_refl, countOf_zero; [reflexivity|].
      rewrite <- existsb_eqb_In, Hin. discriminate.
Qed.

Lemma firstn_prefix {A : Type} (n : nat) (l : list A) : exists rest, l = firstn n l ++ rest.
Proof. exists (skipn n l). symmetry. apply firstn_skipn. Qed.

(** C8, as amended.  [computeCategoricalStats] counts the rows by the
    string form of their value, a null or missing value counted as
    ["null"] and the empty string as itself; it ranks the (value, count)
    pairs by descending count, pairs of equal count in the order their
    values were first met; and it returns the first 10 pairs of the
    ranking, or all of them when there are fewer. *)
Theorem computeCategoricalStats_spec `{Runtime} (rows : list Record) (col : string) :
  let keys := map (countKey col) rows in
  let counts := map (fun k => (k, countOf k keys)) (distinctKeys keys) in
  let ranking := sort_by (fun a b => (snd a <? snd b)%nat) counts in
  let top := computeCategoricalStats rows col in
  (forall row, isNullish (get row col) = true -> countKey col row = "null") /\
  (forall row s, get row col = Some (VStr s) -> countKey col row = s) /\
  (forall row r, get row col = Some (VNum r) -> countKey col row = numberString r) /\
  countValues rows col = counts /\
  Permutation ranking counts /\
  StronglySorted (fun a b => (snd b <= snd a)%nat) ranking /\
  (forall c, filter (fun p => (snd p =? c)%nat) ranking
             = filter (fun p => (snd p =? c)%nat) counts) /\
  top = firstn 10 ranking /\
  (length top <= 10)%nat /\
  length top = Nat.min 10 (length (distinctKeys keys)) /\
  (exists rest, ranking = top ++ rest).
Proof.
  intros keys counts ranking top.
  assert (Hcounts : countValues rows col = counts) by apply countValues_closed.
  assert (Htop : top = firstn 10 ranking).
  { unfold top, computeCategoricalStats. now rewrite Hcounts. }
  split.
  { intros row Hnull. unfold countKey, toStrOr. now rewrite Hnull. }
  split.
  { intros row s Hget. unfold countKey, toStrOr. now rewrite Hget. }
  split.
  { intros row r Hget. unfold countKey, toStrOr. now rewrite Hget. }
  split; [exact Hcounts|].
  split; [apply sort_by_perm|].
  split.
  { eapply StronglySorted_impl; [|apply sort_by_sorted].
    - intros a b Hab. apply Nat.ltb_ge in Hab. exact Hab.
    - intros a b Hab. apply Nat.ltb_lt in Hab. apply Nat.ltb_ge. lia.
    - intros a b c Hab Hbc. apply Nat.ltb_ge in Hab, Hbc. apply Nat.ltb_ge. lia. }
  split.
  { intros c. apply sort_by_stable. intros a b Ha Hb.
    apply Nat.eqb_eq in Ha, Hb. apply Nat.ltb_ge. lia. }
  split; [exact Htop|].
  split; [rewrite Htop; apply firstn_le_length|].
  split.
  { rewrite Htop, length_firstn. unfold ranking. rewrite sort_by_length.
    unfold counts. now rewrite length_map. }
  rewrite Htop. apply firstn_prefix.
Qed.

(** C8, as stated, fails: an empty string is counted under the empty
    string, apart from the null value counted under ["null"]. *)
Lemma computeCategoricalStats_empty_counterexample :
  @computeCategoricalStats integerRuntime
    [[("city", VStr "")]; [("city", VNull)]; [("city", VStr "")]] "city"
  = [("", 2%nat); ("null", 1%nat)].
Proof. reflexivity. Qed.

(** ** Time series *)

Lemma firstn_incl {A : Type} (n : nat) (l : list A) (x : A) : In x (firstn n l) -> In x l.
Proof.
  revert l. induction n as [|n IH]; intros [|a l]; simpl; try tauto.
  intros [->|Hin]; [now left | right; now apply IH].
Qed.

Lemma hasType_exclusive (types : ColumnTypes) (t1 t2 : ColumnType) (c : string) :
  hasType types t1 c = true -> hasType types t2 c = true -> t1 = t2.
Proof.
  unfold hasType. destruct (typeOf types c) as [t|]; [|discriminate].
  destruct t, t1, t2; simpl; congruence.
Qed.

Lemma dateKey_object2 `{Runtime} (d n k : string) (v : value) :
  d <> n -> dateKey d (object2 d (VStr k) n v) = k.
Proof.
  intros Hne. unfold dateKey, object2.
  destruct (String.eqb_spec d n) as [Heq|_]; [contradiction|].
  simpl. now rewrite String.eqb_refl.
Qed.

Lemma string_compare_trans (a b c : string) :
  String.compare a b <> Gt -> String.compare b c <> Gt -> String.compare a c <> Gt.
Proof.
  revert b c. induction a as [|x a IH]; intros [|y b] [|z c]; simpl; try congruence.
  unfold Ascii.compare.
  destruct (N.compare_spec (N_of_ascii x) (N_of_ascii y)) as [Hxy|Hxy|Hxy];
    destruct (N.compare_spec (N_of_ascii y) (N_of_ascii z)) as [Hyz|Hyz|Hyz];
    try congruence; intros H1 H2.
  - rewrite Hxy, Hyz, N.compare_refl. now apply (IH b c).
  - rewrite Hxy. apply N.compare_lt_iff in Hyz. now rewrite Hyz.
  - rewrite <- Hyz. apply N.compare_lt_iff in Hxy. now rewrite Hxy.
  - assert (Hxz : (N_of_ascii x < N_of_ascii z)%N) by (eapply N.lt_trans; eassumption).
    apply N.compare_lt_iff in Hxz. now rewrite Hxz.
Qed.

Lemma string_compare_asym (a b : string) :
  String.compare a b = Gt -> String.compare b a <> Gt.
Proof.
  intros Hab. rewrite String.compare_antisym, Hab. discriminate.
Qed.

(** C9, as amended.  Under a collation that is a consistent comparator,
    [analyzeDataset] appends, after the aggregations by categorical
    column, one time series for each of the first 2 date columns and each
    of the first 4 numeric columns, in that order, at most 8 in all; these
    are the only aggregations grouped by a date column; each one has
    operation Sum, and its rows are those of the aggregator for that pair,
    one per group key, put in ascending order of the key by the collation
    of the host ([localeCompare]) instead of the descending order of
    value.  That order is the lexicographic order where the collation is
    the comparison of the strings by code units. *)
Theorem timeSeries_spec `{Runtime} (rows : list Record) (cols : list string)
  (types : ColumnTypes)
  (Hasym : forall a b, localeCompare a b = Gt -> localeCompare b a <> Gt)
  (Htrans : forall a b c, localeCompare a b <> Gt -> localeCompare b c <> Gt ->
                          localeCompare a c <> Gt) :
  let s := analyzeDataset rows cols types in
  let dateCols := firstn 2 (dateColumns s) in
  let numCols := firstn 4 (numericColumns s) in
  let series := dateAggregations rows (dateColumns s) (numericColumns s) in
  (exists others,
     precomputedAggregations s = others ++ series /\
     forall a, In a others -> hasType types TString (groupBy a) = true) /\
  (forall agg, In agg (precomputedAggregations s) ->
     hasType types TDate (groupBy agg) = true -> In agg series) /\
  map (fun a => (groupBy a, metric a)) series = list_prod dateCols numCols /\
  (length dateCols <= 2)%nat /\ (length numCols <= 4)%nat /\ (length series <= 8)%nat /\
  (forall agg, In agg series ->
     In (groupBy agg) dateCols /\ In (metric agg) numCols /\
     hasType types TDate (groupBy agg) = true /\
     hasType types TNumber (metric agg) = true /\
     operation agg = OpSum /\
     Permutation (data agg) (aggregateByGroup rows (groupBy agg) (metric agg) OpSum) /\
     Permutation (map (dateKey (groupBy agg)) (data agg))
                 (distinctKeys (map (groupKey (groupBy agg)) rows)) /\
     StronglySorted
       (fun a b => localeCompare (dateKey (groupBy agg) a) (dateKey (groupBy agg) b) <> Gt)
       (data agg) /\
     ((forall a b, localeCompare a b = String.compare a b) ->
      StronglySorted
        (fun a b => String.compare (dateKey (groupBy agg) a) (dateKey (groupBy agg) b) <> Gt)
        (data agg))).
Proof.
  intros s dateCols numCols series.
  assert (Hcat : forall a,
            In a (categoricalAggregations rows (categoricalColumns s) (numericColumns s)) ->
            hasType types TString (groupBy a) = true).
  { intros a Hin. unfold categoricalAggregations in Hin. apply in_flat_map in Hin.
    destruct Hin as [catCol [Hc Hin]].
    apply firstn_incl in Hc. simpl in Hc. apply filter_In in Hc.
    destruct (20 <? distinctCount (columnValues rows catCol))%nat; [contradiction|].
    apply in_flat_map in Hin. destruct Hin as [numCol [_ Hin]].
    simpl in Hin. destruct Hin as [<-|[<-|[]]]; apply Hc. }
  assert (Hlen2 : (length dateCols <= 2)%nat) by apply firstn_le_length.
  assert (Hlen4 : (length numCols <= 4)%nat) by apply firstn_le_length.
  assert (Hpairs : map (fun a => (groupBy a, metric a)) series = list_prod dateCols numCols).
  { unfold series, dateAggregations. fold dateCols numCols. clear.
    induction dateCols as [|d t IH]; simpl; [reflexivity|].
    rewrite map_app, IH, map_map. reflexivity. }
  split.
  { exists (categoricalAggregations rows (categoricalColumns s) (numericColumns s)).
    split; [reflexivity | exact Hcat]. }
  split.
  { intros agg Hin Hdate. simpl in Hin. apply in_app_or in Hin.
    destruct Hin as [Hin|Hin]; [|exact Hin].
    pose proof (hasType_exclusive _ _ _ _ (Hcat _ Hin) Hdate). discriminate. }
  split; [exact Hpairs|].
  split; [exact Hlen2|]. split; [exact Hlen4|].
  split.
  { rewrite <- (length_map (fun a => (groupBy a, metric a))), Hpairs, length_prod. nia. }
  intros agg Hin. unfold series, dateAggregations in Hin. apply in_flat_map in Hin.
  destruct Hin as [d [Hd Hin]]. apply in_map_iff in Hin. destruct Hin as [n [<- Hn]].
  fold dateCols in Hd. fold numCols in Hn.
  assert (Hdt : hasType types TDate d = true).
  { apply firstn_incl in Hd. simpl in Hd. now apply filter_In in Hd. }
  assert (Hnt : hasType types TNumber n = true).
  { apply firstn_incl in Hn. simpl in Hn. now apply filter_In in Hn. }
  assert (Hne : d <> n).
  { intros ->. pose proof (hasType_exclusive _ _ _ _ Hdt Hnt). discriminate. }
  cbn [groupBy metric operation data timeSeries].
  split; [exact Hd|]. split; [exact Hn|]. split; [exact Hdt|]. split; [exact Hnt|].
  split; [reflexivity|].
  split; [apply sort_by_perm|].
  split.
  { eapply perm_trans; [apply Permutation_map, sort_by_perm|].
    rewrite aggregateByGroup_closed.
    eapply perm_trans; [apply Permutation_map, sort_by_perm|].
    rewrite map_map. rewrite (map_ext _ (fun k => k)); [rewrite map_id; apply Permutation_refl|].
    intros k. unfold expectedRow. now apply dateKey_object2. }
  assert (Hsorted : StronglySorted
            (fun a b => localeCompare (dateKey d a) (dateKey d b) <> Gt)
            (sort_by (dateAfter d) (aggregateByGroup rows d n OpSum))).
  2: { split; [exact Hsorted|]. intros Hcode.
       eapply StronglySorted_impl; [|exact Hsorted].
       intros a b Hab. now rewrite <- Hcode. }
  eapply StronglySorted_impl; [|apply sort_by_sorted].
  - intros a b Hab. unfold dateAfter in Hab. unfold dateKey. 
    destruct (localeCompare (toStr (get a d)) (toStr (get b d))); discriminate.
  - intros a b Hab. unfold dateAfter in *.
    destruct (localeCompare (toStr (get a d)) (toStr (get b d))) eqn:Hc; try discriminate.
    apply Hasym in Hc.
    destruct (localeCompare (toStr (get b d)) (toStr (get a d))); congruence.
  - intros a b c Hab Hbc. unfold dateAfter in *.
    assert (H1 : localeCompare (toStr (get a d)) (toStr (get b d)) <> Gt)
      by (destruct (localeCompare (toStr (get a d)) (toStr (get b d))); congruence).
    assert (H2 : localeCompare (toStr (get b d)) (toStr (get c d)) <> Gt)
      by (destruct (localeCompare (toStr (get b d)) (toStr (get c d))); congruence).
    pose proof (Htrans _ _ _ H1 H2) as H3.
    destruct (localeCompare (toStr (get a d)) (toStr (get c d))); congruence.
Qed.

(** The theorem at the two days of sales, under the code-unit collation. *)
Lemma timeSeries_spec_witness :
  (forall a b, String.compare a b = Gt -> String.compare b a <> Gt) /\
  (forall a b c, String.compare a b <> Gt -> String.compare b c <> Gt ->
                 String.compare a c <> Gt) /\
  (forall agg,
     In agg (@dateAggregations integerRuntime salesRows ["day"] ["sales"]) ->
     StronglySorted
       (fun a b => String.compare (@dateKey integerRuntime (groupBy agg) a)
                                  (@dateKey integerRuntime (groupBy agg) b) <> Gt)
       (data agg)).
Proof.
  split; [exact string_compare_asym|].
  split; [exact string_compare_trans|].
  intros agg Hin.
  exact (proj1 (proj2 (proj2 (proj2 (proj2 (proj2 (proj2 (proj2
    (proj2 (proj2 (proj2 (proj2 (proj2 (proj2
      (@timeSeries_spec integerRuntime salesRows ["day"; "sales"]
         [("day", TDate); ("sales", TNumber)]
         string_compare_asym string_compare_trans)))))) agg Hin))))))))).
Defined.

(** C9, as stated, fails: under the alphabetic collation the day of
    February, written in lower case, comes before the day of January,
    though its string is the greater of the two. *)
Lemma timeSeries_order_counterexample :
  detectColumnTypes (H := alphabeticRuntime) monthRows = [("day", TDate); ("sales", TNumber)] /\
  precomputedAggregations
    (analyzeDataset (H := alphabeticRuntime) monthRows (columnsOf monthRows)
       (detectColumnTypes (H := alphabeticRuntime) monthRows))
  = [timeSeries (H := alphabeticRuntime) monthRows "day" "sales"] /\
  data (timeSeries (H := alphabeticRuntime) monthRows "day" "sales")
  = [ [("day", VStr "feb 1, 2024"); ("sales", VNum 4)];
      [("day", VStr "Jan 5, 2024"); ("sales", VNum 9)] ] /\
  String.compare "feb 1, 2024" "Jan 5, 2024" = Gt /\
  ~ StronglySorted
      (fun a b => String.compare (dateKey (H := alphabeticRuntime) "day" a)
                                 (dateKey (H := alphabeticRuntime) "day" b) <> Gt)
      (data (timeSeries (H := alphabeticRuntime) monthRows "day" "sales")).
Proof.
  assert (E : data (timeSeries (H := alphabeticRuntime) monthRows "day" "sales")
              = [ [("day", VStr "feb 1, 2024"); ("sales", VNum 4)];
                  [("day", VStr "Jan 5, 2024"); ("sales", VNum 9)] ])
    by (vm_compute; reflexivity).
  split; [vm_compute; reflexivity|].
  split; [vm_compute; reflexivity|].
  split; [exact E|].
  split; [reflexivity|].
  rewrite E. intros Hs. inversion Hs as [|? ? _ Hall]; subst.
  inversion Hall as [|? ? Hle _]; subst. apply Hle. reflexivity.
Qed.

(** The time series of the two days: the aggregator puts the larger day
    first, the profile puts the earlier day first. *)
Example timeSeries_example :
  @aggregateByGroup integerRuntime salesRows "day" "sales" OpSum
  = [ [("day", VStr "2024-01-02"); ("sales", VNum 9)];
      [("day", VStr "2024-01-01"); ("sales", VNum 4)] ] /\
  data (@timeSeries integerRuntime salesRows "day" "sales")
  = [ [("day", VStr "2024-01-01"); ("sales", VNum 4)];
      [("day", VStr "2024-01-02"); ("sales", VNum 9)] ].
Proof. vm_compute. split; reflexivity. Qed.

(** ** Correlations *)

Lemma pairedSamples_length (rows : list Record) (x y : string) :
  length (pairedSamples rows x y)
  = length (filter (fun row => hasNumber x row && hasNumber y row) rows).
Proof.
  induction rows as [|row t IH]; simpl; [reflexivity|].
  unfold hasNumber at 1 2.
  destruct (asNumber (get row x)), (asNumber (get row y)); simpl; now rewrite IH.
Qed.

Lemma nth_error_firstn_iff {A : Type} (n : nat) (l : list A) (i : nat) (x : A) :
  nth_error (firstn n l) i = Some x <-> (i < n)%nat /\ nth_error l i = Some x.
Proof.
  revert l i. induction n as [|n IH]; intros l i.
  - simpl. split; [destruct i; discriminate | lia].
  - destruct l as [|a l]; simpl.
    + split; [destruct i; discriminate | intros [_ H']; destruct i; discriminate].
    + destruct i as [|i]; simpl.
      * split; [intros H'; split; [lia | exact H'] | tauto].
      * rewrite IH. split; intros [H1 H2]; (split; [lia | exact H2]).
Qed.

(** The pairs are those of two positions [i < j] of the list. *)
Lemma pairsOf_spec (l : list string) (x y : string) :
  In (x, y) (pairsOf l) <->
  exists i j, (i < j)%nat /\ nth_error l i = Some x /\ nth_error l j = Some y.
Proof.
  induction l as [|a t IH]; simpl.
  - split; [tauto|]. intros (i & j & _ & Hi & _). destruct i; discriminate.
  - rewrite in_app_iff, in_map_iff, IH. split.
    + intros [[y' [Heq Hin]] | (i & j & Hij & Hi & Hj)].
      * inversion Heq; subst. apply In_nth_error in Hin. destruct Hin as [k Hk].
        exists 0%nat, (S k). split; [lia|]. split; [reflexivity | exact Hk].
      * exists (S i), (S j). split; [lia|]. split; assumption.
    + intros (i & j & Hij & Hi & Hj). destruct j as [|j]; [lia|]. simpl in Hj.
      destruct i as [|i]; simpl in Hi.
      * left. exists y. inversion Hi; subst. split; [reflexivity|].
        eapply nth_error_In, Hj.
      * right. exists i, j. split; [lia|]. split; assumption.
Qed.

(** C10.  Every correlation in the summary is that of a pair [i < j] of
    the first 5 numeric columns and was computed from the rows where both
    columns hold valid numbers, at least 3 of them; a pair with fewer than
    3 such rows has no entry at all, and a pair with 3 or more has one. *)
Theorem correlations_spec `{Runtime} (rows : list Record) (cols : list string)
  (types : ColumnTypes) :
  let s := analyzeDataset rows cols types in
  let candidates := pairsOf (firstn 5 (numericColumns s)) in
  (forall x y, In (x, y) candidates <->
     exists i j, (i < j < 5)%nat /\ nth_error (numericColumns s) i = Some x
                 /\ nth_error (numericColumns s) j = Some y) /\
  (forall x y, length (pairedSamples rows x y)
               = length (filter (fun row => hasNumber x row && hasNumber y row) rows)) /\
  (forall c, In c (correlations s) ->
     In (xColumn c, yColumn c) candidates /\
     (3 <= length (pairedSamples rows (xColumn c) (yColumn c)))%nat /\
     correlation c
       = pearsonCorrelation (map fst (pairedSamples rows (xColumn c) (yColumn c)))
                            (map snd (pairedSamples rows (xColumn c) (yColumn c))) /\
     scatterData c = firstn 100 (pairedSamples rows (xColumn c) (yColumn c))) /\
  (forall x y, (length (pairedSamples rows x y) < 3)%nat ->
     forall c, In c (correlations s) -> ~ (xColumn c = x /\ yColumn c = y)) /\
  (forall x y, In (x, y) candidates -> (3 <= length (pairedSamples rows x y))%nat ->
     exists c, In c (correlations s) /\ xColumn c = x /\ yColumn c = y).
Proof.
  intros s candidates.
  assert (Hin : forall c, In c (correlations s) ->
            In (xColumn c, yColumn c) candidates /\
            (3 <= length (pairedSamples rows (xColumn c) (yColumn c)))%nat /\
            correlation c
              = pearsonCorrelation (map fst (pairedSamples rows (xColumn c) (yColumn c)))
                                   (map snd (pairedSamples rows (xColumn c) (yColumn c))) /\
            scatterData c = firstn 100 (pairedSamples rows (xColumn c) (yColumn c))).
  { intros c Hc. simpl in Hc. unfold correlationsOf in Hc. apply in_flat_map in Hc.
    destruct Hc as [[x y] [Hp Hc]]. unfold correlate in Hc. cbn [fst snd] in Hc.
    destruct (3 <=? length (pairedSamples rows x y))%nat eqn:H3; [|contradiction].
    destruct Hc as [<-|[]]. cbn [xColumn yColumn correlation scatterData].
    apply Nat.leb_le in H3. auto. }
  split.
  { intros x y. unfold candidates. rewrite pairsOf_spec.
    split; intros (i & j & Hij & Hi & Hj); exists i, j.
    - apply nth_error_firstn_iff in Hi, Hj. split; [lia | tauto].
    - split; [lia|]. split; apply nth_error_firstn_iff; split; (lia || assumption). }
  split; [intros x y; apply pairedSamples_length|].
  split; [exact Hin|].
  split.
  { intros x y Hlt c Hc [Hx Hy]. destruct (Hin c Hc) as [_ [H3 _]].
    rewrite Hx, Hy in H3. lia. }
  intros x y Hp H3.
  exists {| xColumn := x; yColumn := y;
            correlation := pearsonCorrelation (map fst (pairedSamples rows x y))
                                              (map snd (pairedSamples rows x y));
            scatterData := firstn 100 (pairedSamples rows x y) |}.
  split; [|split; reflexivity].
  simpl. unfold correlationsOf. apply in_flat_map. exists (x, y).
  split; [exact Hp|]. unfold correlate. cbn [fst snd].
  apply Nat.leb_le in H3. rewrite H3. now left.
Qed.

(** * Further properties of the profile *)

(** ** Columns by type *)

Lemma hasType_iff (types : ColumnTypes) (t : ColumnType) (c : string) :
  hasType types t c = true <-> typeOf types c = Some t.
Proof.
  unfold hasType. destruct (typeOf types c) as [t'|].
  - destruct t', t; simpl; split; intros H; try discriminate; try reflexivity;
      inversion H.
  - split; discriminate.
Qed.

(** The three column lists of a summary are the columns passed that are
    typed number, string and date, each list in the order the columns were
    passed; no column is in two of them.  A column without a declared type
    is in none, so it gets no aggregation and no correlation. *)
Theorem analyzeDataset_columns_by_type `{Runtime} (rows : list Record) (cols : list string)
  (types : ColumnTypes) :
  let s := analyzeDataset rows cols types in
  numericColumns s = filter (fun c => hasType types TNumber c) cols /\
  categoricalColumns s = filter (fun c => hasType types TString c) cols /\
  dateColumns s = filter (fun c => hasType types TDate c) cols /\
  (forall c t, hasType types t c = true <-> typeOf types c = Some t) /\
  (forall c, In c (numericColumns s) <-> In c cols /\ typeOf types c = Some TNumber) /\
  (forall c, In c (categoricalColumns s) <-> In c cols /\ typeOf types c = Some TString) /\
  (forall c, In c (dateColumns s) <-> In c cols /\ typeOf types c = Some TDate) /\
  (forall c, ~ (In c (numericColumns s) /\ In c (categoricalColumns s))) /\
  (forall c, ~ (In c (numericColumns s) /\ In c (dateColumns s))) /\
  (forall c, ~ (In c (categoricalColumns s) /\ In c (dateColumns s))) /\
  (length (numericColumns s) + length (categoricalColumns s) + length (dateColumns s)
   <= length cols)%nat /\
  (forall c, In c cols -> typeOf types c = None ->
     ~ In c (numericColumns s) /\ ~ In c (categoricalColumns s) /\ ~ In c (dateColumns s) /\
     (forall agg, In agg (precomputedAggregations s) ->
        groupBy agg <> c /\ metric agg <> c) /\
     (forall r, In r (correlations s) -> xColumn r <> c /\ yColumn r <> c)).
Proof.
  intros s.
  assert (Hmem : forall t c, In c (filter (hasType types t) cols)
                             <-> In c cols /\ typeOf types c = Some t).
  { intros t c. rewrite filter_In, hasType_iff. reflexivity. }
  split; [reflexivity|]. split; [reflexivity|]. split; [reflexivity|].
  split; [intros c t; apply hasType_iff|].
  split; [apply (Hmem TNumber)|]. split; [apply (Hmem TString)|].
  split; [apply (Hmem TDate)|].
  split.
  { intros c [H1 H2]. apply (Hmem TNumber) in H1. apply (Hmem TString) in H2.
    destruct H1 as [_ H1], H2 as [_ H2]. congruence. }
  split.
  { intros c [H1 H2]. apply (Hmem TNumber) in H1. apply (Hmem TDate) in H2.
    destruct H1 as [_ H1], H2 as [_ H2]. congruence. }
  split.
  { intros c [H1 H2]. apply (Hmem TString) in H1. apply (Hmem TDate) in H2.
    destruct H1 as [_ H1], H2 as [_ H2]. congruence. }
  split.
  { simpl.
    assert (Hnc : (length (filter (hasType types TNumber) cols)
                   + length (filter (hasType types TString) cols)
                   <= length (filter (fun c => negb (hasType types TDate c)) cols))%nat).
    { clear. induction cols as [|c t IH]; simpl; [lia|].
      destruct (hasType types TNumber c) eqn:Hn, (hasType types TString c) eqn:Hs,
               (hasType types TDate c) eqn:Hd; simpl; try lia;
        try (pose proof (hasType_exclusive _ _ _ _ Hn Hs); discriminate);
        try (pose proof (hasType_exclusive _ _ _ _ Hn Hd); discriminate);
        try (pose proof (hasType_exclusive _ _ _ _ Hs Hd); discriminate). }
    pose proof (filter_length (hasType types TDate) cols). lia. }
  intros c Hin Hnone.
  assert (Hnot : forall t, ~ In c (filter (hasType types t) cols)).
  { intros t Hc. apply Hmem in Hc. destruct Hc as [_ Hc]. congruence. }
  split; [apply Hnot|]. split; [apply Hnot|]. split; [apply Hnot|].
  split.
  { intros agg Hagg. simpl in Hagg. apply in_app_or in Hagg. destruct Hagg as [Hagg|Hagg].
    - unfold categoricalAggregations in Hagg. apply in_flat_map in Hagg.
      destruct Hagg as [catCol [Hc Hagg]]. apply firstn_incl in Hc.
      destruct (20 <? distinctCount (columnValues rows catCol))%nat; [contradiction|].
      apply in_flat_map in Hagg. destruct Hagg as [numCol [Hn Hagg]].
      apply firstn_incl in Hn. simpl in Hagg.
      destruct Hagg as [<-|[<-|[]]]; simpl; split; intros ->;
        first [ exact (Hnot _ Hc) | exact (Hnot _ Hn) ].
    - unfold dateAggregations in Hagg. apply in_flat_map in Hagg.
      destruct Hagg as [dateCol [Hd Hagg]]. apply firstn_incl in Hd.
      apply in_map_iff in Hagg. destruct Hagg as [numCol [<- Hn]].
      apply firstn_incl in Hn. simpl. split; intros ->;
        first [ exact (Hnot _ Hd) | exact (Hnot _ Hn) ]. }
  { intros r Hr. simpl in Hr. unfold correlationsOf in Hr. apply in_flat_map in Hr.
    destruct Hr as [[x y] [Hp Hr]]. unfold correlate in Hr. cbn [fst snd] in Hr.
    destruct (3 <=? length (pairedSamples rows x y))%nat; [|contradiction].
    destruct Hr as [<-|[]]. cbn [xColumn yColumn].
    apply pairsOf_spec in Hp. destruct Hp as (i & j & _ & Hi & Hj).
    apply nth_error_In, firstn_incl in Hi. apply nth_error_In, firstn_incl in Hj.
    split; intros ->; [exact (Hnot _ Hi) | exact (Hnot _ Hj)]. }
Qed.

(** ** Counts of a column *)

Lemma setOf_length_le (l : list (option value)) : (length (setOf l) <= length l)%nat.
Proof.
  induction l as [|a t IH]; simpl; [lia|].
  destruct (existsb (sameValueZero a) t); simpl; lia.
Qed.

Lemma setOf_nonempty (l : list (option value)) : l <> [] -> (1 <= length (setOf l))%nat.
Proof.
  induction l as [|a t IH]; intros Hne; [contradiction|]. simpl.
  destruct (existsb (sameValueZero a) t) eqn:E; [|simpl; lia].
  apply IH. intros ->. discriminate.
Qed.

Lemma isNullOrEmpty_not_number (v : option value) :
  isNullOrEmpty v = true -> asNumber v = None.
Proof. destruct v as [[|x|s]|]; simpl; congruence. Qed.

Lemma keepNumbers_length (vs : list (option value)) :
  (length (keepNumbers vs) + length (filter isNullOrEmpty vs) <= length vs)%nat.
Proof.
  induction vs as [|v t IH]; simpl; [lia|].
  destruct (isNullOrEmpty v) eqn:Hv.
  - rewrite (isNullOrEmpty_not_number v Hv). simpl. lia.
  - destruct (asNumber v); simpl; lia.
Qed.

(** In every column's statistics the null count and the unique count are
    at most the row count; the unique count is 0 only for an empty
    dataset; the null count is the number of rows whose value is null,
    missing or the empty string, and together with the valid numbers it
    never exceeds the row count, so a column whose values are all null or
    empty has no numeric statistics. *)
Theorem columnStats_counts `{Runtime} (rows : list Record) (cols : list string)
  (types : ColumnTypes) :
  let s := analyzeDataset rows cols types in
  forall cs, In cs (columnStats s) ->
    (cs_nullCount cs <= rowCount s)%nat /\
    (cs_uniqueCount cs <= rowCount s)%nat /\
    (cs_uniqueCount cs = 0%nat <-> rows = []) /\
    cs_nullCount cs
      = length (filter (fun row => isNullOrEmpty (get row (cs_column cs))) rows) /\
    (length (keepNumbers (columnValues rows (cs_column cs))) + cs_nullCount cs
     <= rowCount s)%nat /\
    (cs_nullCount cs = rowCount s -> cs_numeric cs = None).
Proof.
  intros s cs Hin. simpl in Hin. apply in_map_iff in Hin. destruct Hin as [col [<- _]].
  rewrite columnStatsOf_column.
  assert (Hnull : cs_nullCount (columnStatsOf rows types col)
                  = length (filter isNullOrEmpty (columnValues rows col))).
  { unfold columnStatsOf. destruct (typeOf types col) as [[]|]; reflexivity. }
  assert (Huniq : cs_uniqueCount (columnStatsOf rows types col)
                  = distinctCount (columnValues rows col)).
  { unfold columnStatsOf. destruct (typeOf types col) as [[]|]; reflexivity. }
  assert (Hlen : length (columnValues rows col) = length rows)
    by (unfold columnValues; apply length_map).
  pose proof (keepNumbers_length (columnValues rows col)) as Hk.
  rewrite Hnull, Huniq. change (rowCount s) with (length rows).
  split; [rewrite <- Hlen; apply filter_length_le|].
  split; [rewrite <- Hlen; apply setOf_length_le|].
  split.
  { unfold distinctCount. split.
    - intros H0. destruct rows as [|r t]; [reflexivity|].
      assert (Hne : columnValues (r :: t) col <> []) by discriminate.
      pose proof (setOf_nonempty _ Hne). lia.
    - intros ->. reflexivity. }
  split.
  { unfold columnValues. clear. induction rows as [|r t IH]; simpl; [reflexivity|].
    destruct (isNullOrEmpty (get r col)); simpl; now rewrite IH. }
  split; [lia|].
  intros Hall.
  assert (Hnone : keepNumbers (columnValues rows col) = []).
  { destruct (keepNumbers (columnValues rows col)); [reflexivity | simpl in Hk; lia]. }
  unfold columnStatsOf. destruct (typeOf types col) as [[]|]; try reflexivity.
  cbn [cs_numeric]. now apply computeNumericStats_None.
Qed.

Lemma columnStats_counts_witness :
  let types := [("region", TString); ("revenue", TNumber)] in
  let cs := @columnStatsOf integerRuntime scenarioA types "revenue" in
  In cs (columnStats (@analyzeDataset integerRuntime scenarioA ["region"; "revenue"] types)) /\
  (cs_nullCount cs <= 3)%nat.
Proof.
  intros types cs.
  assert (Hin : In cs (columnStats
                         (@analyzeDataset integerRuntime scenarioA ["region"; "revenue"] types)))
    by (right; left; reflexivity).
  split; [exact Hin|].
  apply (@columnStats_counts integerRuntime scenarioA ["region"; "revenue"] types cs Hin).
Defined.

(** ** Aggregations by categorical column *)

Lemma flat_map_length_le {A B : Type} (f : A -> list B) (l : list A) (k : nat) :
  (forall a, In a l -> length (f a) <= k)%nat ->
  (length (flat_map f l) <= k * length l)%nat.
Proof.
  induction l as [|a t IH]; intros Hall; simpl; [lia|].
  rewrite length_app.
  pose proof (Hall a (or_introl eq_refl)).
  assert (length (flat_map f t) <= k * length t)%nat
    by (apply IH; intros b Hb; apply Hall; now right).
  lia.
Qed.

(** Values that a [Set] holds once have one string form. *)
Lemma toStr_sameValueZero `{Runtime} (a b : option value) :
  sameValueZero a b = true -> toStr a = toStr b.
Proof.
  destruct a as [[|x|s]|], b as [[|y|t]|]; cbn [sameValueZero]; try discriminate;
    try reflexivity.
  - intros Hxy. cbn [toStr stringOfValue]. unfold numberString.
    apply orb_true_iff in Hxy. destruct Hxy as [Heq|Hnan].
    + destruct (eqb_not_nan _ _ Heq) as [Hx Hy]. rewrite Hx, Hy.
      destruct (eqb_eq_or_zero _ _ Heq) as [->|[Hx0 Hy0]]; [reflexivity|].
      now rewrite Hx0, Hy0.
    + apply andb_true_iff in Hnan. destruct Hnan as [Hx Hy]. now rewrite Hx, Hy.
  - intros Hst. apply String.eqb_eq in Hst. now subst.
Qed.

Lemma toStrOr_sameValueZero `{Runtime} (dflt : string) (a b : option value) :
  sameValueZero a b = true -> toStrOr dflt a = toStrOr dflt b.
Proof.
  intros Hab. unfold toStrOr. rewrite (toStr_sameValueZero a b Hab).
  destruct a as [[|x|s]|], b as [[|y|t]|]; cbn [sameValueZero] in Hab; try discriminate;
    reflexivity.
Qed.

Lemma setOf_covers (F : option value -> string) (vs : list (option value)) :
  (forall a b, sameValueZero a b = true -> F a = F b) ->
  forall v, In v vs -> exists v', In v' (setOf vs) /\ F v' = F v.
Proof.
  intros HF. induction vs as [|a t IH]; intros v Hv; [contradiction|]. simpl.
  destruct (existsb (sameValueZero a) t) eqn:E.
  - destruct Hv as [<-|Hv]; [|now apply IH].
    apply existsb_exists in E. destruct E as [b [Hb Hab]].
    destruct (IH b Hb) as [b' [Hb' Heq]]. exists b'. split; [exact Hb'|].
    rewrite Heq. symmetry. now apply HF.
  - destruct Hv as [<-|Hv]; [exists a; split; [now left | reflexivity]|].
    destruct (IH v Hv) as [v' [Hv' Heq]]. exists v'. split; [now right | exact Heq].
Qed.

(** Distinct keys are no more than distinct raw values. *)
Lemma distinctKeys_length_le (F : option value -> string) (vs : list (option value)) :
  (forall a b, sameValueZero a b = true -> F a = F b) ->
  (length (distinctKeys (map F vs)) <= distinctCount vs)%nat.
Proof.
  intros HF. unfold distinctCount.
  rewrite <- (length_map F (setOf vs)).
  apply NoDup_incl_length; [apply distinctKeys_NoDup|].
  intros k Hk. apply distinctKeys_In, in_map_iff in Hk. destruct Hk as [v [<- Hv]].
  destruct (setOf_covers F vs HF v Hv) as [v' [Hv' Heq]].
  rewrite <- Heq. now apply in_map.
Qed.

Lemma aggregateByGroup_length `{Runtime} (rows : list Record) (g v : string) (op : Operation) :
  length (aggregateByGroup rows g v op) = length (distinctKeys (map (groupKey g) rows)).
Proof. now rewrite aggregateByGroup_closed, sort_by_length, length_map. Qed.

(** The aggregations by categorical column are at most 48: a Sum and a
    Mean, in that order, for each of the first 4 categorical columns of at
    most 20 distinct values and each of the first 6 numeric columns; a
    column of more than 20 distinct values is skipped whole.  Each has at
    most 20 rows.  With the time series a summary holds at most 56
    aggregations. *)
Theorem categoricalAggregations_caps `{Runtime} (rows : list Record) (cols : list string)
  (types : ColumnTypes) :
  let s := analyzeDataset rows cols types in
  let cats := categoricalAggregations rows (categoricalColumns s) (numericColumns s) in
  (length cats <= 48)%nat /\
  (length (precomputedAggregations s) <= 56)%nat /\
  (forall agg, In agg cats ->
     In (groupBy agg) (firstn 4 (categoricalColumns s)) /\
     In (metric agg) (firstn 6 (numericColumns s)) /\
     (distinctCount (columnValues rows (groupBy agg)) <= 20)%nat /\
     (length (data agg) <= 20)%nat /\
     ((operation agg = OpSum /\
       description agg = ("Total " ++ metric agg ++ " by " ++ groupBy agg)%string /\
       data agg = aggregateByGroup rows (groupBy agg) (metric agg) OpSum)
      \/ (operation agg = OpMean /\
          description agg = ("Average " ++ metric agg ++ " by " ++ groupBy agg)%string /\
          data agg = aggregateByGroup rows (groupBy agg) (metric agg) OpMean))) /\
  (forall c, (20 < distinctCount (columnValues rows c))%nat ->
     forall agg, In agg cats -> groupBy agg <> c) /\
  (forall g m, In g (firstn 4 (categoricalColumns s)) ->
     In m (firstn 6 (numericColumns s)) ->
     (distinctCount (columnValues rows g) <= 20)%nat ->
     exists a b, In a cats /\ In b cats /\
       groupBy a = g /\ metric a = m /\ operation a = OpSum /\
       groupBy b = g /\ metric b = m /\ operation b = OpMean).
Proof.
  intros s cats.
  assert (Hcats : (length cats <= 48)%nat).
  { unfold cats, categoricalAggregations.
    eapply Nat.le_trans.
    - apply (flat_map_length_le _ _ 12). intros c _.
      destruct (20 <? distinctCount (columnValues rows c))%nat; [simpl; lia|].
      eapply Nat.le_trans; [apply (flat_map_length_le _ _ 2); intros; simpl; lia|].
      pose proof (firstn_le_length 6 (numericColumns s)). lia.
    - pose proof (firstn_le_length 4 (categoricalColumns s)). lia. }
  assert (Hmem : forall agg, In agg cats ->
            exists g m, In g (firstn 4 (categoricalColumns s)) /\
                        In m (firstn 6 (numericColumns s)) /\
                        (20 <? distinctCount (columnValues rows g))%nat = false /\
                        In agg (sumAndMean rows g m)).
  { intros agg Hin. unfold cats, categoricalAggregations in Hin. apply in_flat_map in Hin.
    destruct Hin as [g [Hg Hin]].
    destruct (20 <? distinctCount (columnValues rows g))%nat eqn:H20; [contradiction|].
    apply in_flat_map in Hin. destruct Hin as [m [Hm Hin]]. exists g, m. auto. }
  split; [exact Hcats|].
  split.
  { change (precomputedAggregations s)
      with (cats ++ dateAggregations rows (dateColumns s) (numericColumns s)).
    rewrite length_app.
    assert (length (dateAggregations rows (dateColumns s) (numericColumns s)) <= 8)%nat.
    { unfold dateAggregations. eapply Nat.le_trans.
      - apply (flat_map_length_le _ _ 4). intros d _. rewrite length_map.
        apply firstn_le_length.
      - pose proof (firstn_le_length 2 (dateColumns s)). lia. }
    lia. }
  split.
  { intros agg Hin. destruct (Hmem agg Hin) as (g & m & Hg & Hm & H20 & Hagg).
    apply Nat.ltb_ge in H20.
    assert (Hrows : forall op, (length (aggregateByGroup rows g m op) <= 20)%nat).
    { intros op. rewrite aggregateByGroup_length. unfold groupKey.
      rewrite <- (map_map (fun row => get row g) (toStrOr "Unknown")).
      eapply Nat.le_trans; [apply distinctKeys_length_le | exact H20].
      intros a b. apply toStrOr_sameValueZero. }
    simpl in Hagg. destruct Hagg as [<-|[<-|[]]]; cbn [groupBy metric operation description data].
    - repeat split; auto. 
    - repeat split; auto. }
  split.
  { intros c Hc agg Hin Heq. destruct (Hmem agg Hin) as (g & m & _ & _ & H20 & Hagg).
    apply Nat.ltb_ge in H20.
    simpl in Hagg. destruct Hagg as [<-|[<-|[]]]; simpl in Heq; subst g; lia. }
  intros g m Hg Hm H20.
  assert (Hin : forall a, In a (sumAndMean rows g m) -> In a cats).
  { intros a Ha. unfold cats, categoricalAggregations. apply in_flat_map. exists g.
    split; [exact Hg|]. apply Nat.ltb_ge in H20. rewrite H20.
    apply in_flat_map. exists m. auto. }
  eexists. eexists.
  split; [apply Hin; left; reflexivity|].
  split; [apply Hin; right; left; reflexivity|].
  repeat split.
Qed.

(** ** Correlation results *)

Lemma pairsOf_length (l : list string) :
  (2 * length (pairsOf l) = length l * (length l - 1))%nat.
Proof.
  induction l as [|a t IH]; simpl; [reflexivity|].
  rewrite length_app, length_map. nia.
Qed.

Lemma pairedSamples_In (rows : list Record) (x y : string) (a b : float) :
  In (a, b) (pairedSamples rows x y) <->
  exists row, In row rows /\ asNumber (get row x) = Some a /\ asNumber (get row y) = Some b.
Proof.
  induction rows as [|row t IH]; simpl.
  - split; [tauto | intros [row [[] _]]].
  - destruct (asNumber (get row x)) as [a'|] eqn:Hx, (asNumber (get row y)) as [b'|] eqn:Hy;
      simpl; rewrite IH; split.
    all: try (intros [r [Hr Hab]]; destruct Hr as [<-|Hr];
              [destruct Hab as [H1 H2]; congruence | exists r; tauto]).
    all: try (intros [r [Hr Hab]]; exists r; tauto).
    + intros [Heq|[r [Hr Hab]]].
      * inversion Heq; subst. exists row. tauto.
      * exists r. tauto.
    + intros [r [[<-|Hr] [H1 H2]]].
      * left. congruence.
      * right. exists r. tauto.
Qed.

(** A summary holds at most 10 correlation results.  Each holds the
    coefficient of all the paired samples of its two columns, and between 3
    and 100 scatter points, the first of the paired samples in row order;
    every scatter point is the pair of valid numbers that some row holds in
    the two columns. *)
Theorem correlations_bounds `{Runtime} (rows : list Record) (cols : list string)
  (types : ColumnTypes) :
  let s := analyzeDataset rows cols types in
  (length (correlations s) <= 10)%nat /\
  (forall c, In c (correlations s) ->
     let paired := pairedSamples rows (xColumn c) (yColumn c) in
     correlation c = pearsonCorrelation (map fst paired) (map snd paired) /\
     scatterData c = firstn 100 paired /\
     (3 <= length (scatterData c) <= 100)%nat /\
     length (scatterData c) = Nat.min 100 (length paired) /\
     (forall a b, In (a, b) (scatterData c) ->
        is_nan a = false /\ is_nan b = false /\
        exists row, In row rows /\ get row (xColumn c) = Some (VNum a)
                    /\ get row (yColumn c) = Some (VNum b))).
Proof.
  intros s. split.
  { change (correlations s) with (correlationsOf rows (numericColumns s)).
    unfold correlationsOf.
    eapply Nat.le_trans.
    - apply (flat_map_length_le _ _ 1). intros p _. unfold correlate.
      destruct (3 <=? _)%nat; simpl; lia.
    - pose proof (pairsOf_length (firstn 5 (numericColumns s))) as Hp.
      pose proof (firstn_le_length 5 (numericColumns s)) as H5.
      set (n := length (firstn 5 (numericColumns s))) in *.
      assert (n * (n - 1) <= 20)%nat
        by (destruct n as [|[|[|[|[|[|n]]]]]]; simpl; lia).
      lia. }
  intros c Hc. simpl in Hc. unfold correlationsOf in Hc. apply in_flat_map in Hc.
  destruct Hc as [[x y] [_ Hc]]. unfold correlate in Hc. cbn [fst snd] in Hc.
  destruct (3 <=? length (pairedSamples rows x y))%nat eqn:H3; [|contradiction].
  destruct Hc as [<-|[]]. cbn [xColumn yColumn correlation scatterData].
  apply Nat.leb_le in H3.
  split; [reflexivity|]. split; [reflexivity|].
  rewrite length_firstn.
  split; [lia|]. split; [reflexivity|].
  intros a b Hab. apply firstn_incl, pairedSamples_In in Hab.
  destruct Hab as [row [Hrow [Ha Hb]]].
  destruct (get row x) as [[|x0|sx]|] eqn:Gx; try discriminate.
  destruct (get row y) as [[|y0|sy]|] eqn:Gy; try discriminate.
  simpl in Ha, Hb.
  destruct (is_nan x0) eqn:Hx; [discriminate|].
  destruct (is_nan y0) eqn:Hy; [discriminate|].
  inversion Ha; inversion Hb; subst.
  split; [exact Hx|]. split; [exact Hy|]. exists row.
  split; [exact Hrow|]. split; assumption.
Qed.

(** ** Date ranges *)

Lemma ltb_false_not_gt (a b : string) :
  String.ltb b a = false <-> String.compare a b <> Gt.
Proof.
  unfold String.ltb. rewrite (String.compare_antisym a b).
  destruct (String.compare b a); simpl; split; intros; congruence.
Qed.

Lemma default_sort_sorted `{Runtime} (vs : list (option value)) :
  StronglySorted (fun a b => String.compare (toStr a) (toStr b) <> Gt)
    (sort_by (fun a b => String.ltb (toStr b) (toStr a)) vs).
Proof.
  eapply StronglySorted_impl; [|apply sort_by_sorted].
  - intros a b Hab. now apply ltb_false_not_gt.
  - intros a b Hab. apply ltb_false_not_gt. unfold String.ltb in Hab.
    destruct (String.compare (toStr b) (toStr a)); congruence.
  - intros a b c Hab Hbc. apply ltb_false_not_gt in Hab, Hbc. apply ltb_false_not_gt.
    eapply string_compare_trans; eassumption.
Qed.

Lemma StronglySorted_first_last {A : Type} (P : A -> A -> Prop) (l : list A) (d x : A) :
  (forall a, P a a) -> StronglySorted P l -> In x l ->
  P (nth 0 l d) x /\ P x (nth (length l - 1) l d).
Proof.
  intros Hrefl Hs Hin. apply (In_nth _ _ d) in Hin. destruct Hin as [i [Hi <-]].
  split.
  - destruct (Nat.eq_dec 0 i) as [<-|Hne]; [apply Hrefl|].
    apply (StronglySorted_nth P l d Hs); lia.
  - destruct (Nat.eq_dec i (length l - 1)) as [->|Hne]; [apply Hrefl|].
    apply (StronglySorted_nth P l d Hs); lia.
Qed.

Lemma string_compare_refl (a : string) : String.compare a a = Eq.
Proof.
  induction a as [|c a IH]; simpl; [reflexivity|].
  unfold Ascii.compare. now rewrite N.compare_refl.
Qed.

(** The date range of a date column is absent exactly when every value of
    the column is null or missing.  Otherwise [earliest] and [latest] are
    the string forms of two non-null values of the column and every
    non-null value's string form lies between them in the code-unit order
    of strings (which is the order of the dates only for formats that sort
    as text).  Columns of another type have no date range. *)
Theorem dateRange_spec `{Runtime} (rows : list Record) (cols : list string)
  (types : ColumnTypes) :
  let s := analyzeDataset rows cols types in
  forall cs, In cs (columnStats s) ->
    (cs_type cs <> TDate -> cs_dateRange cs = None) /\
    (cs_type cs = TDate ->
     match cs_dateRange cs with
     | None => forall row, In row rows -> isNullish (get row (cs_column cs)) = true
     | Some (earliest, latest) =>
         (exists row, In row rows /\ isNullish (get row (cs_column cs)) = false
                      /\ toStr (get row (cs_column cs)) = earliest) /\
         (exists row, In row rows /\ isNullish (get row (cs_column cs)) = false
                      /\ toStr (get row (cs_column cs)) = latest) /\
         String.leb earliest latest = true /\
         (forall row, In row rows -> isNullish (get row (cs_column cs)) = false ->
            String.leb earliest (toStr (get row (cs_column cs))) = true /\
            String.leb (toStr (get row (cs_column cs))) latest = true)
     end).
Proof.
  intros s cs Hin. simpl in Hin. apply in_map_iff in Hin. destruct Hin as [col [<- _]].
  rewrite columnStatsOf_column.
  split.
  { unfold columnStatsOf. destruct (typeOf types col) as [[]|]; simpl; congruence. }
  intros Hty.
  assert (Hrange : cs_dateRange (columnStatsOf rows types col) = dateRangeOf rows col).
  { revert Hty. unfold columnStatsOf.
    destruct (typeOf types col) as [[]|]; simpl; congruence. }
  rewrite Hrange. unfold dateRangeOf.
  set (dates := sort_by (fun a b => String.ltb (toStr b) (toStr a))
                  (keepNonNull (columnValues rows col))).
  assert (Hmem : forall v, In v dates <->
            exists row, In row rows /\ get row col = v /\ isNullish v = false).
  { intros v. unfold dates. rewrite sort_by_In. unfold keepNonNull, columnValues.
    rewrite filter_In, in_map_iff, negb_true_iff.
    split.
    - intros [[row [Hg Hr]] Hn]. exists row. tauto.
    - intros [row [Hr [Hg Hn]]]. split; [exists row; tauto | exact Hn]. }
  assert (Hs : StronglySorted (fun a b => String.compare (toStr a) (toStr b) <> Gt) dates)
    by apply default_sort_sorted.
  assert (Hleb : forall a b, String.compare a b <> Gt -> String.leb a b = true).
  { intros a b Hab. unfold String.leb. destruct (String.compare a b); congruence. }
  destruct (0 <? length dates)%nat eqn:Hlen.
  - apply Nat.ltb_lt in Hlen.
    assert (H0 : In (nth 0 dates None) dates) by (apply nth_In; lia).
    assert (H1 : In (nth (length dates - 1) dates None) dates) by (apply nth_In; lia).
    assert (Hfl : forall v, In v dates ->
              String.compare (toStr (nth 0 dates None)) (toStr v) <> Gt /\
              String.compare (toStr v) (toStr (nth (length dates - 1) dates None)) <> Gt).
    { intros v Hv.
      apply (StronglySorted_first_last
               (fun a b => String.compare (toStr a) (toStr b) <> Gt) dates None v);
        [|exact Hs | exact Hv].
      intros a. rewrite string_compare_refl. discriminate. }
    split.
    { apply Hmem in H0. destruct H0 as [row [Hr [Hg Hn]]]. exists row.
      rewrite Hg. auto. }
    split.
    { apply Hmem in H1. destruct H1 as [row [Hr [Hg Hn]]]. exists row.
      rewrite Hg. auto. }
    split; [apply Hleb, (Hfl _ H1)|].
    intros row Hr Hn.
    assert (Hv : In (get row col) dates) by (apply Hmem; exists row; auto).
    destruct (Hfl _ Hv) as [Ha Hb]. split; apply Hleb; assumption.
  - apply Nat.ltb_ge in Hlen. intros row Hr.
    destruct (isNullish (get row col)) eqn:Hn; [reflexivity|].
    assert (Hv : In (get row col) dates) by (apply Hmem; exists row; auto).
    destruct dates; [contradiction | simpl in Hlen; lia].
Qed.

Lemma dateRange_spec_witness :
  let rows := [[("day", VStr "2024-01-05")]; [("day", VNull)]] in
  let cs := @columnStatsOf integerRuntime rows [("day", TDate)] "day" in
  In cs (columnStats (@analyzeDataset integerRuntime rows ["day"] [("day", TDate)])) /\
  (cs_type cs <> TDate -> cs_dateRange cs = None).
Proof.
  intros rows cs.
  assert (Hin : In cs (columnStats (@analyzeDataset integerRuntime rows ["day"] [("day", TDate)])))
    by (left; reflexivity).
  split; [exact Hin|].
  apply (@dateRange_spec integerRuntime rows ["day"] [("day", TDate)] cs Hin).
Defined.

(** ** Top values *)

Lemma countOf_cons (k x : string) (l : list string) :
  countOf k (x :: l) = ((if String.eqb x k then 1 else 0) + countOf k l)%nat.
Proof.
  unfold countOf. simpl. rewrite (String.eqb_sym k x).
  destruct (String.eqb x k); reflexivity.
Qed.

Lemma countOf_partition (ks l : list string) :
  NoDup ks -> (forall x, In x l -> In x ks) ->
  list_sum (map (fun k => countOf k l) ks) = length l.
Proof.
  intros Hnd. induction l as [|x t IH]; intros Hall.
  - clear. induction ks as [|k ks IH]; simpl; [reflexivity | exact IH].
  - rewrite (map_ext _ _ (fun k => countOf_cons k x t)), list_sum_map_add.
    rewrite list_sum_indicator; [|exact Hnd | apply Hall; now left].
    rewrite IH by (intros y Hy; apply Hall; now right). reflexivity.
Qed.

Lemma countOf_pos (k : string) (l : list string) : In k l -> (1 <= countOf k l)%nat.
Proof.
  intros Hin. unfold countOf.
  assert (Hf : In k (filter (String.eqb k) l))
    by (apply filter_In; split; [exact Hin | apply String.eqb_refl]).
  destruct (filter (String.eqb k) l); [contradiction | simpl; lia].
Qed.

Lemma list_sum_perm (l1 l2 : list nat) : Permutation l1 l2 -> list_sum l1 = list_sum l2.
Proof. induction 1; simpl; lia. Qed.

Lemma list_sum_app_le (l1 l2 : list nat) : (list_sum l1 <= list_sum (l1 ++ l2))%nat.
Proof. rewrite list_sum_app. lia. Qed.

(** The counts of a column add up to the number of rows.  The top values
    are distinct; the count of each is the number of rows that show it, at
    least 1; the counts listed add up to at most the number of rows, and to
    exactly that number when the column shows at most 10 distinct values;
    and the first top value is a most frequent one.  The list is empty only
    for an empty dataset. *)
Theorem topValues_counts `{Runtime} (rows : list Record) (col : string) :
  let keys := map (countKey col) rows in
  let top := computeCategoricalStats rows col in
  list_sum (map snd (countValues rows col)) = length rows /\
  NoDup (map fst top) /\
  (forall k c, In (k, c) top -> c = countOf k keys /\ (1 <= c <= length rows)%nat) /\
  (list_sum (map snd top) <= length rows)%nat /\
  ((length (distinctKeys keys) <= 10)%nat -> list_sum (map snd top) = length rows) /\
  match top with
  | [] => rows = []
  | (k0, c0) :: _ => forall k, (countOf k keys <= c0)%nat
  end.
Proof.
  intros keys top.
  set (counts := map (fun k => (k, countOf k keys)) (distinctKeys keys)).
  set (ranking := sort_by (fun a b => (snd a <? snd b)%nat) counts).
  assert (Hcounts : countValues rows col = counts) by apply countValues_closed.
  assert (Htop : top = firstn 10 ranking).
  { unfold top, computeCategoricalStats. now rewrite Hcounts. }
  assert (Hperm : Permutation ranking counts) by apply sort_by_perm.
  assert (Hsum : list_sum (map snd counts) = length rows).
  { unfold counts. rewrite map_map. simpl.
    rewrite countOf_partition.
    - unfold keys. apply length_map.
    - apply distinctKeys_NoDup.
    - intros x Hx. now apply distinctKeys_In. }
  assert (Hsplit : ranking = top ++ skipn 10 ranking)
    by (rewrite Htop; symmetry; apply firstn_skipn).
  assert (Hle : forall k, (countOf k keys <= length rows)%nat).
  { intros k. unfold countOf. eapply Nat.le_trans; [apply filter_length_le|].
    unfold keys. now rewrite length_map. }
  assert (Hin : forall k c, In (k, c) ranking -> c = countOf k keys /\ In k keys).
  { intros k c Hkc. apply (Permutation_in _ Hperm) in Hkc. unfold counts in Hkc.
    apply in_map_iff in Hkc. destruct Hkc as [k' [Heq Hk']]. inversion Heq; subst.
    split; [reflexivity | now apply distinctKeys_In]. }
  split; [now rewrite Hcounts|].
  split.
  { assert (Hnd : NoDup (map fst ranking)).
    { apply (Permutation_NoDup (Permutation_sym (Permutation_map fst Hperm))).
      unfold counts. rewrite map_map. simpl. rewrite map_id. apply distinctKeys_NoDup. }
    rewrite Hsplit, map_app in Hnd. now apply NoDup_app_remove_r in Hnd. }
  split.
  { intros k c Hkc.
    assert (Hr : In (k, c) ranking) by (rewrite Hsplit; apply in_or_app; now left).
    destruct (Hin k c Hr) as [-> Hk]. split; [reflexivity|].
    split; [now apply countOf_pos | apply Hle]. }
  assert (Hrank : list_sum (map snd ranking) = length rows).
  { rewrite <- Hsum. apply list_sum_perm, Permutation_map, Hperm. }
  split.
  { rewrite <- Hrank. rewrite Hsplit. rewrite map_app. apply list_sum_app_le. }
  split.
  { intros H10. rewrite <- Hrank. f_equal. f_equal. rewrite Htop.
    apply firstn_all2. unfold ranking. rewrite sort_by_length. unfold counts.
    now rewrite length_map. }
  assert (Hsorted : StronglySorted (fun a b => (snd b <= snd a)%nat) ranking).
  { eapply StronglySorted_impl; [|apply sort_by_sorted].
    - intros a b Hab. apply Nat.ltb_ge in Hab. exact Hab.
    - intros a b Hab. apply Nat.ltb_lt in Hab. apply Nat.ltb_ge. lia.
    - intros a b c Hab Hbc. apply Nat.ltb_ge in Hab, Hbc. apply Nat.ltb_ge. lia. }
  destruct top as [|[k0 c0] rest] eqn:Htop'.
  - destruct ranking as [|p r] eqn:Hr; [|discriminate].
    assert (counts = []) by (apply Permutation_nil; now apply Permutation_sym).
    destruct rows as [|row rows']; [reflexivity|].
    unfold counts in H0. simpl in H0. discriminate.
  - intros k. destruct (in_dec string_dec k keys) as [Hk|Hk].
    + assert (Hkr : In (k, countOf k keys) ranking).
      { apply (Permutation_in _ (Permutation_sym Hperm)). unfold counts.
        apply in_map_iff. exists k. split; [reflexivity | now apply distinctKeys_In]. }
      rewrite Hsplit in Hsorted, Hkr. simpl in Hsorted, Hkr.
      inversion Hsorted as [|? ? _ Hall]; subst.
      destruct Hkr as [Heq|Hkr]; [inversion Heq; lia|].
      rewrite Forall_forall in Hall. apply (Hall _ Hkr).
    + rewrite countOf_zero by exact Hk. lia.
Qed.

(** ** Queries that name a column *)

Lemma lower_char_idem (c : ascii) : lower_char (lower_char c) = lower_char c.
Proof. destruct c as [[] [] [] [] [] [] [] []]; reflexivity. Qed.

Lemma toLowerCase_idem (s : string) : toLowerCase (toLowerCase s) = toLowerCase s.
Proof. induction s as [|c t IH]; simpl; [reflexivity|]. now rewrite lower_char_idem, IH. Qed.

Lemma findRelevantAggregation_cases (summary : DataSummary) (query : string) :
  let q := toLowerCase query in
  let bank := precomputedAggregations summary in
  (findRelevantAggregation summary query = None /\
   forall a, In a bank -> (scoreOf q a < 3)%nat)
  \/ (exists best,
        findRelevantAggregation summary query = Some best /\ In best bank /\
        (3 <= scoreOf q best)%nat /\
        forall a, In a bank -> (scoreOf q a <= scoreOf q best)%nat).
Proof.
  intros q bank. unfold findRelevantAggregation. fold q. fold bank.
  destruct (keepBest_fold q bank 0 None)
    as [[Heq Hall] | (before & b & after & Hb & Heq & Hs & Hbef & Haft)];
    rewrite Heq; cbn [fst snd].
  - left. change (3 <=? 0)%nat with false. cbv iota. split; [reflexivity|].
    intros a Hin. specialize (Hall a Hin). lia.
  - assert (Hmax : forall a, In a bank -> (scoreOf q a <= scoreOf q b)%nat).
    { intros a Ha. rewrite Hb in Ha. apply in_app_or in Ha.
      destruct Ha as [Ha|[<-|Ha]]; [apply Nat.lt_le_incl, Hbef, Ha | lia | apply Haft, Ha]. }
    destruct (3 <=? scoreOf q b)%nat eqn:H3.
    + right. exists b. split; [reflexivity|]. split; [rewrite Hb; apply in_elt|].
      split; [now apply Nat.leb_le | exact Hmax].
    + left. split; [reflexivity|]. apply Nat.leb_gt in H3.
      intros a Ha. specialize (Hmax a Ha). lia.
Qed.

(** The match does not depend on the case of the query.  A match is always
    an aggregation of the bank, so an empty bank matches nothing.  When the
    query contains, whatever the case, the group-by or the metric name of
    some aggregation of the bank, the query has a match, and the match
    scores at least as much as that aggregation; a query that no aggregation
    scores on matches nothing. *)
Theorem findRelevantAggregation_named_column (summary : DataSummary) (query : string) :
  let q := toLowerCase query in
  let bank := precomputedAggregations summary in
  findRelevantAggregation summary (toLowerCase query) = findRelevantAggregation summary query /\
  (forall best, findRelevantAggregation summary query = Some best -> In best bank) /\
  (bank = [] -> findRelevantAggregation summary query = None) /\
  (forall agg,
     In agg bank ->
     includes q (toLowerCase (groupBy agg)) = true
     \/ includes q (toLowerCase (metric agg)) = true ->
     exists best,
       findRelevantAggregation summary query = Some best /\
       (scoreOf q agg <= scoreOf q best)%nat) /\
  ((forall agg, In agg bank -> scoreOf q agg = 0%nat) ->
   findRelevantAggregation summary query = None).
Proof.
  intros q bank.
  pose proof (findRelevantAggregation_cases summary query) as Hcases.
  cbv zeta in Hcases. fold q bank in Hcases.
  split; [unfold findRelevantAggregation; now rewrite toLowerCase_idem|].
  split.
  { intros best Hbest.
    destruct Hcases as [[Hnone _] | (b & Hsome & Hin & _)]; [congruence|].
    rewrite Hsome in Hbest. now inversion Hbest; subst. }
  split.
  { intros Hnil.
    destruct Hcases as [[Hnone _] | (b & _ & Hin & _)]; [exact Hnone|].
    rewrite Hnil in Hin. contradiction. }
  split.
  { intros agg Hagg Hnamed.
    assert (H3 : (3 <= scoreOf q agg)%nat).
    { rewrite scoreOf_ruleScore. unfold ruleScore.
      destruct Hnamed as [Hn|Hn]; rewrite Hn; unfold points at 1 2; 
        destruct (includes q _); lia. }
    destruct Hcases as [[_ Hlow] | (b & Hsome & _ & _ & Hmax)].
    - specialize (Hlow agg Hagg). lia.
    - exists b. split; [exact Hsome | apply Hmax, Hagg]. }
  intros Hzero.
  destruct Hcases as [[Hnone _] | (b & _ & Hin & H3 & _)]; [exact Hnone|].
  rewrite (Hzero b Hin) in H3. lia.
Qed.

(** * The dataset store *)

(** ** Coercion *)

Lemma coerceEntry_key `{Runtime} (types : ColumnTypes) (entry : string * value) :
  fst (coerceEntry types entry) = fst entry.
Proof.
  destruct entry as [k v]. unfold coerceEntry.
  destruct v; try reflexivity. now destruct (hasType types TNumber k).
Qed.

Lemma get_coerce `{Runtime} (types : ColumnTypes) (row : Record) (col : string) :
  get (map (coerceEntry types) row) col = coercedCell types col (get row col).
Proof.
  induction row as [|[k v] rest IH]; [reflexivity|].
  cbn [map get].
  destruct (coerceEntry types (k, v)) as [k' v'] eqn:He.
  assert (Hk : k' = k) by (pose proof (coerceEntry_key types (k, v)) as Hf;
                           rewrite He in Hf; exact Hf).
  subst k'. destruct (String.eqb_spec k col) as [->|Hne]; [|exact IH].
  unfold coerceEntry in He. unfold coercedCell.
  destruct v; try (inversion He; reflexivity).
  destruct (hasType types TNumber col); inversion He; reflexivity.
Qed.

Lemma columnValues_coerce `{Runtime} (data : list Record) (types : ColumnTypes) (col : string) :
  columnValues (coerceData data types) col = map (coercedCell types col) (columnValues data col).
Proof.
  unfold columnValues, coerceData. rewrite !map_map. apply map_ext. intros row.
  apply get_coerce.
Qed.

Lemma coerceEntry_idem `{Runtime} (types : ColumnTypes) (entry : string * value) :
  coerceEntry types (coerceEntry types entry) = coerceEntry types entry.
Proof.
  destruct entry as [k v]. destruct v; try reflexivity.
  assert (E : coerceEntry types (k, VStr s)
              = if hasType types TNumber k then (k, toNumber s) else (k, VStr s))
    by reflexivity.
  rewrite E. destruct (hasType types TNumber k) eqn:Ht.
  - reflexivity.
  - exact E.
Qed.

Lemma columnsOf_coerce `{Runtime} (data : list Record) (types : ColumnTypes) :
  columnsOf (coerceData data types) = columnsOf data.
Proof.
  destruct data as [|first rest]; [reflexivity|]. simpl. rewrite map_map.
  apply map_ext. intros e. apply coerceEntry_key.
Qed.

(** [coerceData] keeps the number of rows and the keys of every row, in
    their order.  Read through a column, it changes only the strings of the
    columns typed Number, each into its number (NaN when it does not
    parse): the other columns read as before, a column typed Number holds
    no string afterwards and loses none of its valid numbers.  Coercing
    twice is coercing once. *)
Theorem coerceData_spec `{Runtime} (data : list Record) (types : ColumnTypes) :
  let coerced := coerceData data types in
  length coerced = length data /\
  map (map fst) coerced = map (map fst) data /\
  columnsOf coerced = columnsOf data /\
  (forall col,
     columnValues coerced col = map (coercedCell types col) (columnValues data col)) /\
  (forall col, hasType types TNumber col = false ->
     columnValues coerced col = columnValues data col) /\
  (forall col s, hasType types TNumber col = true ->
     ~ In (Some (VStr s)) (columnValues coerced col)) /\
  (forall col,
     (length (keepNumbers (columnValues data col))
      <= length (keepNumbers (columnValues coerced col)))%nat) /\
  coerceData coerced types = coerced.
Proof.
  intros coerced.
  split; [apply length_map|].
  split.
  { unfold coerced, coerceData. rewrite map_map. apply map_ext. intros row.
    rewrite map_map. apply map_ext. intros e. apply coerceEntry_key. }
  split; [apply columnsOf_coerce|].
  split; [intros col; apply columnValues_coerce|].
  split.
  { intros col Ht. unfold coerced. rewrite columnValues_coerce.
    rewrite <- (map_id (columnValues data col)) at 2. apply map_ext. intros v.
    unfold coercedCell. rewrite Ht. now destruct v as [[]|]. }
  split.
  { intros col s Ht Hin. unfold coerced in Hin. rewrite columnValues_coerce in Hin.
    apply in_map_iff in Hin. destruct Hin as [v [Hv _]].
    unfold coercedCell in Hv. rewrite Ht in Hv.
    destruct v as [[]|]; discriminate. }
  split.
  { intros col. unfold coerced. rewrite columnValues_coerce.
    induction (columnValues data col) as [|v t IH]; [simpl; lia|].
    cbn [map keepNumbers].
    destruct v as [[|x|s]|]; cbn [coercedCell asNumber length]; try lia.
    - destruct (is_nan x); cbn [length]; lia.
    - destruct (hasType types TNumber col); [|cbn [asNumber]; lia].
      destruct (asNumber (Some (toNumber s))); cbn [length]; lia. }
  unfold coerced, coerceData. rewrite map_map. apply map_ext. intros row.
  rewrite map_map. apply map_ext. intros e. apply coerceEntry_idem.
Qed.

(** ** Ingestion: inference, then coercion *)

Lemma typeOf_map_inv (f : string -> ColumnType) (cols : list string) (col : string)
  (t : ColumnType) :
  typeOf (map (fun c => (c, f c)) cols) col = Some t -> In col cols /\ f col = t.
Proof.
  induction cols as [|c rest IH]; simpl; [discriminate|].
  destruct (String.eqb_spec c col) as [->|Hne].
  - intros Heq. inversion Heq. split; [now left | reflexivity].
  - intros Hrest. destruct (IH Hrest) as [Hin Hf]. split; [now right | exact Hf].
Qed.

Lemma detectColumnTypes_typed `{Runtime} (raw : list Record) (col : string) (t : ColumnType) :
  typeOf (detectColumnTypes raw) col = Some t ->
  In col (columnsOf raw) /\ inferType raw col = t.
Proof.
  destruct raw as [|first rest]; [discriminate|].
  unfold detectColumnTypes, columnsOf. apply typeOf_map_inv.
Qed.

Lemma inferType_number `{Runtime} (raw : list Record) (col : string) :
  inferType raw col = TNumber ->
  samplesOf raw col <> [] /\ forall v, In v (samplesOf raw col) -> looksNumeric v = true.
Proof.
  unfold inferType. destruct (samplesOf raw col) as [|x rest] eqn:Hs; [discriminate|].
  cbn [length Nat.eqb].
  destruct (forallb looksNumeric (x :: rest)) eqn:Hall.
  - intros _. split; [discriminate|]. now apply forallb_forall.
  - destruct (forallb date_valid (x :: rest)); discriminate.
Qed.

Lemma sample_of_row `{Runtime} (raw : list Record) (col : string) (row : Record) (v : value) :
  In row (firstn 10 raw) -> get row col = Some v -> isNullOrEmpty (Some v) = false ->
  In v (samplesOf raw col).
Proof.
  intros Hrow Hget Hv. unfold samplesOf. apply keepPresent_In. split; [|exact Hv].
  unfold columnValues. rewrite <- Hget.
  apply (in_map (fun r => get r col)), Hrow.
Qed.

Lemma keepNumbers_nonempty (vs : list (option value)) (r : float) :
  is_nan r = false -> In (Some (VNum r)) vs -> keepNumbers vs <> [].
Proof.
  intros Hr. induction vs as [|v t IH]; [contradiction|].
  intros [->|Hin]; [cbn [keepNumbers asNumber]; rewrite Hr; discriminate|].
  cbn [keepNumbers]. destruct (asNumber v); [discriminate | now apply IH].
Qed.

Lemma is_nan_eq (x : float) : is_nan x = true -> x = nan.
Proof.
  intros H. apply Prim2SF_inj. apply is_nan_spec in H. rewrite H. reflexivity.
Qed.

Lemma coerced_no_string `{Runtime} (data : list Record) (types : ColumnTypes) (col s : string) :
  hasType types TNumber col = true ->
  ~ In (Some (VStr s)) (columnValues (coerceData data types) col).
Proof.
  intros Ht Hin. rewrite columnValues_coerce in Hin.
  apply in_map_iff in Hin. destruct Hin as [v [Hv _]].
  unfold coercedCell in Hv. rewrite Ht in Hv.
  destruct v as [[]|]; discriminate.
Qed.

(** A column that the inference types Number, after the coercion that
    follows it in [addDataset]: the column has a non-empty value among the
    first 10 rows; every non-empty string of the column in those rows
    becomes the number it parses to, which prints back as the trimmed
    string; in any row, a string that does not parse becomes NaN, and where
    the runtime reads the empty string as 0 an empty cell becomes 0; no
    string is left in the column; and when the first 10 rows hold no NaN the
    profile has numeric statistics for the column. *)
Theorem ingest_number_column `{Runtime} (raw : list Record) (col : string) :
  let types := detectColumnTypes raw in
  let data := coerceData raw types in
  hasType types TNumber col = true ->
  (exists row v,
     In row (firstn 10 raw) /\ get row col = Some v /\ isNullOrEmpty (Some v) = false) /\
  (forall row s,
     In row (firstn 10 raw) -> get row col = Some (VStr s) -> s <> "" ->
     is_nan (parseNumber s) = false /\ numberString (parseNumber s) = trim s /\
     get (map (coerceEntry types) row) col = Some (VNum (parseNumber s))) /\
  (forall row s,
     In row raw -> get row col = Some (VStr s) -> is_nan (parseNumber s) = true ->
     get (map (coerceEntry types) row) col = Some (VNum nan)) /\
  (parseNumber "" = 0 ->
   forall row, In row raw -> get row col = Some (VStr "") ->
     get (map (coerceEntry types) row) col = Some (VNum 0)) /\
  (forall s, ~ In (Some (VStr s)) (columnValues data col)) /\
  ((forall row, In row (firstn 10 raw) -> get row col <> Some (VNum nan)) ->
   computeNumericStats data col <> None).
Proof.
  intros types data Ht.
  assert (Htyped : typeOf types col = Some TNumber) by now apply hasType_iff.
  destruct (detectColumnTypes_typed raw col TNumber Htyped) as [_ Hinfer].
  destruct (inferType_number raw col Hinfer) as [Hne Hall].
  assert (Hsample : exists row v,
    In row (firstn 10 raw) /\ get row col = Some v /\ isNullOrEmpty (Some v) = false).
  { destruct (samplesOf raw col) as [|x rest] eqn:Hs; [contradiction|].
    assert (Hx : In x (samplesOf raw col)) by (rewrite Hs; now left).
    unfold samplesOf in Hx. apply keepPresent_In in Hx. destruct Hx as [Hin Hx].
    unfold columnValues in Hin. apply in_map_iff in Hin. destruct Hin as [row [Hget Hrow]].
    exists row, x. auto. }
  assert (Hstr : forall row s,
    In row (firstn 10 raw) -> get row col = Some (VStr s) -> s <> "" ->
    is_nan (parseNumber s) = false /\ numberString (parseNumber s) = trim s /\
    get (map (coerceEntry types) row) col = Some (VNum (parseNumber s))).
  { intros row s Hrow Hget Hs.
    assert (Hv : isNullOrEmpty (Some (VStr s)) = false).
    { simpl. destruct (String.eqb_spec s ""); [contradiction | reflexivity]. }
    pose proof (Hall _ (sample_of_row raw col row (VStr s) Hrow Hget Hv)) as Hnum.
    cbn [looksNumeric] in Hnum. apply andb_true_iff in Hnum. destruct Hnum as [Hn Heq].
    apply negb_true_iff in Hn.
    split; [exact Hn|]. split; [now apply String.eqb_eq|].
    rewrite get_coerce, Hget. unfold coercedCell, toNumber. now rewrite Ht. }
  split; [exact Hsample|].
  split; [exact Hstr|].
  split.
  { intros row s _ Hget Hp. rewrite get_coerce, Hget.
    unfold coercedCell, toNumber. rewrite Ht, (is_nan_eq _ Hp). reflexivity. }
  split.
  { intros Hp row _ Hget. rewrite get_coerce, Hget.
    unfold coercedCell, toNumber. now rewrite Ht, Hp. }
  split; [intros s; now apply coerced_no_string|].
  intros Hnan. rewrite computeNumericStats_None.
  destruct Hsample as (row & v & Hrow & Hget & Hv).
  assert (Hcell : exists r, is_nan r = false /\
                            get (map (coerceEntry types) row) col = Some (VNum r)).
  { destruct v as [|r|s].
    - discriminate.
    - exists r. split.
      + destruct (is_nan r) eqn:Hr; [|reflexivity].
        destruct (Hnan row Hrow). rewrite Hget, (is_nan_eq _ Hr). reflexivity.
      + rewrite get_coerce, Hget. reflexivity.
    - destruct (Hstr row s Hrow Hget) as (Hn & _ & Hr).
      + intros ->. discriminate.
      + now exists (parseNumber s). }
  destruct Hcell as [r [Hrn Hr]]. apply (keepNumbers_nonempty _ r Hrn).
  unfold data, columnValues, coerceData. rewrite map_map. rewrite <- Hr.
  apply (in_map (fun row => get (map (coerceEntry types) row) col)).
  eapply firstn_incl, Hrow.
Qed.

Lemma ingest_number_column_witness :
  hasType (@detectColumnTypes integerRuntime [[("n", VNum 1)]; [("n", VNull)]]) TNumber "n"
  = true /\
  @computeNumericStats integerRuntime
    (@coerceData integerRuntime [[("n", VNum 1)]; [("n", VNull)]]
       (@detectColumnTypes integerRuntime [[("n", VNum 1)]; [("n", VNull)]])) "n" <> None.
Proof.
  split; [reflexivity|].
  apply (@ingest_number_column integerRuntime [[("n", VNum 1)]; [("n", VNull)]] "n").
  - reflexivity.
  - intros row Hrow. simpl in Hrow.
    destruct Hrow as [<-|[<-|[]]]; cbn [get String.eqb Ascii.eqb Bool.eqb]; intros E;
      [|discriminate].
    apply (f_equal (fun v => match v with Some (VNum x) => is_nan x | _ => false end)) in E.
    vm_compute in E. discriminate.
Defined.

(** ** The store *)

Lemma decimal_inj (n m : nat) : decimal n = decimal m -> n = m.
Proof.
  unfold decimal. intros Heq. apply Unsigned.to_uint_inj.
  apply (f_equal NilEmpty.uint_of_string) in Heq. rewrite !NilEmpty.usu in Heq.
  now inversion Heq.
Qed.

Lemma datasetId_inj (n m : nat) :
  ("dataset-" ++ decimal n)%string = ("dataset-" ++ decimal m)%string -> n = m.
Proof. intros Heq. apply decimal_inj. simpl in Heq. now inversion Heq. Qed.

Lemma find_id_unique (ds : list Dataset) (d : Dataset) :
  NoDup (map ds_id ds) -> In d ds ->
  find (fun x => String.eqb (ds_id x) (ds_id d)) ds = Some d.
Proof.
  induction ds as [|x rest IH]; [contradiction|]. intros Hnd Hin.
  cbn [map] in Hnd. inversion Hnd as [|? ? Hnotin Hrest]; subst. cbn [find].
  destruct (String.eqb_spec (ds_id x) (ds_id d)) as [Heq|Hne].
  - destruct Hin as [->|Hin]; [reflexivity|].
    exfalso. apply Hnotin. rewrite Heq. now apply in_map.
  - destruct Hin as [->|Hin]; [contradiction | now apply IH].
Qed.

Lemma find_id_absent (ds : list Dataset) (id : string) :
  ~ In id (map ds_id ds) -> find (fun x => String.eqb (ds_id x) id) ds = None.
Proof.
  induction ds as [|x rest IH]; [reflexivity|]. cbn [map In find]. intros Hnotin.
  destruct (String.eqb_spec (ds_id x) id) as [Heq|_]; [tauto|]. apply IH. tauto.
Qed.

Lemma find_id_app (ds : list Dataset) (d : Dataset) :
  ~ In (ds_id d) (map ds_id ds) ->
  find (fun x => String.eqb (ds_id x) (ds_id d)) (ds ++ [d]) = Some d.
Proof.
  induction ds as [|x rest IH]; cbn [map In find app]; intros Hnotin.
  - now rewrite String.eqb_refl.
  - destruct (String.eqb_spec (ds_id x) (ds_id d)) as [Heq|_]; [tauto|]. apply IH. tauto.
Qed.

Lemma remove_ids (ds : list Dataset) (id : string) :
  map ds_id (filter (fun d => negb (String.eqb (ds_id d) id)) ds)
  = filter (fun k => negb (String.eqb k id)) (map ds_id ds).
Proof.
  induction ds as [|x rest IH]; [reflexivity|]. cbn [map filter].
  destruct (String.eqb (ds_id x) id); cbn [negb map]; now rewrite IH.
Qed.

Lemma remove_absent (ds : list Dataset) (id : string) :
  ~ In id (map ds_id ds) -> filter (fun d => negb (String.eqb (ds_id d) id)) ds = ds.
Proof.
  induction ds as [|x rest IH]; [reflexivity|]. cbn [map In filter]. intros Hnotin.
  destruct (String.eqb_spec (ds_id x) id) as [Heq|_]; [tauto|].
  cbn [negb]. rewrite IH by tauto. reflexivity.
Qed.

(** Removing the one dataset of an id leaves what was before it and what
    was after it. *)
Lemma remove_split (ds : list Dataset) (id : string) :
  NoDup (map ds_id ds) -> In id (map ds_id ds) ->
  exists before d after,
    ds = before ++ d :: after /\ ds_id d = id /\
    filter (fun d => negb (String.eqb (ds_id d) id)) ds = before ++ after.
Proof.
  induction ds as [|x rest IH]; [contradiction|]. cbn [map In filter].
  intros Hnd Hin. inversion Hnd as [|? ? Hnotin Hnd']; subst.
  destruct (String.eqb_spec (ds_id x) id) as [Heq|Hne]; cbn [negb].
  - exists [], x, rest. split; [reflexivity|]. split; [exact Heq|].
    apply remove_absent. now rewrite <- Heq.
  - destruct Hin as [Heq|Hin]; [contradiction|].
    destruct (IH Hnd' Hin) as (before & d & after & Hds & Hid & Hf).
    exists (x :: before), d, after. split; [now rewrite Hds|]. split; [exact Hid|].
    now rewrite Hf.
Qed.

Lemma remove_present_length (ds : list Dataset) (id : string) :
  NoDup (map ds_id ds) -> In id (map ds_id ds) ->
  S (length (filter (fun d => negb (String.eqb (ds_id d) id)) ds)) = length ds.
Proof.
  induction ds as [|x rest IH]; [contradiction|]. cbn [map In filter length].
  intros Hnd Hin. inversion Hnd as [|? ? Hnotin Hrest]; subst.
  destruct (String.eqb_spec (ds_id x) id) as [Heq|Hne]; cbn [negb length].
  - rewrite remove_absent; [reflexivity|]. now rewrite <- Heq.
  - destruct Hin as [Heq|Hin]; [contradiction|]. now rewrite IH.
Qed.

Lemma NoDup_filter {A : Type} (f : A -> bool) (l : list A) : NoDup l -> NoDup (filter f l).
Proof.
  induction 1 as [|x l Hnotin Hnd IH]; cbn [filter]; [constructor|].
  destruct (f x); [|exact IH]. constructor; [|exact IH].
  intros Hin. apply filter_In in Hin. tauto.
Qed.

Lemma storeInvariant_initial `{Runtime} : storeInvariant initialStore.
Proof.
  unfold storeInvariant, initialStore. cbn.
  repeat split; try lia; try constructor; intros d [].
Qed.

Lemma fresh_id `{Runtime} (store : Store) :
  storeInvariant store ->
  ~ In ("dataset-" ++ decimal (nextId store))%string (map ds_id (datasets store)).
Proof.
  intros (_ & _ & Hids & _) Hin. apply in_map_iff in Hin. destruct Hin as [d [Hid Hd]].
  destruct (Hids d Hd) as [k [Hk Hdk]]. rewrite Hdk in Hid.
  apply datasetId_inj in Hid. lia.
Qed.

Lemma storeInvariant_step `{Runtime} (store : Store) (action : StoreAction) :
  storeInvariant store -> storeInvariant (applyAction store action).
Proof.
  intros Hinv. pose proof (fresh_id store Hinv) as Hfresh.
  destruct Hinv as (Hn & Hnd & Hids & Hbuilt).
  destruct action as [name raw now|id|id|]; cbn [applyAction].
  - unfold storeInvariant, addDataset. cbn [snd nextId datasets].
    split; [lia|]. split.
    { rewrite map_app. cbn [map ds_id].
      apply NoDup_app; [exact Hnd | repeat constructor; intros [] |].
      intros x Hx [<-|[]]. now apply Hfresh. }
    split.
    { intros d Hd. apply in_app_or in Hd. destruct Hd as [Hd|[<-|[]]].
      - destruct (Hids d Hd) as [k [Hk Hdk]]. exists k. split; [lia | exact Hdk].
      - exists (nextId store). split; [lia | reflexivity]. }
    intros d Hd. apply in_app_or in Hd. destruct Hd as [Hd|[<-|[]]].
    + now apply Hbuilt.
    + exists raw. unfold builtFrom. cbn.
      repeat split. unfold coerceData. apply length_map.
  - unfold storeInvariant, removeDataset. cbn [nextId datasets].
    split; [exact Hn|]. split; [rewrite remove_ids; now apply NoDup_filter|].
    split; intros d Hd; apply filter_In in Hd; destruct Hd as [Hd _]; auto.
  - unfold storeInvariant, setActiveDataset. cbn [nextId datasets]. repeat split; assumption.
  - unfold storeInvariant, clearAll. cbn [nextId datasets].
    split; [exact Hn|]. split; [constructor|]. split; intros d [].
Qed.

Lemma fold_applyAction_invariant `{Runtime} (actions : list StoreAction) (store : Store) :
  storeInvariant store -> storeInvariant (fold_left applyAction actions store).
Proof.
  revert store. induction actions as [|a rest IH]; intros store Hinv; [exact Hinv|].
  cbn [fold_left]. apply IH, storeInvariant_step, Hinv.
Qed.

Lemma runStore_invariant `{Runtime} (actions : list StoreAction) :
  storeInvariant (runStore actions).
Proof. apply fold_applyAction_invariant, storeInvariant_initial. Qed.

Lemma fold_applyAction_nextId `{Runtime} (actions : list StoreAction) (store : Store) :
  nextId (fold_left applyAction actions store) = (nextId store + additions actions)%nat.
Proof.
  revert store. induction actions as [|a rest IH]; intros store.
  - unfold additions. simpl. lia.
  - cbn [fold_left]. rewrite IH. unfold additions. cbn [filter].
    destruct a; cbn [applyAction length]; cbn; lia.
Qed.

Lemma fold_applyAction_length `{Runtime} (actions : list StoreAction) (store : Store) :
  (length (datasets (fold_left applyAction actions store))
   <= length (datasets store) + additions actions)%nat.
Proof.
  revert store. induction actions as [|a rest IH]; intros store.
  - unfold additions. simpl. lia.
  - cbn [fold_left]. eapply Nat.le_trans; [apply IH|]. unfold additions. cbn [filter].
    destruct a; cbn [applyAction length].
    + unfold addDataset. cbn [snd datasets]. rewrite length_app. simpl. lia.
    + unfold removeDataset. cbn [datasets].
      pose proof (filter_length_le (fun d => negb (String.eqb (ds_id d) id)) (datasets store)).
      lia.
    + cbn. lia.
    + cbn. lia.
Qed.

(** After any sequence of calls to the store: the counter is 1 more than
    the number of datasets ever added, which bounds the number of datasets
    held; the ids held are distinct and each is ["dataset-k"] for a [k]
    between 1 and the counter; every dataset's row count is the number of
    its rows, its columns are the keys of its first row (none when it has
    no row), each with a type, and no column typed Number holds a string;
    and the active dataset is the dataset of the store that carries the
    active id, none when the active id is null or names nothing in the
    store. *)
Theorem store_invariant `{Runtime} (actions : list StoreAction) :
  let store := runStore actions in
  nextId store = S (additions actions) /\
  (length (datasets store) <= additions actions)%nat /\
  NoDup (map ds_id (datasets store)) /\
  (forall d, In d (datasets store) ->
     exists k, (1 <= k <= additions actions)%nat /\
               ds_id d = ("dataset-" ++ decimal k)%string) /\
  (forall d, In d (datasets store) ->
     ds_rowCount d = length (ds_data d) /\
     ds_columns d = columnsOf (ds_data d) /\
     map fst (ds_columnTypes d) = ds_columns d /\
     forall col s, hasType (ds_columnTypes d) TNumber col = true ->
       ~ In (Some (VStr s)) (columnValues (ds_data d) col)) /\
  (forall d, activeDataset store = Some d <->
     In d (datasets store) /\ activeDatasetId store = Some (ds_id d)) /\
  (activeDataset store = None <->
     match activeDatasetId store with
     | None => True
     | Some id => ~ In id (map ds_id (datasets store))
     end).
Proof.
  intros store.
  pose proof (runStore_invariant actions) as Hinv. fold store in Hinv.
  destruct Hinv as (Hn & Hnd & Hids & Hbuilt).
  assert (Hnext : nextId store = S (additions actions))
    by (unfold store, runStore; rewrite fold_applyAction_nextId; reflexivity).
  split; [exact Hnext|].
  split.
  { unfold store, runStore.
    apply (fold_applyAction_length actions initialStore). }
  split; [exact Hnd|].
  split.
  { intros d Hd. destruct (Hids d Hd) as [k [Hk Hdk]]. exists k. split; [lia | exact Hdk]. }
  split.
  { intros d Hd. destruct (Hbuilt d Hd) as [raw (Hdata & Hcols & Htypes & Hrows)].
    split; [rewrite Hrows, Hdata; unfold coerceData; now rewrite length_map|].
    split; [rewrite Hcols, Hdata; now rewrite columnsOf_coerce|].
    split.
    { rewrite Htypes, Hcols. destruct raw as [|first rest]; [reflexivity|].
      unfold detectColumnTypes, columnsOf. rewrite map_map. cbn [fst]. apply map_id. }
    intros col s Ht. rewrite Hdata. apply coerced_no_string. now rewrite <- Htypes. }
  split.
  { intros d. unfold activeDataset. destruct (activeDatasetId store) as [id|].
    - split.
      + intros Hfind. apply find_some in Hfind. destruct Hfind as [Hd Hid].
        apply String.eqb_eq in Hid. now subst.
      + intros [Hd Hid]. inversion Hid; subst. now apply find_id_unique.
    - split; [discriminate | intros [_ Hid]; discriminate]. }
  unfold activeDataset. destruct (activeDatasetId store) as [id|]; [|tauto].
  split.
  - intros Hnone Hin. apply in_map_iff in Hin. destruct Hin as [d [Hid Hd]].
    apply (find_none _ _ Hnone) in Hd. rewrite Hid, String.eqb_refl in Hd. discriminate.
  - apply find_id_absent.
Qed.

Lemma find_filter_other (ds : list Dataset) (a id : string) :
  a <> id ->
  find (fun x => String.eqb (ds_id x) a)
       (filter (fun d => negb (String.eqb (ds_id d) id)) ds)
  = find (fun x => String.eqb (ds_id x) a) ds.
Proof.
  intros Hne. induction ds as [|x rest IH]; [reflexivity|]. cbn [filter find].
  destruct (String.eqb_spec (ds_id x) id) as [Heq|Hx]; cbn [negb find].
  - destruct (String.eqb_spec (ds_id x) a) as [Ha|_]; [congruence | exact IH].
  - destruct (String.eqb (ds_id x) a); [reflexivity | exact IH].
Qed.

Lemma filter_idem {A : Type} (f : A -> bool) (l : list A) :
  filter f (filter f l) = filter f l.
Proof.
  induction l as [|x rest IH]; [reflexivity|]. cbn [filter].
  destruct (f x) eqn:Hx; [|exact IH]. cbn [filter]. now rewrite Hx, IH.
Qed.

(** The calls of the store, from the state left by any sequence of calls.
    [addDataset] returns the id ["dataset-n"] where [n] is 1 more than the
    number of datasets ever added, an id no dataset of the store carries;
    it appends the dataset built from the raw rows, under the given name,
    and makes it the active one.  [removeDataset] removes the dataset of
    the given id, if any, and keeps the others in their order; it unsets the
    active dataset when that was the one removed and otherwise leaves it;
    removing twice is removing once.  [setActiveDataset] with the id of a
    dataset of the store makes that dataset the active one.  [clearAll]
    empties the store but keeps the counter, so the ids of removed or
    cleared datasets are not given again. *)
Theorem store_operations `{Runtime} (actions : list StoreAction) :
  let store := runStore actions in
  (forall name raw now,
     let id := fst (addDataset name raw now store) in
     let store' := snd (addDataset name raw now store) in
     id = ("dataset-" ++ decimal (S (additions actions)))%string /\
     ~ In id (map ds_id (datasets store)) /\
     activeDatasetId store' = Some id /\
     exists d,
       datasets store' = datasets store ++ [d] /\
       ds_id d = id /\ ds_name d = name /\ ds_uploadedAt d = now /\
       builtFrom raw d /\ activeDataset store' = Some d) /\
  (forall id,
     let store' := removeDataset id store in
     ~ In id (map ds_id (datasets store')) /\
     (forall d, In d (datasets store') <-> In d (datasets store) /\ ds_id d <> id) /\
     datasets store' = filter (fun d => negb (String.eqb (ds_id d) id)) (datasets store) /\
     (In id (map ds_id (datasets store)) ->
      exists before d after,
        datasets store = before ++ d :: after /\ ds_id d = id /\
        datasets store' = before ++ after) /\
     (In id (map ds_id (datasets store)) ->
      S (length (datasets store')) = length (datasets store)) /\
     (~ In id (map ds_id (datasets store)) -> datasets store' = datasets store) /\
     (activeDatasetId store = Some id -> activeDataset store' = None) /\
     (activeDatasetId store <> Some id -> activeDataset store' = activeDataset store) /\
     removeDataset id store' = store' /\
     nextId store' = nextId store) /\
  (forall d, In d (datasets store) ->
     activeDataset (setActiveDataset (Some (ds_id d)) store) = Some d) /\
  activeDataset (setActiveDataset None store) = None /\
  datasets (clearAll store) = [] /\
  activeDataset (clearAll store) = None /\
  (forall name raw now,
     fst (addDataset name raw now (clearAll store)) = fst (addDataset name raw now store)).
Proof.
  intros store.
  pose proof (runStore_invariant actions) as Hinv. fold store in Hinv.
  pose proof (fresh_id store Hinv) as Hfresh.
  destruct Hinv as (Hn & Hnd & Hids & Hbuilt).
  assert (Hnext : nextId store = S (additions actions))
    by (unfold store, runStore; rewrite fold_applyAction_nextId; reflexivity).
  split.
  { intros name raw now id store'. unfold id, store', addDataset.
    cbn [fst snd datasets activeDatasetId].
    split; [now rewrite Hnext|]. split; [exact Hfresh|]. split; [reflexivity|].
    eexists. split; [reflexivity|]. cbn [ds_id ds_name ds_uploadedAt].
    split; [reflexivity|]. split; [reflexivity|]. split; [reflexivity|].
    split.
    - unfold builtFrom. cbn. repeat split. unfold coerceData. apply length_map.
    - unfold activeDataset. cbn [activeDatasetId datasets].
      match goal with
      | |- find _ (_ ++ [?d]) = _ => apply (find_id_app (datasets store) d)
      end.
      exact Hfresh. }
  split.
  { intros id store'. unfold store', removeDataset. cbn [datasets activeDatasetId nextId].
    split.
    { rewrite remove_ids. intros Hin. apply filter_In in Hin.
      rewrite String.eqb_refl in Hin. destruct Hin as [_ Hin]. discriminate. }
    split.
    { intros d. rewrite filter_In.
      destruct (String.eqb_spec (ds_id d) id) as [Heq|Hne]; cbn [negb].
      - split; [intros [_ Hf]; discriminate | intros [_ Hne]; contradiction].
      - tauto. }
    split; [reflexivity|].
    split; [now apply remove_split|].
    split; [now apply remove_present_length|].
    split; [apply remove_absent|].
    split.
    { intros Hact. unfold activeDataset. cbn [activeDatasetId datasets].
      rewrite Hact, String.eqb_refl. reflexivity. }
    split.
    { intros Hact. unfold activeDataset. cbn [activeDatasetId datasets].
      destruct (activeDatasetId store) as [a|]; [|reflexivity].
      destruct (String.eqb_spec a id) as [->|Hne]; [congruence|].
      now apply find_filter_other. }
    split; [|reflexivity].
    f_equal.
    - apply filter_idem.
    - destruct (activeDatasetId store) as [a|]; [|reflexivity].
      destruct (String.eqb a id) eqn:Ha; [reflexivity | now rewrite Ha]. }
  split.
  { intros d Hd. unfold activeDataset, setActiveDataset. cbn [activeDatasetId datasets].
    now apply find_id_unique. }
  repeat split.
Qed.

(** ** The profile of a stored dataset *)

Lemma typed_columns_partition (types : ColumnTypes) (cols : list string) :
  (forall c, In c cols -> typeOf types c <> None) ->
  (length (filter (hasType types TNumber) cols)
   + length (filter (hasType types TString) cols)
   + length (filter (hasType types TDate) cols))%nat = length cols.
Proof.
  induction cols as [|c rest IH]; intros Hall; [reflexivity|].
  assert (Hrest : forall x, In x rest -> typeOf types x <> None)
    by (intros x Hx; apply Hall; now right).
  specialize (IH Hrest). specialize (Hall c (or_introl eq_refl)).
  assert (Hc : forall t', hasType types t' c
                 = match typeOf types c with
                   | Some t => ColumnType_eqb t t'
                   | None => false
                   end) by reflexivity.
  cbn [filter]. rewrite !Hc.
  destruct (typeOf types c) as [[]|]; [| | |contradiction]; cbn [ColumnType_eqb length]; lia.
Qed.

Lemma detectColumnTypes_total `{Runtime} (raw : list Record) (c : string) :
  In c (columnsOf raw) -> typeOf (detectColumnTypes raw) c <> None.
Proof.
  destruct raw as [|first rest]; [contradiction|]. unfold columnsOf, detectColumnTypes.
  intros Hin. rewrite (typeOf_map (inferType (first :: rest)) _ _ Hin). discriminate.
Qed.

Lemma nullOrEmpty_without_strings (vs : list (option value)) :
  (forall str, ~ In (Some (VStr str)) vs) -> filter isNullOrEmpty vs = filter isNullish vs.
Proof.
  induction vs as [|v t IH]; intros Hnostr; [reflexivity|].
  assert (Ht : forall str, ~ In (Some (VStr str)) t)
    by (intros str Hin; apply (Hnostr str); now right).
  cbn [filter]. destruct v as [[|r|str]|]; cbn [isNullOrEmpty isNullish];
    try (rewrite (IH Ht); reflexivity).
  exfalso. apply (Hnostr str). now left.
Qed.

(** The profile of a dataset held by the store, computed from the
    dataset's own rows, columns and column types: its row count is the
    dataset's; every column has a type and is in exactly one of the numeric,
    categorical and date lists, whose lengths add up to the column count;
    and for a column profiled as a number, no value is a string and the null
    count is the number of rows whose value is null or missing. *)
Theorem stored_dataset_profile `{Runtime} (actions : list StoreAction) (d : Dataset) :
  In d (datasets (runStore actions)) ->
  let s := analyzeDataset (ds_data d) (ds_columns d) (ds_columnTypes d) in
  rowCount s = ds_rowCount d /\
  columnCount s = length (columnsOf (ds_data d)) /\
  (forall c, In c (columns s) -> typeOf (columnTypes s) c <> None) /\
  (length (numericColumns s) + length (categoricalColumns s) + length (dateColumns s))%nat
  = columnCount s /\
  (forall c, In c (columns s) ->
     In c (numericColumns s) \/ In c (categoricalColumns s) \/ In c (dateColumns s)) /\
  (forall cs, In cs (columnStats s) -> cs_type cs = TNumber ->
     (forall str, ~ In (Some (VStr str)) (columnValues (ds_data d) (cs_column cs))) /\
     cs_nullCount cs = length (filter isNullish (columnValues (ds_data d) (cs_column cs)))).
Proof.
  intros Hd s.
  destruct (runStore_invariant actions) as (_ & _ & _ & Hbuilt).
  destruct (Hbuilt d Hd) as [raw (Hdata & Hcols & Htypes & Hrows)].
  assert (Htotal : forall c, In c (ds_columns d) -> typeOf (ds_columnTypes d) c <> None).
  { intros c Hc. rewrite Htypes. apply detectColumnTypes_total. now rewrite <- Hcols. }
  split.
  { change (rowCount s) with (length (ds_data d)).
    rewrite Hrows, Hdata. unfold coerceData. apply length_map. }
  split.
  { change (columnCount s) with (length (ds_columns d)).
    now rewrite Hcols, Hdata, columnsOf_coerce. }
  split; [exact Htotal|].
  split; [apply typed_columns_partition, Htotal|].
  split.
  { intros c Hc. specialize (Htotal c Hc).
    change (numericColumns s) with (filter (hasType (ds_columnTypes d) TNumber) (ds_columns d)).
    change (categoricalColumns s)
      with (filter (hasType (ds_columnTypes d) TString) (ds_columns d)).
    change (dateColumns s) with (filter (hasType (ds_columnTypes d) TDate) (ds_columns d)).
    rewrite !filter_In, !hasType_iff. change (columns s) with (ds_columns d) in Hc.
    destruct (typeOf (ds_columnTypes d) c) as [[]|]; [| | |contradiction]; tauto. }
  intros cs Hcs Htype.
  change (columnStats s)
    with (map (columnStatsOf (ds_data d) (ds_columnTypes d)) (ds_columns d)) in Hcs.
  apply in_map_iff in Hcs. destruct Hcs as [col [<- Hcol]].
  rewrite columnStatsOf_type in Htype. rewrite columnStatsOf_column.
  assert (Ht : hasType (ds_columnTypes d) TNumber col = true).
  { apply hasType_iff. destruct (typeOf (ds_columnTypes d) col) as [[]|]; congruence. }
  assert (Hnostr : forall str, ~ In (Some (VStr str)) (columnValues (ds_data d) col)).
  { intros str. rewrite Hdata. apply coerced_no_string. now rewrite <- Htypes. }
  split; [exact Hnostr|].
  assert (Hnull : cs_nullCount (columnStatsOf (ds_data d) (ds_columnTypes d) col)
                  = length (filter isNullOrEmpty (columnValues (ds_data d) col))).
  { unfold columnStatsOf. destruct (typeOf (ds_columnTypes d) col) as [[]|]; reflexivity. }
  rewrite Hnull. f_equal. apply nullOrEmpty_without_strings, Hnostr.
Qed.

Lemma stored_dataset_profile_witness :
  let d := {| ds_id := "dataset-1"; ds_name := "t"; ds_data := [[("n", VNum 1)]];
              ds_columns := ["n"]; ds_columnTypes := [("n", TNumber)];
              ds_rowCount := 1; ds_uploadedAt := 0 |} in
  In d (datasets (@runStore integerRuntime [AddDataset "t" [[("n", VNum 1)]] 0])) /\
  rowCount (@analyzeDataset integerRuntime (ds_data d) (ds_columns d) (ds_columnTypes d))
  = ds_rowCount d.
Proof.
  intros d.
  assert (Hd : In d (datasets (@runStore integerRuntime [AddDataset "t" [[("n", VNum 1)]] 0])))
    by (left; reflexivity).
  split; [exact Hd|].
  apply (@stored_dataset_profile integerRuntime _ d Hd).
Defined.

(** * The theme *)

Lemma resolveTheme_not_system (os : option bool) (pref : ThemePreference) :
  resolveTheme os pref <> system.
Proof. destruct pref, os as [[]|]; discriminate. Qed.

Lemma cycleTheme_preference (os : option bool) (canStore : bool) (st : ThemeState) :
  preference (cycleTheme os canStore st)
  = match preference st with
    | light => dark
    | dark => system
    | system => light
    end.
Proof. unfold cycleTheme. destruct (preference st); reflexivity. Qed.

Lemma applyThemeEvent_resolved (s : option bool * ThemeState) (event : ThemeEvent) :
  resolvedTheme (snd s) = resolveTheme (fst s) (preference (snd s)) ->
  resolvedTheme (snd (applyThemeEvent s event))
  = resolveTheme (fst (applyThemeEvent s event)) (preference (snd (applyThemeEvent s event))).
Proof.
  destruct s as [os st]. cbn [fst snd]. intros Hinv.
  destruct event as [pref canStore|canStore|matches]; cbn [applyThemeEvent fst snd].
  - reflexivity.
  - reflexivity.
  - unfold systemThemeChanged. destruct (preference st) eqn:Hp; cbn [ThemePreference_eqb].
    + rewrite Hp. exact Hinv.
    + rewrite Hp. exact Hinv.
    + cbn [preference resolvedTheme]. destruct matches; reflexivity.
Qed.

Lemma runTheme_resolved (events : list ThemeEvent) (s : option bool * ThemeState) :
  resolvedTheme (snd s) = resolveTheme (fst s) (preference (snd s)) ->
  resolvedTheme (snd (fold_left applyThemeEvent events s))
  = resolveTheme (fst (fold_left applyThemeEvent events s))
                 (preference (snd (fold_left applyThemeEvent events s))).
Proof.
  revert s. induction events as [|e rest IH]; intros s Hinv; [exact Hinv|].
  cbn [fold_left]. apply IH, applyThemeEvent_resolved, Hinv.
Qed.

(** After any sequence of calls and changes of the operating system's
    setting, the theme applied is the preference resolved against the
    current setting: it is never "system", and it is dark exactly when the
    preference is dark, or is system while the operating system prefers
    dark.  [cycleTheme] moves the preference from light to dark, from dark
    to system and from system to light, so three calls bring it back.  A
    preference that was stored is the initial preference of the next mount,
    whatever the default; a stored value that is none of the three names, or
    no stored value, gives the default; and a call whose write to the
    storage fails leaves the stored value as it was. *)
Theorem theme_spec (os : option bool) (stored0 : option string)
  (defaultPreference : ThemePreference) (events : list ThemeEvent) :
  let final := runTheme os stored0 defaultPreference events in
  let os' := fst final in
  let st := snd final in
  resolvedTheme st = resolveTheme os' (preference st) /\
  resolvedTheme st <> system /\
  (resolvedTheme st = dark <->
   preference st = dark \/ (preference st = system /\ os' = Some true)) /\
  (forall c,
     preference (cycleTheme os' c st)
     = match preference st with light => dark | dark => system | system => light end) /\
  (forall c1 c2 c3,
     preference (cycleTheme os' c3 (cycleTheme os' c2 (cycleTheme os' c1 st)))
     = preference st) /\
  (forall pref d,
     preference (initialTheme os' (stored (setPreference os' true pref st)) d) = pref) /\
  (forall c d,
     preference (initialTheme os' (stored (cycleTheme os' true st)) d)
     = preference (cycleTheme os' c st)) /\
  (forall pref, stored (setPreference os' false pref st) = stored st) /\
  (forall s d, s <> "light" -> s <> "dark" -> s <> "system" ->
     initialPreference (Some s) d = d) /\
  (forall d, initialPreference None d = d).
Proof.
  intros final os' st.
  assert (Hres : resolvedTheme st = resolveTheme os' (preference st)).
  { unfold st, os', final, runTheme. apply runTheme_resolved. reflexivity. }
  split; [exact Hres|].
  split; [rewrite Hres; apply resolveTheme_not_system|].
  split.
  { rewrite Hres. destruct (preference st), os' as [[]|]; cbn;
      split; intros Hx; try discriminate; try (now left); try (right; now split);
      destruct Hx as [Hx|[Hx Hy]]; try discriminate; reflexivity. }
  split; [intros c; apply cycleTheme_preference|].
  split.
  { intros c1 c2 c3. rewrite !cycleTheme_preference. now destruct (preference st). }
  split; [intros pref d; now destruct pref|].
  split.
  { intros c d. rewrite cycleTheme_preference. unfold cycleTheme.
    now destruct (preference st). }
  split; [reflexivity|].
  split; [|reflexivity].
  intros s d H1 H2 H3. unfold initialPreference.
  destruct (String.eqb_spec s "light"); [contradiction|].
  destruct (String.eqb_spec s "dark"); [contradiction|].
  destruct (String.eqb_spec s "system"); [contradiction|]. reflexivity.
Qed.

(** * Upload *)

Lemma string_length_app (a b : string) :
  String.length (a ++ b)%string = (String.length a + String.length b)%nat.
Proof. induction a as [|c a IH]; simpl; [reflexivity | now rewrite IH]. Qed.

Lemma string_app_assoc (a b c : string) : ((a ++ b) ++ c = a ++ (b ++ c))%string.
Proof. induction a as [|x a IH]; simpl; [reflexivity | now rewrite IH]. Qed.

Lemma string_app_nil_r (s : string) : (s ++ "")%string = s.
Proof. induction s as [|c s IH]; simpl; [reflexivity | now rewrite IH]. Qed.

Lemma substring_all (s : string) : substring 0 (String.length s) s = s.
Proof. induction s as [|c s IH]; simpl; [reflexivity | now rewrite IH]. Qed.

Lemma substring_split (s : string) (k : nat) :
  (k <= String.length s)%nat ->
  (substring 0 k s ++ substring k (String.length s - k) s)%string = s.
Proof.
  revert k. induction s as [|c s IH]; intros k Hk.
  - simpl in Hk. assert (k = 0%nat) by lia. subst. reflexivity.
  - destruct k as [|k].
    + rewrite Nat.sub_0_r. cbn [substring append]. exact (substring_all (String c s)).
    + cbn [String.length] in *. cbn [substring append Nat.sub]. f_equal. apply IH. lia.
Qed.

Lemma substring_suffix (base suffix : string) :
  substring (String.length base) (String.length suffix) (base ++ suffix) = suffix.
Proof.
  induction base as [|c base IH]; [apply substring_all | exact IH].
Qed.

Lemma endsWith_iff (s suffix : string) :
  endsWith s suffix = true <-> exists base, s = (base ++ suffix)%string.
Proof.
  unfold endsWith. split.
  - intros Hends. apply andb_prop in Hends. destruct Hends as [Hle Heq].
    apply Nat.leb_le in Hle. apply String.eqb_eq in Heq.
    remember (String.length suffix) as m eqn:Hm. clear Hm.
    exists (substring 0 (String.length s - m) s). rewrite <- Heq.
    replace (substring (String.length s - m) m s)
      with (substring (String.length s - m) (String.length s - (String.length s - m)) s)
      by (f_equal; lia).
    symmetry. apply substring_split. lia.
  - intros [base ->]. rewrite string_length_app. apply andb_true_intro. split.
    + apply Nat.leb_le. lia.
    + replace (String.length base + String.length suffix - String.length suffix)%nat
        with (String.length base) by lia.
      rewrite substring_suffix. apply String.eqb_refl.
Qed.

Lemma noDot_with_dot (base ext : string) : noDot (base ++ "." ++ ext) = false.
Proof.
  induction base as [|c base IH]; [reflexivity|].
  cbn [append noDot]. fold (append "." ext). rewrite IH. apply andb_false_r.
Qed.

Lemma stripExtension_noDot (name : string) : noDot name = true -> stripExtension name = name.
Proof.
  induction name as [|c t IH]; [reflexivity|]. cbn [noDot stripExtension]. intros Hnd.
  apply andb_prop in Hnd. destruct Hnd as [Hc Ht].
  destruct (Ascii.eqb c "."); [discriminate|]. cbn [andb]. now rewrite IH.
Qed.

Lemma stripExtension_split (base ext : string) :
  noDot ext = true ->
  stripExtension (base ++ "." ++ ext)
  = if String.eqb ext "" then (base ++ ".")%string else base.
Proof.
  intros Hext. induction base as [|c base IH].
  - cbn [append stripExtension]. rewrite Ascii.eqb_refl, Hext.
    destruct (String.eqb_spec ext "") as [->|Hne]; reflexivity.
  - cbn [append stripExtension]. fold (append "." ext).
    rewrite noDot_with_dot, andb_false_r. rewrite IH.
    destruct (String.eqb ext ""); reflexivity.
Qed.

Lemma last_dot (name : string) :
  noDot name = true
  \/ exists base ext, name = (base ++ "." ++ ext)%string /\ noDot ext = true.
Proof.
  induction name as [|c t IH]; [now left|].
  destruct IH as [Ht|(base & ext & -> & Hext)].
  - destruct (Ascii.eqb_spec c ".") as [->|Hc].
    + right. exists "", t. split; [reflexivity | exact Ht].
    + left. cbn [noDot]. rewrite Ht.
      destruct (Ascii.eqb_spec c "."); [contradiction | reflexivity].
  - right. exists (String c base), ext. split; [reflexivity | exact Hext].
Qed.

(** The name of the dataset is the name of the file without its last
    extension: a name without a dot, or ending in a dot, is kept whole;
    otherwise everything from the last dot on is removed, and nothing else.
    The dataset name is always a prefix of the file name. *)
Theorem stripExtension_spec (name : string) :
  (noDot name = true -> stripExtension name = name) /\
  (forall base, name = (base ++ ".")%string -> stripExtension name = name) /\
  (forall base ext, name = (base ++ "." ++ ext)%string -> ext <> "" -> noDot ext = true ->
     stripExtension name = base) /\
  (noDot name = true
   \/ exists base ext, name = (base ++ "." ++ ext)%string /\ noDot ext = true) /\
  (exists removed, name = (stripExtension name ++ removed)%string) /\
  (stripExtension name = name <-> noDot name = true \/ endsWith name "." = true).
Proof.
  assert (Hdot : forall base, stripExtension (base ++ ".") = (base ++ ".")%string).
  { intros base. apply (stripExtension_split base "" eq_refl). }
  assert (Hext : forall base ext, ext <> "" -> noDot ext = true ->
                   stripExtension (base ++ "." ++ ext) = base).
  { intros base ext Hne Hnd. rewrite stripExtension_split by exact Hnd.
    destruct (String.eqb_spec ext ""); [contradiction | reflexivity]. }
  split; [apply stripExtension_noDot|].
  split; [intros base ->; apply Hdot|].
  split; [intros base ext -> Hne Hnd; now apply Hext|].
  split; [apply last_dot|].
  split.
  { destruct (last_dot name) as [Hnd|(base & ext & -> & Hnd)].
    - exists "". rewrite stripExtension_noDot by exact Hnd.
      symmetry. apply string_app_nil_r.
    - rewrite stripExtension_split by exact Hnd.
      destruct (String.eqb_spec ext "") as [->|Hne].
      + exists "". symmetry. apply string_app_nil_r.
      + exists ("." ++ ext)%string. reflexivity. }
  split.
  - intros Hsame. destruct (last_dot name) as [Hnd|(base & ext & -> & Hnd)]; [now left|].
    right. rewrite stripExtension_split in Hsame by exact Hnd.
    destruct (String.eqb ext "") eqn:He.
    + apply String.eqb_eq in He. subst ext. apply endsWith_iff. now exists base.
    + exfalso. apply (f_equal String.length) in Hsame.
      rewrite string_length_app in Hsame. simpl in Hsame. lia.
  - intros [Hnd|Hends]; [now apply stripExtension_noDot|].
    apply endsWith_iff in Hends. destruct Hends as [base ->]. apply Hdot.
Qed.

Lemma last_char_eq (a b : string) (c1 c2 : ascii) :
  (a ++ String c1 "" = b ++ String c2 "")%string -> c1 = c2.
Proof.
  intros Heq.
  assert (Hl : String.length a = String.length b).
  { apply (f_equal String.length) in Heq. rewrite !string_length_app in Heq.
    simpl in Heq. lia. }
  pose proof (append_correct2 a (String c1 "") 0) as H1.
  pose proof (append_correct2 b (String c2 "") 0) as H2.
  rewrite Heq, Hl, <- H2 in H1. simpl in H1. congruence.
Qed.

Lemma endings_differ (b1 b2 e1 e2 : string) (c1 c2 : ascii) :
  c1 <> c2 -> (b1 ++ e1 ++ String c1 "" = b2 ++ e2 ++ String c2 "")%string -> False.
Proof.
  intros Hne Heq. rewrite <- !string_app_assoc in Heq. apply last_char_eq in Heq.
  contradiction.
Qed.

(** The parser is chosen by the end of the file name, the case of the
    letters counting: JSON for [.json], the delimited-text parser for
    [.csv] and [.tsv], and no parser for any other name, such as one in
    capitals.  For a file that has a parser the dataset name is the file
    name without that ending, so it is shorter than the file name, and it is
    empty for a file named by the ending alone. *)
Theorem parserOf_spec (name : string) :
  (parserOf name = JsonParser <-> exists base, name = (base ++ ".json")%string) /\
  (parserOf name = DelimitedParser <->
   exists base, name = (base ++ ".csv")%string \/ name = (base ++ ".tsv")%string) /\
  ((exists message, parserOf name = UnsupportedFile message) <->
   endsWith name ".json" = false /\ endsWith name ".csv" = false
   /\ endsWith name ".tsv" = false) /\
  (forall base ending,
     ending = ".json" \/ ending = ".csv" \/ ending = ".tsv" ->
     name = (base ++ ending)%string ->
     stripExtension name = base /\
     (String.length (stripExtension name) < String.length name)%nat) /\
  (forall base ending,
     ending = ".JSON" \/ ending = ".CSV" \/ ending = ".TSV" ->
     name = (base ++ ending)%string ->
     exists message, parserOf name = UnsupportedFile message).
Proof.
  assert (Hj := endsWith_iff name ".json").
  assert (Hc := endsWith_iff name ".csv").
  assert (Ht := endsWith_iff name ".tsv").
  assert (Hjc : endsWith name ".json" = true ->
                endsWith name ".csv" = true \/ endsWith name ".tsv" = true -> False).
  { intros H1 H2. apply Hj in H1. destruct H1 as [b1 H1].
    destruct H2 as [H2|H2]; [apply Hc in H2 | apply Ht in H2]; destruct H2 as [b2 H2];
      rewrite H1 in H2.
    - apply (endings_differ b1 b2 ".jso" ".cs" "n" "v"); [discriminate | exact H2].
    - apply (endings_differ b1 b2 ".jso" ".ts" "n" "v"); [discriminate | exact H2]. }
  assert (Hcases :
    (parserOf name = JsonParser /\ endsWith name ".json" = true)
    \/ (parserOf name = DelimitedParser /\ endsWith name ".json" = false
        /\ (endsWith name ".csv" = true \/ endsWith name ".tsv" = true))
    \/ (parserOf name
          = UnsupportedFile "Unsupported file type. Please upload a .csv or .json file."
        /\ endsWith name ".json" = false /\ endsWith name ".csv" = false
        /\ endsWith name ".tsv" = false)).
  { unfold parserOf.
    destruct (endsWith name ".json"); [now left|].
    destruct (endsWith name ".csv"); [right; left; auto|].
    destruct (endsWith name ".tsv"); [right; left; auto|].
    right. right. auto. }
  split.
  { rewrite <- Hj. destruct Hcases as [[Hp He]|[(Hp & He & _)|(Hp & He & _)]];
      rewrite Hp, He; split; (reflexivity || discriminate). }
  split.
  { split.
    - intros Hp. destruct Hcases as [[Hq _]|[(_ & _ & [He|He])|(Hq & _)]];
        try congruence.
      + apply Hc in He. destruct He as [base He]. exists base. now left.
      + apply Ht in He. destruct He as [base He]. exists base. now right.
    - intros [base Hb].
      assert (He : endsWith name ".csv" = true \/ endsWith name ".tsv" = true).
      { destruct Hb as [Hb|Hb]; [left; apply Hc | right; apply Ht]; now exists base. }
      destruct Hcases as [[_ Hq]|[(Hp & _)|(_ & _ & H1 & H2)]].
      + exfalso. now apply Hjc.
      + exact Hp.
      + destruct He; congruence. }
  split.
  { split.
    - intros [message Hp].
      destruct Hcases as [[Hq _]|[(Hq & _)|(_ & Hq)]]; [congruence | congruence | exact Hq].
    - intros (H1 & H2 & H3).
      destruct Hcases as [[_ Hq]|[(_ & _ & [Hq|Hq])|(Hq & _)]]; try congruence.
      eexists. exact Hq. }
  split.
  { intros base ending Hending Hname. subst name.
    assert (Hstrip : stripExtension (base ++ ending) = base).
    { destruct Hending as [He|[He|He]]; subst ending;
        [ apply (stripExtension_split base "json" eq_refl)
        | apply (stripExtension_split base "csv" eq_refl)
        | apply (stripExtension_split base "tsv" eq_refl) ]. }
    split; [exact Hstrip|]. rewrite Hstrip, string_length_app.
    destruct Hending as [He|[He|He]]; subst ending; simpl; lia. }
  intros base ending Hending Hname. subst name.
  assert (Hnone : endsWith (base ++ ending) ".json" = false
                  /\ endsWith (base ++ ending) ".csv" = false
                  /\ endsWith (base ++ ending) ".tsv" = false).
  { repeat split.
    - destruct (endsWith (base ++ ending) ".json") eqn:He; [|reflexivity].
      exfalso. apply endsWith_iff in He. destruct He as [b2 He].
      destruct Hending as [Hx|[Hx|Hx]]; subst ending.
      + apply (endings_differ base b2 ".JSO" ".jso" "N" "n"); [discriminate | exact He].
      + apply (endings_differ base b2 ".CS" ".jso" "V" "n"); [discriminate | exact He].
      + apply (endings_differ base b2 ".TS" ".jso" "V" "n"); [discriminate | exact He].
    - destruct (endsWith (base ++ ending) ".csv") eqn:He; [|reflexivity].
      exfalso. apply endsWith_iff in He. destruct He as [b2 He].
      destruct Hending as [Hx|[Hx|Hx]]; subst ending.
      + apply (endings_differ base b2 ".JSO" ".cs" "N" "v"); [discriminate | exact He].
      + apply (endings_differ base b2 ".CS" ".cs" "V" "v"); [discriminate | exact He].
      + apply (endings_differ base b2 ".TS" ".cs" "V" "v"); [discriminate | exact He].
    - destruct (endsWith (base ++ ending) ".tsv") eqn:He; [|reflexivity].
      exfalso. apply endsWith_iff in He. destruct He as [b2 He].
      destruct Hending as [Hx|[Hx|Hx]]; subst ending.
      + apply (endings_differ base b2 ".JSO" ".ts" "N" "v"); [discriminate | exact He].
      + apply (endings_differ base b2 ".CS" ".ts" "V" "v"); [discriminate | exact He].
      + apply (endings_differ base b2 ".TS" ".ts" "V" "v"); [discriminate | exact He]. }
  destruct Hnone as (H1 & H2 & H3). unfold parserOf. rewrite H1, H2, H3. cbn [orb].
  eexists. reflexivity.
Qed.

(** * Dashboard orchestration *)

(** Splits on the seven conditions of [analyzeRequest] and names the list
    returned in each case. *)
Ltac request_cases userRequest :=
  let l := fresh "l" in
  let Hl := fresh "Hl" in
  remember (analyzeRequest userRequest) as l eqn:Hl;
  unfold mentions; unfold analyzeRequest in Hl;
  destruct (includes (toLowerCase userRequest) "sales"
            || includes (toLowerCase userRequest) "revenue");
  destruct (includes (toLowerCase userRequest) "user"
            || includes (toLowerCase userRequest) "growth");
  destruct (includes (toLowerCase userRequest) "market"
            || includes (toLowerCase userRequest) "share");
  destruct (includes (toLowerCase userRequest) "correlation"
            || includes (toLowerCase userRequest) "analyze");
  destruct (includes (toLowerCase userRequest) "region");
  destruct (includes (toLowerCase userRequest) "customer");
  destruct (includes (toLowerCase userRequest) "conversion");
  cbn [push app length Nat.ltb Nat.leb] in Hl; subst l; cbn [orb andb].

(** [analyzeRequest] reads the request without regard to case.  It returns
    nothing exactly when the request contains none of the eight keywords
    sales, revenue, user, growth, market, share, correlation and analyze.
    Otherwise it returns between 2 and 10 instructions, the last of which,
    and no other, is the TextBlock of key insights.  A bar chart is
    returned exactly when the request mentions sales or revenue and region,
    a data table exactly when it mentions sales or revenue and customer, a
    pie chart exactly when it mentions market or share, a scatter plot
    exactly when it mentions correlation or analyze; no StatCard is ever
    returned.  Every instruction names a component of the registry and its
    props satisfy the schema registered for it. *)
Theorem analyzeRequest_spec (userRequest : string) :
  let instructions := analyzeRequest userRequest in
  let salesOrRevenue := mentions userRequest "sales" || mentions userRequest "revenue" in
  let userOrGrowth := mentions userRequest "user" || mentions userRequest "growth" in
  let marketOrShare := mentions userRequest "market" || mentions userRequest "share" in
  let correlationOrAnalyze :=
    mentions userRequest "correlation" || mentions userRequest "analyze" in
  analyzeRequest (toLowerCase userRequest) = instructions /\
  (instructions = [] <->
   salesOrRevenue || userOrGrowth || marketOrShare || correlationOrAnalyze = false) /\
  (instructions <> [] ->
   (2 <= length instructions <= 10)%nat /\
   exists body,
     instructions
     = body ++ [{| name := "TextBlock";
                   props := [("title", PString "Key Insights");
                             ("content", PString (generateInsights (toLowerCase userRequest)))] |}]
     /\ countNamed "TextBlock" body = 0%nat) /\
  countNamed "BarChart" instructions
  = (if salesOrRevenue && mentions userRequest "region" then 1 else 0)%nat /\
  countNamed "DataTable" instructions
  = (if salesOrRevenue && mentions userRequest "customer" then 1 else 0)%nat /\
  countNamed "PieChart" instructions = (if marketOrShare then 1 else 0)%nat /\
  countNamed "ScatterPlot" instructions = (if correlationOrAnalyze then 1 else 0)%nat /\
  countNamed "LineChart" instructions
  = ((if salesOrRevenue then 1 else 0) + (if userOrGrowth then 1 else 0))%nat /\
  countNamed "KPICard" instructions
  = ((if salesOrRevenue then 1 else 0) + (if userOrGrowth then 1 else 0)
     + (if userOrGrowth && mentions userRequest "conversion" then 1 else 0))%nat /\
  countNamed "StatCard" instructions = 0%nat /\
  (forall i, In i instructions ->
     exists entry,
       lookup componentRegistry (name i) = Some entry /\
       conforms (entrySchema entry) (props i) = true).
Proof.
  intros instructions salesOrRevenue userOrGrowth marketOrShare correlationOrAnalyze.
  split.
  { unfold instructions, analyzeRequest. now rewrite toLowerCase_idem. }
  unfold instructions, salesOrRevenue, userOrGrowth, marketOrShare, correlationOrAnalyze.
  clear. request_cases userRequest.
  all: split;
    [ split; intros Hx; first [discriminate Hx | reflexivity] | ].
  all: split;
    [ intros Hne;
      first
        [ exfalso; apply Hne; reflexivity
        | split;
          [ cbn [length]; lia
          | match goal with
            | |- exists body, ?l = _ /\ _ => exists (removelast l)
            end; split; reflexivity ] ]
    | ].
  all: do 7 (split; [reflexivity|]).
  all: intros i Hin; cbn [In] in Hin;
    repeat (destruct Hin as [<-|Hin]; [eexists; split; reflexivity|]);
    contradiction.
Qed.

Lemma NoDup_by_nodup (l : list string) : nodup string_dec l = l -> NoDup l.
Proof. intros <-. apply NoDup_nodup. Qed.

(** The second update of a call, from any state. *)
Lemma orchestrateFinish_cases (userRequest : string) (prev : OrchestrationState) :
  let instructions := analyzeRequest userRequest in
  let st := orchestrateFinish userRequest prev in
  loading st = false /\
  (instructions = [] ->
   st = {| components := [];
           loading := false;
           error := Some "Could not understand your request. Try asking for sales, users, market share, or correlation analysis.";
           explanation := "" |}) /\
  (instructions <> [] ->
   error st = error prev /\
   explanation st = generateExplanation userRequest (length instructions)) /\
  (components st = [] <-> instructions = []) /\
  map dc_instruction (components st) = instructions /\
  map dc_id (components st)
  = map (fun p => (name (snd p) ++ "-" ++ decimal (fst p))%string)
        (combine (seq 0 (length instructions)) instructions) /\
  NoDup (map dc_id (components st)) /\
  (forall c, In c (components st) ->
     exists entry,
       lookup componentRegistry (name (dc_instruction c)) = Some entry /\
       dc_component c = entryComponent entry).
Proof.
  intros instructions st.
  split.
  { unfold st, orchestrateFinish.
    destruct (Nat.eqb (length (analyzeRequest userRequest)) 0); reflexivity. }
  unfold st, instructions, orchestrateFinish.
  generalize (error prev) as e. intros e. clear.
  request_cases userRequest.
  all: cbn [length Nat.eqb components error explanation].
  all: split; [intros Hx; first [discriminate Hx | reflexivity]|].
  all: split;
    [intros Hne; first [exfalso; apply Hne; reflexivity | split; reflexivity]|].
  all: split;
    [split; intros Hx; first [reflexivity | discriminate Hx | vm_compute in Hx; discriminate Hx]|].
  all: split; [reflexivity|].
  all: split; [reflexivity|].
  all: split; [apply NoDup_by_nodup; reflexivity|].
  all: intros c Hin; vm_compute in Hin;
    repeat (destruct Hin as [<-|Hin]; [eexists; split; reflexivity|]);
    contradiction.
Qed.

Lemma runOrchestration_snoc (events : list OrchestrationEvent) (event : OrchestrationEvent) :
  runOrchestration (events ++ [event])
  = applyOrchestrationEvent (runOrchestration events) event.
Proof. unfold runOrchestration. now rewrite fold_left_app. Qed.

(** [orchestrateDashboard] updates the state at its call and again after
    its delay, and calls may overlap; so take any sequence of starts and
    ends of calls and of clears.  The first update of a call marks the
    state as loading, resets the error and leaves the components in place.
    The second update of a call, wherever it falls, ends the loading.  When
    the request has no instructions it leaves the error message, no
    component and an empty explanation.  Otherwise it leaves one component
    per instruction, in order, each with the component the registry holds
    under the instruction's name and with the id made of that name and the
    position of the instruction, so the ids are distinct; the explanation
    states the number of components; and the error is left as it was.  In
    a call that ends before any other event, the outcome has an error
    exactly when it has no component.  Between overlapping calls this
    fails: the error of a call that was not understood stays beside the
    components of a call that ends after it. *)
Theorem orchestrateDashboard_spec (events : list OrchestrationEvent) (userRequest : string) :
  let instructions := analyzeRequest userRequest in
  let before := runOrchestration events in
  let st := runOrchestration (events ++ [CallEnds userRequest]) in
  let alone := runOrchestration (events ++ [CallStarts; CallEnds userRequest]) in
  runOrchestration (events ++ [CallStarts])
  = {| components := components before; loading := true; error := None;
       explanation := explanation before |} /\
  runOrchestration (events ++ [DashboardCleared])
  = {| components := []; loading := false; error := None; explanation := "" |} /\
  loading st = false /\
  (instructions = [] ->
   st = {| components := [];
           loading := false;
           error := Some "Could not understand your request. Try asking for sales, users, market share, or correlation analysis.";
           explanation := "" |}) /\
  (instructions <> [] ->
   error st = error before /\
   explanation st = generateExplanation userRequest (length instructions)) /\
  (components st = [] <-> instructions = []) /\
  map dc_instruction (components st) = instructions /\
  map dc_id (components st)
  = map (fun p => (name (snd p) ++ "-" ++ decimal (fst p))%string)
        (combine (seq 0 (length instructions)) instructions) /\
  NoDup (map dc_id (components st)) /\
  (forall c, In c (components st) ->
     exists entry,
       lookup componentRegistry (name (dc_instruction c)) = Some entry /\
       dc_component c = entryComponent entry) /\
  components alone = components st /\
  (error alone = None <-> components alone <> []) /\
  (let overlap :=
     runOrchestration [CallStarts; CallStarts; CallEnds "weather"; CallEnds "sales"] in
   error overlap
   = Some "Could not understand your request. Try asking for sales, users, market share, or correlation analysis."
   /\ length (components overlap) = 3%nat).
Proof.
  intros instructions before st alone.
  assert (Hst : st = orchestrateFinish userRequest before)
    by apply runOrchestration_snoc.
  assert (Halone : alone = orchestrateFinish userRequest (orchestrateStart before)).
  { unfold alone. change [CallStarts; CallEnds userRequest]
      with ([CallStarts] ++ [CallEnds userRequest]).
    rewrite app_assoc, !runOrchestration_snoc. reflexivity. }
  pose proof (orchestrateFinish_cases userRequest before) as Hc.
  pose proof (orchestrateFinish_cases userRequest (orchestrateStart before)) as Ha.
  cbv zeta in Hc, Ha. rewrite <- Hst in Hc. rewrite <- Halone in Ha.
  fold instructions in Hc, Ha.
  destruct Hc as (H1 & H2 & H3 & H4 & H5 & H6 & H7 & H8).
  destruct Ha as (_ & A2 & A3 & A4 & A5 & _).
  split; [apply runOrchestration_snoc|].
  split; [apply runOrchestration_snoc|].
  split; [exact H1|]. split; [exact H2|]. split; [exact H3|]. split; [exact H4|].
  split; [exact H5|]. split; [exact H6|]. split; [exact H7|]. split; [exact H8|].
  split.
  { rewrite Hst, Halone. unfold orchestrateFinish.
    destruct (Nat.eqb (length (analyzeRequest userRequest)) 0); reflexivity. }
  split.
  { split.
    - intros He Hnil. apply A4 in Hnil. rewrite (A2 Hnil) in He. discriminate.
    - intros Hne. assert (Hi : instructions <> []) by (intros Hi; apply Hne, A4, Hi).
      destruct (A3 Hi) as [He _]. rewrite He. reflexivity. }
  vm_compute. split; reflexivity.
Qed.

(** * The text of a profile *)






Lemma keepNonNull_none (vs : list (option value)) :
  keepNonNull vs = [] <-> forall v, In v vs -> isNullish v = true.
Proof.
  unfold keepNonNull. induction vs as [|v t IH]; cbn [filter].
  - split; [intros _ v [] | reflexivity].
  - destruct (isNullish v) eqn:Hv; cbn [negb].
    + rewrite IH. split.
      * intros Hall x [<-|Hx]; [exact Hv | now apply Hall].
      * intros Hall x Hx. apply Hall. now right.
    + split; [discriminate|]. intros Hall.
      rewrite (Hall v (or_introl eq_refl)) in Hv. discriminate.
Qed.

Lemma ltb_not_nan (a b : float) : (a <? b) = true -> is_nan a = false /\ is_nan b = false.
Proof.
  rewrite ltb_spec. unfold SFltb. intros H.
  split; apply not_true_is_false; intros E; apply is_nan_spec in E; rewrite E in H;
    [|destruct (Prim2SF a)]; discriminate.
Qed.

(** The numbers equal to 0 are the two zeros. *)
Lemma zero_cases (c : float) : (c =? 0) = true -> c = 0 \/ c = neg_zero.
Proof.
  rewrite eqb_spec. change (Prim2SF 0) with (S754_zero false). intros H.
  apply SFeqb_eq_or_zero in H. rewrite <- (SF2Prim_Prim2SF c).
  destruct H as [->|(s & t & -> & _)]; [now left|].
  destruct s; [right | left]; reflexivity.
Qed.

(** What the lines say.  A correlation is called strong when its absolute
    value is above 0.7, moderate when it is above 0.4 and not above 0.7,
    weak otherwise; it is called positive when it is above 0 and negative
    otherwise, so a correlation of 0 is reported as weak negative.  In the
    text of a profile computed by [analyzeDataset], every column of a
    declared type other than date has one line; a column profiled as a
    number without any valid number has all six statistics printed as
    "undefined"; and a date column has a line unless all its values are
    null or missing. *)
Theorem summary_line_contents `{Runtime} (rows : list Record) (cols : list string)
  (types : ColumnTypes) :
  (forall c,
     (strengthOf c = "strong" <-> (0.7 <? abs c) = true) /\
     (strengthOf c = "moderate" <-> (0.4 <? abs c) = true /\ (0.7 <? abs c) = false) /\
     (strengthOf c = "weak" <-> (0.4 <? abs c) = false)) /\
  (forall cr,
     (0 <? correlation cr) = true ->
     correlationLine cr
     = ("- " ++ xColumn cr ++ " vs " ++ yColumn cr ++ ": r=" ++ numberString (correlation cr)
        ++ " (" ++ strengthOf (correlation cr) ++ " positive)")%string) /\
  (forall cr,
     (0 <? correlation cr) = false ->
     correlationLine cr
     = ("- " ++ xColumn cr ++ " vs " ++ yColumn cr ++ ": r=" ++ numberString (correlation cr)
        ++ " (" ++ strengthOf (correlation cr) ++ " negative)")%string) /\
  (forall cr,
     (correlation cr =? 0) = true ->
     correlationLine cr
     = ("- " ++ xColumn cr ++ " vs " ++ yColumn cr ++ ": r=0 (weak negative)")%string) /\
  (forall cs, In cs (columnStats (analyzeDataset rows cols types)) ->
     (length (statLines cs) <= 1)%nat /\
     (typeOf types (cs_column cs) <> None -> cs_type cs <> TDate ->
      length (statLines cs) = 1%nat) /\
     (cs_type cs = TNumber -> keepNumbers (columnValues rows (cs_column cs)) = [] ->
      statLines cs
      = [("- **" ++ cs_column cs
          ++ "** (numeric): min=undefined, max=undefined, mean=undefined, median=undefined, sum=undefined, stdDev=undefined")%string]) /\
     (cs_type cs = TDate ->
      (statLines cs = [] <->
       forall row, In row rows -> isNullish (get row (cs_column cs)) = true))).
Proof.
  assert (Hstrength : forall c,
     (strengthOf c = "strong" <-> (0.7 <? abs c) = true) /\
     (strengthOf c = "moderate" <-> (0.4 <? abs c) = true /\ (0.7 <? abs c) = false) /\
     (strengthOf c = "weak" <-> (0.4 <? abs c) = false)).
  { intros c. unfold strengthOf.
    destruct (0.7 <? abs c) eqn:H7.
    - assert (H4 : (0.4 <? abs c) = true).
      { destruct (ltb_not_nan _ _ H7) as [_ Hn].
        rewrite ltb_ford in H7 |- * by (reflexivity || assumption).
        apply Z.ltb_lt in H7. apply Z.ltb_lt.
        assert (Hc : (ford 0.4 < ford 0.7)%Z) by (vm_compute; reflexivity). lia. }
      rewrite H4. split; [split; intros Hx | split; split; intros Hx];
        first [reflexivity | discriminate | (destruct Hx; discriminate)].
    - destruct (0.4 <? abs c) eqn:H4;
        (split; [split; intros Hx | split; split; intros Hx]);
        first [reflexivity | discriminate | (destruct Hx; discriminate)
              | (split; reflexivity)]. }
  split; [exact Hstrength|].
  split.
  { intros cr Hpos. unfold correlationLine. now rewrite Hpos. }
  split.
  { intros cr Hneg. unfold correlationLine. now rewrite Hneg. }
  split.
  { intros cr Hz. unfold correlationLine.
    destruct (zero_cases _ Hz) as [->| ->]; reflexivity. }
  intros cs Hcs. cbn [columnStats analyzeDataset] in Hcs.
  apply in_map_iff in Hcs. destruct Hcs as [col [<- _]].
  rewrite columnStatsOf_column.
  unfold statLines, columnStatsOf.
  destruct (typeOf types col) as [[]|]; cbn [cs_type cs_topValues cs_dateRange cs_numeric cs_column].
  - (* string *)
    split; [cbn [length]; lia|]. split; [intros _ _; reflexivity|].
    split; discriminate.
  - (* number *)
    split; [cbn [length]; lia|]. split; [intros _ _; reflexivity|]. split; [|discriminate].
    intros _ Hnone. apply computeNumericStats_None in Hnone. rewrite Hnone. reflexivity.
  - (* date *)
    assert (Hrange : dateRangeOf rows col = None
                     <-> forall row, In row rows -> isNullish (get row col) = true).
    { unfold dateRangeOf. rewrite sort_by_length.
      destruct (keepNonNull (columnValues rows col)) as [|v t] eqn:Hk.
      - cbn [length Nat.ltb Nat.leb]. split; [intros _|reflexivity].
        intros row Hrow. apply (proj1 (keepNonNull_none _) Hk).
        unfold columnValues. apply (in_map (fun r => get r col)), Hrow.
      - cbn [length Nat.ltb Nat.leb]. split; [discriminate|]. intros Hall. exfalso.
        assert (Hnil : keepNonNull (columnValues rows col) = []).
        { apply keepNonNull_none. intros x Hx. unfold columnValues in Hx.
          apply in_map_iff in Hx. destruct Hx as [row [<- Hrow]]. now apply Hall. }
        rewrite Hnil in Hk. discriminate. }
    destruct (dateRangeOf rows col) as [[earliest latest]|].
    + split; [cbn [length]; lia|]. split; [intros _; congruence|]. split; [discriminate|].
      intros _. split; [discriminate|]. intros Hall. apply Hrange in Hall. discriminate.
    + split; [cbn [length]; lia|]. split; [intros _; congruence|]. split; [discriminate|].
      intros _. split; [intros _; now apply Hrange | reflexivity].
  - (* no declared type *)
    split; [cbn [length]; lia|]. split; [intros Hx; now destruct Hx|].
    split; discriminate.
Qed.

(** * Order of the rows *)

Lemma filter_perm {A : Type} (f : A -> bool) (l l' : list A) :
  Permutation l l' -> Permutation (filter f l) (filter f l').
Proof.
  induction 1 as [|x l l' Hp IH|x y l|l l' l'' H1 IH1 H2 IH2]; cbn [filter].
  - constructor.
  - destruct (f x); [now constructor | exact IH].
  - destruct (f x), (f y); try apply Permutation_refl. apply perm_swap.
  - eapply perm_trans; eassumption.
Qed.

Lemma distinctKeys_perm (l l' : list string) :
  Permutation l l' -> Permutation (distinctKeys l) (distinctKeys l').
Proof.
  intros Hp. apply NoDup_Permutation; try apply distinctKeys_NoDup.
  intros k. rewrite !distinctKeys_In. split; apply Permutation_in;
    [exact Hp | apply Permutation_sym, Hp].
Qed.

Lemma StronglySorted_map {A B : Type} (f : A -> B) (P : B -> B -> Prop) (l : list A) :
  StronglySorted (fun a b => P (f a) (f b)) l -> StronglySorted P (map f l).
Proof.
  induction 1 as [|a l Hs IH Hall]; cbn [map]; constructor; [exact IH|].
  apply Forall_forall. intros y Hy. apply in_map_iff in Hy. destruct Hy as [x [<- Hx]].
  rewrite Forall_forall in Hall. now apply Hall.
Qed.

Lemma descending_counts_eq (l1 l2 : list nat) :
  StronglySorted (fun a b => (b <= a)%nat) l1 -> StronglySorted (fun a b => (b <= a)%nat) l2 ->
  Permutation l1 l2 -> l1 = l2.
Proof.
  revert l2. induction l1 as [|a t1 IH]; intros l2 H1 H2 Hp.
  - apply Permutation_nil in Hp. now subst.
  - destruct l2 as [|b t2]; [apply Permutation_sym, Permutation_nil in Hp; discriminate|].
    inversion H1 as [|? ? Hs1 Hall1]; subst. inversion H2 as [|? ? Hs2 Hall2]; subst.
    rewrite Forall_forall in Hall1, Hall2.
    assert (Hab : a = b).
    { assert (Hb : In b (a :: t1))
        by (apply (Permutation_in _ (Permutation_sym Hp)); now left).
      assert (Ha : In a (b :: t2)) by (apply (Permutation_in _ Hp); now left).
      destruct Hb as [Hb|Hb]; [exact Hb|]. destruct Ha as [Ha|Ha]; [now symmetry|].
      specialize (Hall1 b Hb). specialize (Hall2 a Ha). lia. }
    subst b. f_equal. apply IH; try assumption. now apply Permutation_cons_inv in Hp.
Qed.

(** Reordering the rows of the dataset leaves each value of a column with
    the same count, and the counts of the top values, from the greatest
    down, are the same; only the order of values of equal count may change.
    The numeric statistics do depend on the order of the rows: the total of
    0.041, 1.192 and 1.472 is reported as 2.71, and as 2.7 when the rows
    are taken in the reverse order. *)
Theorem statistics_row_order `{Runtime} (data data' : list Record) (col : string) :
  Permutation data data' ->
  Permutation (countValues data col) (countValues data' col) /\
  map snd (computeCategoricalStats data col) = map snd (computeCategoricalStats data' col) /\
  option_map ns_sum (computeNumericStats priceRows "price") = Some 2.71 /\
  option_map ns_sum (computeNumericStats (rev priceRows) "price") = Some 2.7.
Proof.
  intros Hp.
  assert (Hkeys : Permutation (map (countKey col) data) (map (countKey col) data'))
    by apply Permutation_map, Hp.
  assert (Hcount : forall k, countOf k (map (countKey col) data)
                             = countOf k (map (countKey col) data')).
  { intros k. unfold countOf. apply Permutation_length, filter_perm, Hkeys. }
  assert (Hcounts : Permutation (countValues data col) (countValues data' col)).
  { rewrite !countValues_closed. rewrite (map_ext _ _ (fun k => f_equal (pair k) (Hcount k))).
    apply Permutation_map, distinctKeys_perm, Hkeys. }
  split; [exact Hcounts|].
  split; [|split; vm_compute; reflexivity].
  unfold computeCategoricalStats. rewrite <- !firstn_map. f_equal.
  assert (Hsorted : forall l : list (string * nat),
    StronglySorted (fun a b => (b <= a)%nat)
      (map snd (sort_by (fun a b => (snd a <? snd b)%nat) l))).
  { intros l. apply StronglySorted_map.
    eapply StronglySorted_impl; [|apply sort_by_sorted].
    - intros a b Hab. apply Nat.ltb_ge in Hab. exact Hab.
    - intros a b Hab. apply Nat.ltb_lt in Hab. apply Nat.ltb_ge. lia.
    - intros a b c Hab Hbc. apply Nat.ltb_ge in Hab, Hbc. apply Nat.ltb_ge. lia. }
  apply descending_counts_eq; try apply Hsorted.
  apply Permutation_map.
  eapply perm_trans; [apply sort_by_perm|].
  eapply perm_trans; [exact Hcounts | apply Permutation_sym, sort_by_perm].
Qed.

Lemma statistics_row_order_witness :
  Permutation scenarioA (rev scenarioA) /\
  map snd (@computeCategoricalStats integerRuntime scenarioA "revenue")
  = map snd (@computeCategoricalStats integerRuntime (rev scenarioA) "revenue").
Proof.
  split; [apply Permutation_rev|].
  exact (proj1 (proj2 (@statistics_row_order integerRuntime scenarioA (rev scenarioA)
                         "revenue" (Permutation_rev scenarioA)))).
Defined.

(** * Queries against a profile *)

Lemma sumAndMean_in_bank `{Runtime} (data : list Record) (cats nums : list string)
  (catCol numCol : string) :
  In catCol (firstn 4 cats) ->
  (distinctCount (columnValues data catCol) <= 20)%nat ->
  In numCol (firstn 6 nums) ->
  forall agg, In agg (sumAndMean data catCol numCol) ->
    In agg (categoricalAggregations data cats nums).
Proof.
  intros Hcat Hfew Hnum agg Hagg. unfold categoricalAggregations.
  apply in_flat_map. exists catCol. split; [exact Hcat|].
  replace (20 <? distinctCount (columnValues data catCol))%nat with false
    by (symmetry; apply Nat.ltb_ge; exact Hfew).
  apply in_flat_map. exists numCol. split; [exact Hnum | exact Hagg].
Qed.

(** A query against the profile of a dataset.  When the query contains,
    whatever the case, the name of one of the first 4 categorical columns,
    one that shows at most 20 distinct values, or the name of one of the
    first 6 numeric columns, and the profile has such a categorical and such
    a numeric column, the query has a match among the aggregations of the
    profile.  When it contains both names, the match scores at least 6, and
    at least 8 when the query also says "total" or "sum". *)
Theorem profile_query_match `{Runtime} (rows : list Record) (cols : list string)
  (types : ColumnTypes) (query catCol numCol : string) :
  let s := analyzeDataset rows cols types in
  let q := toLowerCase query in
  In catCol (firstn 4 (categoricalColumns s)) ->
  (distinctCount (columnValues rows catCol) <= 20)%nat ->
  In numCol (firstn 6 (numericColumns s)) ->
  includes q (toLowerCase catCol) = true \/ includes q (toLowerCase numCol) = true ->
  exists best,
    findRelevantAggregation s query = Some best /\
    In best (precomputedAggregations s) /\
    (3 <= scoreOf q best)%nat /\
    (includes q (toLowerCase catCol) = true -> includes q (toLowerCase numCol) = true ->
     (6 <= scoreOf q best)%nat /\
     (includes q "total" || includes q "sum" = true -> (8 <= scoreOf q best)%nat)).
Proof.
  intros s q Hcat Hfew Hnum Hnamed.
  set (agg := {| description := ("Total " ++ numCol ++ " by " ++ catCol)%string;
                 groupBy := catCol; metric := numCol; operation := OpSum;
                 data := aggregateByGroup rows catCol numCol OpSum |}).
  assert (Hbank : In agg (precomputedAggregations s)).
  { change (precomputedAggregations s)
      with (categoricalAggregations rows (categoricalColumns s) (numericColumns s)
            ++ dateAggregations rows (dateColumns s) (numericColumns s)).
    apply in_or_app. left.
    apply (sumAndMean_in_bank rows _ _ catCol numCol Hcat Hfew Hnum). now left. }
  assert (Hscore : scoreOf q agg
                   = (points (includes q (toLowerCase catCol)) 3
                      + points (includes q (toLowerCase numCol)) 3
                      + list_sum (map (wordPoints (toLowerCase (description agg))
                                                  (toLowerCase catCol) (toLowerCase numCol))
                                      (split_ws q))
                      + points (operationHint q OpSum) 2)%nat)
    by (rewrite scoreOf_ruleScore; reflexivity).
  assert (H3 : (3 <= scoreOf q agg)%nat).
  { rewrite Hscore. destruct Hnamed as [Hn|Hn]; rewrite Hn; cbn [points]; lia. }
  destruct (findRelevantAggregation_cases s query) as [[_ Hlow] | (best & Hsome & Hin & Hb3 & Hmax)].
  - specialize (Hlow agg Hbank). fold q in Hlow. lia.
  - exists best. fold q in Hb3, Hmax. specialize (Hmax agg Hbank).
    split; [exact Hsome|]. split; [exact Hin|]. split; [exact Hb3|].
    intros Hc Hn. rewrite Hscore, Hc, Hn in Hmax. cbn [points] in Hmax.
    split; [lia|]. intros Hhint. unfold operationHint in Hmax. rewrite Hhint in Hmax.
    cbn [Operation_eqb andb orb points] in Hmax. lia.
Qed.

Lemma profile_query_match_witness :
  let types := [("region", TString); ("revenue", TNumber)] in
  let s := @analyzeDataset integerRuntime scenarioA ["region"; "revenue"] types in
  exists best,
    findRelevantAggregation s "Revenue by REGION" = Some best /\
    In best (precomputedAggregations s) /\
    (3 <= scoreOf (toLowerCase "Revenue by REGION") best)%nat /\
    (includes (toLowerCase "Revenue by REGION") (toLowerCase "region") = true ->
     includes (toLowerCase "Revenue by REGION") (toLowerCase "revenue") = true ->
     (6 <= scoreOf (toLowerCase "Revenue by REGION") best)%nat /\
     (includes (toLowerCase "Revenue by REGION") "total"
      || includes (toLowerCase "Revenue by REGION") "sum" = true ->
      (8 <= scoreOf (toLowerCase "Revenue by REGION") best)%nat)).
Proof.
  intros types s.
  apply (@profile_query_match integerRuntime scenarioA ["region"; "revenue"] types
           "Revenue by REGION" "region" "revenue").
  - left. reflexivity.
  - vm_compute. lia.
  - left. reflexivity.
  - left. reflexivity.
Defined.
